(** * Blockchain synchronizer: a shallow embedding of
      [lbry/blockchain/sync/synchronizer.py] (class [BlockchainSync]).

    The coordinator is single-threaded cooperative code: every method is a
    coroutine that calls collaborators (the chain, the database, the progress
    reporter, the event bus) and threads their answers through plain Python
    control flow.  The embedding keeps that shape:

    - the collaborators are a record of oracles ([World]), one field per
      capability the source calls;
    - a coroutine is a computation in a writer/exception monad [M]: it yields
      either a value or the Python exception that escapes it, together with
      the ordered list of calls it made ([effect]);
    - a future handed to [asyncio.wait] carries the instant at which it
      completes and how it completes;
    - the advance loop is a machine that reacts to what reaches it from
      outside: block notifications, the end of the running cycle,
      cancellation. *)

From Stdlib Require Import String.
From Stdlib Require Import ZArith List Bool Lia PeanoNat Permutation.
Import ListNotations.
Local Open Scope Z_scope.

(** ** Python values the coordinator handles *)

(** Exceptions that can escape a coroutine.  [Raised n] stands for any
    exception of a collaborator (a subclass of [Exception]) tagged by [n]. *)
Inductive exn : Type :=
| CancelledError
| ValueError (msg : String.string)
| IndexError
| Raised (code : nat).

(** [starting_height] is [None] until a block file needs work, and the tuple
    [(starting_height, best_height_processed)] is built from it as is, so the
    first component of a block range is an optional height. *)
Definition height_range : Type := (option Z * Z)%type.

(** Modelled from the spec: the constants [TXO_TYPES] and
    [CONTENT_TYPE_CODES] of [lbry.db.constants], which the coordinator treats
    as opaque identifiers. *)
Inductive txo_types : Type :=
| TXO_TYPES_channel
| CONTENT_TYPE_CODES
| TXO_TYPES_support.

(** The functions the coordinator hands to [self.db.run], with their
    arguments in the order of the call. *)
Inductive db_call : Type :=
| get_best_block_height_for_file_q (file_number : Z)
| sync_block_file (file_number start_height txs flush_size : Z)
| sync_txoi (genesis : bool)
| count_unspent_txos_q (types : txo_types) (blocks : option height_range)
    (missing_in_supports_table missing_in_claims_table
       missing_or_stale_in_claims_table : bool)
| distribute_unspent_txos_q (types : txo_types) (blocks : option height_range)
    (missing_in_supports_table missing_in_claims_table
       missing_or_stale_in_claims_table : bool)
| count_abandoned_supports_q
| count_abandoned_claims_q
| count_claims_with_changed_supports_q (blocks : option height_range)
| count_channels_with_changed_content_q (blocks : option height_range)
| claims_insert (types : txo_types) (batch : height_range) (update_existing : bool)
| claims_update (types : txo_types) (batch : height_range)
| claims_delete (count : Z)
| update_takeovers (blocks : option height_range) (count : Z)
| update_stakes (blocks : option height_range) (count : Z)
| supports_insert (batch : height_range) (update_existing : bool)
| supports_delete (count : Z)
| update_channel_stats (blocks : option height_range) (initial_sync : bool) (count : Z).

(** Calls on [self.chain.db]. *)
Inductive chain_call : Type :=
| get_best_height
| get_block_files (file_number start_height : option Z)
| get_claim_metadata_count (start_height : option Z) (end_height : Z)
| get_support_metadata_count (start_height : option Z) (end_height : Z)
| get_takeover_count (start_height : option Z) (end_height : Z).

Inductive db_method : Type := has_claims | has_supports.

Inductive progress_event : Type :=
| BLOCK_INIT_EVENT | BLOCK_MAIN_EVENT
| FILTER_INIT_EVENT | FILTER_MAIN_EVENT
| CLAIM_INIT_EVENT | CLAIM_MAIN_EVENT
| SUPPORT_INIT_EVENT | SUPPORT_MAIN_EVENT
| TREND_INIT_EVENT | TREND_MAIN_EVENT.

(** Calls on a [Progress] object of [lbry.db.query_context]: entering and
    leaving the [with] block, [p.start], [p.step] and [p.iter].  Only the
    calls are recorded, not what the reporter makes of them. *)
Inductive progress_op : Type :=
| PEnter
| PStart (total : Z)
| PStartBlocks (blocks txs : Z) (starting_height : option Z)
    (ending_height files claims supports : Z)
| PStep
| PIter (items : nat)
| PExit.

Inductive coroutine : Type := sync_filters_co | sync_trends_co.

(** What the coordinator does to the outside, in program order.  A task made
    by [asyncio.create_task] runs on its own between its creation and the
    [await] on it; its effects are kept apart and handed over by
    [EAwaitTask]. *)
#[warnings="-register-all"] Inductive effect : Type :=
| EChain (c : chain_call)
| EDb (m : db_method)
| ERun (c : db_call)
| EWaitReturned (done pending : list db_call)  (* [asyncio.wait] came back *)
| EProgress (ev : progress_event) (op : progress_op)
| EStopEventSet
| ECancelFuture (c : db_call)
| ECreateTask (t : coroutine)
| EAwaitTask (t : coroutine) (ran : list effect)
| EBlockEvent (height : Z)
| EEventClear
| ELogException (e : exn)
| EChainUnsubscribe
| ESubscriptionCancel
| ECancelLoopTask.

(** ** Futures *)

Inductive outcome : Type :=
| Finished (value : Z)
| Failed (e : exn)
| Cancelled.

(** A future returned by [self.db.run]: the call it runs, the instant at
    which it completes and its outcome. *)
Record future : Type := mkFuture {
  fut_call : db_call;
  fut_when : nat;
  fut_outcome : outcome
}.

Record block_file : Type := mkBlockFile {
  file_number : Z;
  best_height : Z;
  txs : Z;
  blocks : Z
}.

(** ** The collaborators *)

Definition res (A : Type) : Type := (exn + A)%type.

(** What the chain, the database and the configuration answer during one
    cycle: each field is the value one call returns, or the exception it
    raises. *)
Record World : Type := mkWorld {
  conf_spv_address_filters : bool;
  chain_get_best_height : res Z;
  chain_get_block_files : option Z -> option Z -> res (list block_file);
  chain_get_claim_metadata_count : option Z -> Z -> res Z;
  chain_get_support_metadata_count : option Z -> Z -> res Z;
  chain_get_takeover_count : option Z -> Z -> res Z;
  db_has_claims : res bool;
  db_has_supports : res bool;
  db_best_block_height_for_file : Z -> res Z;
  db_count_unspent_txos :
    txo_types -> option height_range -> bool -> bool -> bool -> res Z;
  db_distribute_unspent_txos :
    txo_types -> option height_range -> bool -> bool -> bool ->
    res (Z * list height_range);
  db_count_abandoned_supports : res Z;
  db_count_abandoned_claims : res Z;
  db_count_claims_with_changed_supports : option height_range -> res Z;
  db_count_channels_with_changed_content : option height_range -> res Z;
  (** when and how a submitted task completes *)
  db_task : db_call -> nat * outcome
}.

(** ** The coroutine monad *)

Definition M (A : Type) : Type := (res A * list effect)%type.

Definition ret {A} (a : A) : M A := (inr a, []).
Definition raise {A} (e : exn) : M A := (inl e, []).
Definition emit (ef : effect) : M unit := (inr tt, [ef]).
Definition lift {A} (r : res A) : M A := (r, []).

Definition bind {A B} (m : M A) (k : A -> M B) : M B :=
  match m with
  | (inl e, l) => (inl e, l)
  | (inr a, l) => let (r, l') := k a in (r, l ++ l')
  end.

Declare Scope co_scope.
Delimit Scope co_scope with co.
Notation "x <- m ;; k" := (bind m (fun x => k))
  (at level 61, m at next level, right associativity) : co_scope.
Notation "' p <- m ;; k" := (bind m (fun x => match x with p => k end))
  (at level 61, p pattern, m at next level, right associativity) : co_scope.
Notation "m ;;; k" := (bind m (fun _ => k))
  (at level 61, right associativity) : co_scope.
Local Open Scope co_scope.

Definition result_of {A} (m : M A) : res A := fst m.
Definition log_of {A} (m : M A) : list effect := snd m.

Fixpoint for_each {A} (f : A -> M unit) (xs : list A) : M unit :=
  match xs with
  | [] => ret tt
  | x :: xs' => f x ;;; for_each f xs'
  end.

Fixpoint map_m {A B} (f : A -> M B) (xs : list A) : M (list B) :=
  match xs with
  | [] => ret []
  | x :: xs' => y <- f x ;; ys <- map_m f xs' ;; ret (y :: ys)
  end.

Fixpoint fold_m {A S} (f : S -> A -> M S) (xs : list A) (s : S) : M S :=
  match xs with
  | [] => ret s
  | x :: xs' => s' <- f s x ;; fold_m f xs' s'
  end.

(** [with Progress(queue, ev) as p: body]: the block is left through
    [__exit__] whether [body] returns or raises. *)
Definition with_progress {A} (ev : progress_event) (body : M A) : M A :=
  let (r, l) := body in
  (r, EProgress ev PEnter :: l ++ [EProgress ev PExit]).

(** ** [asyncio] primitives *)

(** [self.db.run(fn, *args)]: the task is submitted and a future comes back. *)
Definition db_run (w : World) (c : db_call) : M future :=
  emit (ERun c) ;;;
  ret (mkFuture c (fst (db_task w c)) (snd (db_task w c))).

(** [future.result()], also what [await future] yields. *)
Definition future_result (f : future) : M Z :=
  match fut_outcome f with
  | Finished v => ret v
  | Failed e => raise e
  | Cancelled => raise CancelledError
  end.

Definition has_exception (f : future) : bool :=
  match fut_outcome f with Failed _ => true | _ => false end.

(** The earliest instant at which a future completes with an exception (a
    cancelled future does not count for [FIRST_EXCEPTION]). *)
Fixpoint first_exception_time (fs : list future) : option nat :=
  match fs with
  | [] => None
  | f :: fs' =>
      match first_exception_time fs' with
      | None => if has_exception f then Some (fut_when f) else None
      | Some t =>
          if has_exception f then Some (Nat.min (fut_when f) t) else Some t
      end
  end.

(** [asyncio.wait(fs, return_when=FIRST_EXCEPTION)].  It refuses an empty
    collection with [ValueError]; otherwise it returns once a future has
    raised, or once all are complete when none raises.  Python returns two
    sets and iterates over a set in an order it does not promise.  The lists
    here stand for one such order, that of [fs]: what is said of the code
    about the order in which [run_tasks] meets the futures has to hold for
    every order of [fs]. *)
Definition asyncio_wait_first_exception (fs : list future)
  : res (list future * list future) :=
  match fs with
  | [] => inl (ValueError "Set of coroutines/Futures is empty."%string)
  | _ :: _ =>
      match first_exception_time fs with
      | None => inr (fs, [])
      | Some t =>
          inr (filter (fun f => Nat.leb (fut_when f) t) fs,
               filter (fun f => Nat.ltb t (fut_when f)) fs)
      end
  end.

(** ** [BlockchainSync] *)

Definition TX_FLUSH_SIZE : Z := 20000.

Definition is_empty {A} (l : list A) : bool :=
  match l with [] => true | _ :: _ => false end.

(** [run_tasks], lines 67-78. *)
Definition run_tasks (w : World) (tasks : list future)
  : M (option (list future)) :=
  '(done, pending) <- lift (asyncio_wait_first_exception tasks) ;;
  emit (EWaitReturned (map fut_call done) (map fut_call pending)) ;;;
  if negb (is_empty pending) then
    emit EStopEventSet ;;;
    for_each (fun f => emit (ECancelFuture (fut_call f))) pending ;;;
    for_each (fun f => _ <- future_result f ;; ret tt) done ;;;
    ret None
  else ret (Some done).

(** [get_best_block_height_for_file], lines 80-83. *)
Definition get_best_block_height_for_file (w : World) (file_number : Z) : M Z :=
  emit (ERun (get_best_block_height_for_file_q file_number)) ;;;
  lift (db_best_block_height_for_file w file_number).

Definition chain_db (w : World) (c : chain_call) {A} (r : res A) : M A :=
  emit (EChain c) ;;; lift r.

(** The local variables of [sync_blocks] that its [for] loop updates. *)
Record sync_blocks_locals : Type := mkLocals {
  tasks : list future;
  starting_height : option Z;
  tx_count : Z;
  block_count : Z
}.

(** One iteration of the loop over the chain's block files, lines 92-114. *)
Definition sync_blocks_file (w : World) (s : sync_blocks_locals)
    (chain_file : block_file) : M sync_blocks_locals :=
  our_best_file_height <-
    get_best_block_height_for_file w (file_number chain_file) ;;
  if our_best_file_height =? best_height chain_file then
    (* we have all blocks in this file, skipping *)
    ret s
  else
    chain_file <-
      (if (-1 <? our_best_file_height)
          && (our_best_file_height <? best_height chain_file)
       then
         files <- chain_db w
           (get_block_files (Some (file_number chain_file))
                            (Some (our_best_file_height + 1)))
           (chain_get_block_files w (Some (file_number chain_file))
                                    (Some (our_best_file_height + 1))) ;;
         match files with
         | [] => raise IndexError
         | first :: _ => ret first
         end
       else ret chain_file) ;;
    let tx_count' := tx_count s + txs chain_file in
    let block_count' := block_count s + blocks chain_file in
    let starting_height' :=
      Z.min (match starting_height s with
             | None => our_best_file_height + 1
             | Some h => h
             end)
            (our_best_file_height + 1) in
    task <- db_run w (sync_block_file (file_number chain_file)
                        (our_best_file_height + 1) (txs chain_file)
                        TX_FLUSH_SIZE) ;;
    ret (mkLocals (tasks s ++ [task]) (Some starting_height')
                  tx_count' block_count').

Fixpoint list_max (x : Z) (xs : list Z) : Z :=
  match xs with
  | [] => x
  | y :: ys => list_max (Z.max x y) ys
  end.

(** The first [with] block of [sync_blocks], lines 89-114: it plans the
    tasks and yields the locals together with [ending_height]. *)
Definition sync_blocks_init (w : World) : M (sync_blocks_locals * Z) :=
  with_progress BLOCK_INIT_EVENT (
    ending_height <- chain_db w get_best_height (chain_get_best_height w) ;;
    files <- chain_db w (get_block_files None None)
               (chain_get_block_files w None None) ;;
    emit (EProgress BLOCK_INIT_EVENT (PIter (length files))) ;;;
    s <- fold_m (sync_blocks_file w) files (mkLocals [] None 0 0) ;;
    ret (s, ending_height)).

(** [sync_blocks], lines 85-126. *)
Definition sync_blocks (w : World) : M (option height_range) :=
  '(s, ending_height) <- sync_blocks_init w ;;
  with_progress BLOCK_MAIN_EVENT (
    claims <- chain_db w
      (get_claim_metadata_count (starting_height s) ending_height)
      (chain_get_claim_metadata_count w (starting_height s) ending_height) ;;
    supports <- chain_db w
      (get_support_metadata_count (starting_height s) ending_height)
      (chain_get_support_metadata_count w (starting_height s) ending_height) ;;
    emit (EProgress BLOCK_MAIN_EVENT
            (PStartBlocks (block_count s) (tx_count s) (starting_height s)
               ending_height (Z.of_nat (length (tasks s))) claims supports)) ;;;
    completed <- run_tasks w (tasks s) ;;
    match completed with
    | Some (f :: fs) =>
        h <- future_result f ;;
        hs <- map_m future_result fs ;;
        ret (Some (starting_height s, list_max h hs))
    | _ => ret None
    end).

(** [sync_filters], lines 128-137: the chunk enumeration is commented out in
    the source, so the task list is empty. *)
Definition sync_filters (w : World) : M unit :=
  if negb (conf_spv_address_filters w) then ret tt
  else
    with_progress FILTER_MAIN_EVENT (
      emit (EProgress FILTER_MAIN_EVENT (PStart 0)) ;;;
      _ <- run_tasks w [] ;;
      ret tt).

(** [await self.db.run(fn, *args)] for a task whose value is dropped. *)
Definition await_db_run (w : World) (c : db_call) : M unit :=
  f <- db_run w c ;;
  _ <- future_result f ;;
  ret tt.

(** [blocks_added[0] == 0]. *)
Definition starts_at_zero (b : height_range) : bool :=
  match fst b with
  | Some h => h =? 0
  | None => false
  end.

(** [sync_txios], lines 139-141. *)
Definition sync_txios (w : World) (blocks_added : option height_range) : M unit :=
  match blocks_added with
  | Some b => await_db_run w (sync_txoi (starts_at_zero b))
  | None => ret tt
  end.

(** [count_unspent_txos], [distribute_unspent_txos] and the other query
    wrappers, lines 143-188. *)
Definition count_unspent_txos (w : World) (types : txo_types)
    (blocks : option height_range) (b1 b2 b3 : bool) : M Z :=
  emit (ERun (count_unspent_txos_q types blocks b1 b2 b3)) ;;;
  lift (db_count_unspent_txos w types blocks b1 b2 b3).

Definition distribute_unspent_txos (w : World) (types : txo_types)
    (blocks : option height_range) (b1 b2 b3 : bool)
  : M (Z * list height_range) :=
  emit (ERun (distribute_unspent_txos_q types blocks b1 b2 b3)) ;;;
  lift (db_distribute_unspent_txos w types blocks b1 b2 b3).

Definition count_abandoned_supports (w : World) : M Z :=
  emit (ERun count_abandoned_supports_q) ;;; lift (db_count_abandoned_supports w).

Definition count_abandoned_claims (w : World) : M Z :=
  emit (ERun count_abandoned_claims_q) ;;; lift (db_count_abandoned_claims w).

Definition count_claims_with_changed_supports (w : World)
    (blocks : option height_range) : M Z :=
  emit (ERun (count_claims_with_changed_supports_q blocks)) ;;;
  lift (db_count_claims_with_changed_supports w blocks).

Definition count_channels_with_changed_content (w : World)
    (blocks : option height_range) : M Z :=
  emit (ERun (count_channels_with_changed_content_q blocks)) ;;;
  lift (db_count_channels_with_changed_content w blocks).

Definition count_takeovers (w : World) (b : height_range) : M Z :=
  chain_db w (get_takeover_count (fst b) (snd b))
    (chain_get_takeover_count w (fst b) (snd b)).

(** Python truthiness of an [int]. *)
Definition truthy (n : Z) : bool := negb (n =? 0).

(** What the first [with] block of [sync_claims] leaves in the locals. *)
Record claims_plan : Type := mkPlan {
  total : Z;
  channel_batches : list height_range;
  content_batches : list height_range;
  delete_claims : Z;
  takeovers : Z;
  claims_with_changed_supports : Z;
  channels_with_changed_content : Z
}.

(** Lines 193-238.  [None] is the bare [return] of the [else] branch. *)
Definition sync_claims_init (w : World) (initial_sync : bool)
    (blocks : option height_range) : M (option claims_plan) :=
  with_progress CLAIM_INIT_EVENT (
    if initial_sync then
      emit (EProgress CLAIM_INIT_EVENT (PStart 2)) ;;;
      '(channels, channel_batches) <-
        distribute_unspent_txos w TXO_TYPES_channel None false false false ;;
      let channels_with_changed_content := channels in
      let total := 0 + (channels + channels_with_changed_content) in
      emit (EProgress CLAIM_INIT_EVENT PStep) ;;;
      '(content, content_batches) <-
        distribute_unspent_txos w CONTENT_TYPE_CODES None false false false ;;
      let total := total + content in
      emit (EProgress CLAIM_INIT_EVENT PStep) ;;;
      ret (Some (mkPlan total channel_batches content_batches 0 0 0
                        channels_with_changed_content))
    else
      match blocks with
      | Some b =>
          emit (EProgress CLAIM_INIT_EVENT (PStart 6)) ;;;
          channels <-
            count_unspent_txos w TXO_TYPES_channel blocks false false true ;;
          let channel_batches := if truthy channels then [b] else [] in
          let total := 0 + channels in
          emit (EProgress CLAIM_INIT_EVENT PStep) ;;;
          content <-
            count_unspent_txos w CONTENT_TYPE_CODES blocks false false true ;;
          let content_batches := if truthy content then [b] else [] in
          let total := total + content in
          emit (EProgress CLAIM_INIT_EVENT PStep) ;;;
          delete_claims <- count_abandoned_claims w ;;
          let total := total + delete_claims in
          emit (EProgress CLAIM_INIT_EVENT PStep) ;;;
          claims_with_changed_supports <-
            count_claims_with_changed_supports w blocks ;;
          let total := total + claims_with_changed_supports in
          emit (EProgress CLAIM_INIT_EVENT PStep) ;;;
          channels_with_changed_content <-
            count_channels_with_changed_content w blocks ;;
          let total := total + channels_with_changed_content in
          emit (EProgress CLAIM_INIT_EVENT PStep) ;;;
          takeovers <- count_takeovers w b ;;
          let total := total + takeovers in
          emit (EProgress CLAIM_INIT_EVENT PStep) ;;;
          ret (Some (mkPlan total channel_batches content_batches
                            delete_claims takeovers
                            claims_with_changed_supports
                            channels_with_changed_content))
      | None => ret None
      end).

(** The body of [for txo_type, batches in insertions], lines 246-256. *)
Definition sync_claims_insertions (w : World) (initial_sync : bool)
    (insertion : txo_types * list height_range) : M unit :=
  let (txo_type, batches) := insertion in
  if negb (is_empty batches) then
    inserts <- map_m (fun batch =>
                 db_run w (claims_insert txo_type batch (negb initial_sync)))
               batches ;;
    _ <- run_tasks w inserts ;;
    if negb initial_sync then
      updates <- map_m (fun batch => db_run w (claims_update txo_type batch))
                   batches ;;
      _ <- run_tasks w updates ;;
      ret tt
    else ret tt
  else ret tt.

(** The second [with] block of [sync_claims], lines 239-264. *)
Definition sync_claims_main (w : World) (initial_sync : bool)
    (blocks : option height_range) (p : claims_plan) : M (option (bool * Z)) :=
  with_progress CLAIM_MAIN_EVENT (
    emit (EProgress CLAIM_MAIN_EVENT (PStart (total p))) ;;;
    for_each (sync_claims_insertions w initial_sync)
      [(TXO_TYPES_channel, channel_batches p);
       (CONTENT_TYPE_CODES, content_batches p)] ;;;
    (if truthy (delete_claims p)
     then await_db_run w (claims_delete (delete_claims p)) else ret tt) ;;;
    (if truthy (takeovers p)
     then await_db_run w (update_takeovers blocks (takeovers p)) else ret tt) ;;;
    (if truthy (claims_with_changed_supports p)
     then await_db_run w
            (update_stakes blocks (claims_with_changed_supports p))
     else ret tt) ;;;
    if truthy (channels_with_changed_content p)
    then ret (Some (initial_sync, channels_with_changed_content p))
    else ret None).

(** [sync_claims], lines 190-264. *)
Definition sync_claims (w : World) (blocks : option height_range)
  : M (option (bool * Z)) :=
  has <- (emit (EDb has_claims) ;;; lift (db_has_claims w)) ;;
  let initial_sync := negb has in
  plan <- sync_claims_init w initial_sync blocks ;;
  match plan with
  | Some p => sync_claims_main w initial_sync blocks p
  | None => ret None
  end.

(** What the first [with] block of [sync_supports] leaves in the locals. *)
Record supports_plan : Type := mkSupportsPlan {
  supports_total : Z;
  support_batches : list height_range;
  delete_supports : Z
}.

(** [sync_supports], lines 266-295. *)
Definition sync_supports (w : World) (blocks : option height_range) : M unit :=
  has <- (emit (EDb has_supports) ;;; lift (db_has_supports w)) ;;
  let initial_sync := negb has in
  plan <- with_progress SUPPORT_INIT_EVENT (
    if initial_sync then
      '(total, support_batches) <-
        distribute_unspent_txos w TXO_TYPES_support None false false false ;;
      ret (Some (mkSupportsPlan total support_batches 0))
    else
      match blocks with
      | Some b =>
          emit (EProgress SUPPORT_INIT_EVENT (PStart 2)) ;;;
          total <- count_unspent_txos w TXO_TYPES_support blocks true false false ;;
          let support_batches := if truthy total then [b] else [] in
          emit (EProgress SUPPORT_INIT_EVENT PStep) ;;;
          delete_supports <- count_abandoned_supports w ;;
          let total := total + delete_supports in
          emit (EProgress SUPPORT_INIT_EVENT PStep) ;;;
          ret (Some (mkSupportsPlan total support_batches delete_supports))
      | None => ret None
      end) ;;
  match plan with
  | Some p =>
      with_progress SUPPORT_MAIN_EVENT (
        emit (EProgress SUPPORT_MAIN_EVENT (PStart (supports_total p))) ;;;
        (if negb (is_empty (support_batches p)) then
           inserts <- map_m (fun batch =>
                        db_run w (supports_insert batch (negb initial_sync)))
                      (support_batches p) ;;
           _ <- run_tasks w inserts ;;
           ret tt
         else ret tt) ;;;
        if truthy (delete_supports p)
        then await_db_run w (supports_delete (delete_supports p))
        else ret tt)
  | None => ret tt
  end.

(** [sync_channel_stats], lines 297-301. *)
Definition sync_channel_stats (w : World) (blocks : option height_range)
    (initial_sync : bool) (channels_with_changed_content : Z) : M unit :=
  if truthy channels_with_changed_content then
    await_db_run w
      (update_channel_stats blocks initial_sync channels_with_changed_content)
  else ret tt.

(** [sync_trends], lines 303-304. *)
Definition sync_trends (w : World) : M unit := ret tt.

(** [asyncio.create_task(body)]: the handle stands for the run of [body],
    which goes on apart from its creator. *)
Definition create_task {A} (t : coroutine) (body : M A) : M (M A) :=
  emit (ECreateTask t) ;;; ret body.

(** [await task]: the task has run by now; its result, or its exception,
    comes back. *)
Definition await_task {A} (t : coroutine) (task : M A) : M A :=
  emit (EAwaitTask t (log_of task)) ;;; lift (result_of task).

(** [advance] from its second statement on, lines 308-318, given the value
    of [blocks_added]. *)
Definition advance_from (w : World) (blocks_added : option height_range)
  : M unit :=
  sync_filters_task <- create_task sync_filters_co (sync_filters w) ;;
  sync_trends_task <- create_task sync_trends_co (sync_trends w) ;;
  sync_txios w blocks_added ;;;
  channel_stats <- sync_claims w blocks_added ;;
  sync_supports w blocks_added ;;;
  (match channel_stats with
   | Some (initial_sync, channels_with_changed_content) =>
       sync_channel_stats w blocks_added initial_sync
         channels_with_changed_content
   | None => ret tt
   end) ;;;
  await_task sync_trends_co sync_trends_task ;;;
  await_task sync_filters_co sync_filters_task ;;;
  match blocks_added with
  | Some b => emit (EBlockEvent (snd b))
  | None => ret tt
  end.

(** [advance], lines 306-318. *)
Definition advance (w : World) : M unit :=
  blocks_added <- sync_blocks w ;;
  advance_from w blocks_added.

(** ** The advance loop *)

(** Where the task running [advance_loop] stands. *)
Inductive loop_pc : Type :=
| Waiting        (* suspended in [advance_loop_event.wait()] *)
| Running        (* suspended inside [advance()] *)
| Returned       (* left through [return] *)
| CancelledOut.  (* ended by a [CancelledError] raised in [wait()] *)

Record loop_state : Type := mkLoop {
  advance_loop_event : bool;
  on_block_subscription : option bool;  (* [None], or whether it is live *)
  stop_event : bool;
  cancel_requested : bool;              (* [advance_loop_task.cancel()] *)
  pc : loop_pc;
  cycles : nat;              (* cycles begun with no cancellation pending *)
  trace : list effect
}.

(** What reaches the coordinator from outside. *)
Inductive input : Type :=
| OnBlock                        (* the chain announces a block *)
| AdvanceCompletes (w : World)   (* the running [advance()] ends, in [w] *)
| CancelTask                     (* someone cancels the loop task *)
| StopCalled.                    (* someone else calls [stop()] *)

(** What [stop], lines 59-65, does to the outside: it unsubscribes from the
    chain, cancels the listener if there is one, sets the stop event of the
    database and cancels the loop task. *)
Definition stop_log (s : loop_state) : list effect :=
  [EChainUnsubscribe]
    ++ (match on_block_subscription s with
        | Some _ => [ESubscriptionCancel]
        | None => []
        end)
    ++ [EStopEventSet; ECancelLoopTask].

(** [stop], lines 59-65, run by whoever holds the coordinator.  A loop state
    exists once [start] has made the loop task, so [advance_loop_task] is
    not [None] here. *)
Definition stop (s : loop_state) : loop_state :=
  mkLoop (advance_loop_event s)
         (match on_block_subscription s with
          | Some _ => Some false
          | None => None
          end)
         true
         true
         (pc s) (cycles s)
         (trace s ++ stop_log s).

(** [advance()] entered with a cancellation pending: the [CancelledError] is
    thrown at the first suspension point, the chain call that opens
    [sync_blocks]. *)
Definition advance_cancelled_at_start : list effect :=
  [EProgress BLOCK_INIT_EVENT PEnter; EChain get_best_height;
   EProgress BLOCK_INIT_EVENT PExit].

(** The loop task arrives at the top of [while True], lines 321-325, and
    runs until it next suspends or ends. *)
Definition loop_top (s : loop_state) : loop_state :=
  if advance_loop_event s then
    (* [wait()] returns at once; [clear()]; [advance()] is entered *)
    if cancel_requested s then
      mkLoop false (on_block_subscription s) (stop_event s) true Returned
             (cycles s)
             (trace s ++ [EEventClear] ++ advance_cancelled_at_start)
    else
      mkLoop false (on_block_subscription s) (stop_event s) false Running
             (S (cycles s)) (trace s ++ [EEventClear])
  else
    mkLoop false (on_block_subscription s) (stop_event s) (cancel_requested s)
           (if cancel_requested s then CancelledOut else Waiting)
           (cycles s) (trace s).

Definition set_pc (p : loop_pc) (s : loop_state) : loop_state :=
  mkLoop (advance_loop_event s) (on_block_subscription s) (stop_event s)
         (cancel_requested s) p (cycles s) (trace s).

Definition add_trace (l : list effect) (s : loop_state) : loop_state :=
  mkLoop (advance_loop_event s) (on_block_subscription s) (stop_event s)
         (cancel_requested s) (pc s) (cycles s) (trace s ++ l).

(** The listener of line 56: [advance_loop_event.set()]. *)
Definition event_set (s : loop_state) : loop_state :=
  mkLoop true (on_block_subscription s) (stop_event s)
         (cancel_requested s) (pc s) (cycles s) (trace s).

(** [self.db.stop_event.set()], line 72, among the effects of a cycle.  The
    tasks awaited through [EAwaitTask] are [sync_filters] and [sync_trends],
    which never get that far. *)
Definition sets_stop_event (l : list effect) : bool :=
  existsb (fun e => match e with EStopEventSet => true | _ => false end) l.

(** What a cycle that has ended leaves behind: its effects, and the stop
    event of the database if [run_tasks] set it on the way. *)
Definition add_cycle (l : list effect) (s : loop_state) : loop_state :=
  mkLoop (advance_loop_event s) (on_block_subscription s)
         (stop_event s || sets_stop_event l)
         (cancel_requested s) (pc s) (cycles s) (trace s ++ l).

(** The end of [advance()] as seen by lines 324-330. *)
Definition after_advance (s : loop_state) (m : M unit) : loop_state :=
  let s := add_cycle (log_of m) s in
  match result_of m with
  | inr _ => loop_top s
  | inl CancelledError => set_pc Returned s
  | inl e => loop_top (stop (add_trace [ELogException e] s))
  end.

(** [advance_loop_task.cancel()] from outside, with nothing else. *)
Definition request_cancel (s : loop_state) : loop_state :=
  mkLoop (advance_loop_event s) (on_block_subscription s) (stop_event s)
         true (pc s) (cycles s) (trace s).

(** [advance_loop], lines 320-331, as the reaction of its task to one input:
    the task runs on until it next suspends or ends.

    A cancellation that arrives while [advance()] is running is thrown into
    the call that [advance()] is suspended in, and unwinds it from there
    through the open [with] blocks.  It therefore stays pending in the
    state, and reaches the loop as the end of that cycle: an
    [AdvanceCompletes w] where, in [w], the interrupted call raises
    [CancelledError].  The effects of a cycle enter the trace when the cycle
    ends. *)
Definition advance_loop_step (s : loop_state) (i : input) : loop_state :=
  match pc s with
  | Returned | CancelledOut =>
      match i with
      | OnBlock =>
          match on_block_subscription s with
          | Some true => event_set s
          | _ => s
          end
      | StopCalled => stop s
      | _ => s
      end
  | Waiting =>
      match i with
      | OnBlock =>
          match on_block_subscription s with
          | Some true => loop_top (event_set s)
          | _ => s
          end
      | AdvanceCompletes _ => s
      | CancelTask => set_pc CancelledOut s
      | StopCalled => set_pc CancelledOut (stop s)
      end
  | Running =>
      match i with
      | OnBlock =>
          match on_block_subscription s with
          | Some true => event_set s
          | _ => s
          end
      | AdvanceCompletes w => after_advance s (advance w)
      | CancelTask => request_cancel s
      | StopCalled => stop s
      end
  end.

(** [advance_loop] over a sequence of inputs. *)
Definition advance_loop (s : loop_state) (ins : list input) : loop_state :=
  fold_left advance_loop_step ins s.

(** [start], lines 50-57: one [advance()] to catch up, then the subscription
    and the loop task, which suspends in [wait()] on a fresh event. *)
Definition start (w : World) : res loop_state :=
  match result_of (advance w) with
  | inl e => inl e
  | inr _ =>
      inr (mkLoop false (Some true) false false Waiting 0 (log_of (advance w)))
  end.

(** ** Reading a log *)

(** The heights of the [BlockEvent]s of a log, in order. *)
Fixpoint block_events (l : list effect) : list Z :=
  match l with
  | [] => []
  | EBlockEvent h :: l' => h :: block_events l'
  | _ :: l' => block_events l'
  end.

(** The functions of the [claim_phase] module. *)
Definition is_claim_phase (c : db_call) : bool :=
  match c with
  | claims_insert _ _ _ | claims_update _ _ | claims_delete _
  | update_takeovers _ _ | update_stakes _ _
  | update_channel_stats _ _ _ => true
  | _ => false
  end.

(** The [claim_phase] tasks a log submits, in order. *)
Fixpoint claim_phase_runs (l : list effect) : list db_call :=
  match l with
  | [] => []
  | ERun c :: l' =>
      if is_claim_phase c then c :: claim_phase_runs l' else claim_phase_runs l'
  | _ :: l' => claim_phase_runs l'
  end.

(** Every task the log hands to [self.db.run]. *)
Fixpoint runs_of (l : list effect) : list db_call :=
  match l with
  | [] => []
  | ERun c :: l' => c :: runs_of l'
  | _ :: l' => runs_of l'
  end.

Definition progress_event_eqb (a b : progress_event) : bool :=
  match a, b with
  | BLOCK_INIT_EVENT, BLOCK_INIT_EVENT | BLOCK_MAIN_EVENT, BLOCK_MAIN_EVENT
  | FILTER_INIT_EVENT, FILTER_INIT_EVENT | FILTER_MAIN_EVENT, FILTER_MAIN_EVENT
  | CLAIM_INIT_EVENT, CLAIM_INIT_EVENT | CLAIM_MAIN_EVENT, CLAIM_MAIN_EVENT
  | SUPPORT_INIT_EVENT, SUPPORT_INIT_EVENT
  | SUPPORT_MAIN_EVENT, SUPPORT_MAIN_EVENT
  | TREND_INIT_EVENT, TREND_INIT_EVENT | TREND_MAIN_EVENT, TREND_MAIN_EVENT =>
      true
  | _, _ => false
  end.

(** The totals announced by [p.start] on one progress event. *)
Fixpoint progress_totals (ev : progress_event) (l : list effect) : list Z :=
  match l with
  | [] => []
  | EProgress ev' (PStart n) :: l' =>
      if progress_event_eqb ev ev' then n :: progress_totals ev l'
      else progress_totals ev l'
  | _ :: l' => progress_totals ev l'
  end.

Definition is_block_event (e : effect) : bool :=
  match e with EBlockEvent _ => true | _ => false end.

Definition is_claim_phase_run (e : effect) : bool :=
  match e with ERun c => is_claim_phase c | _ => false end.

Definition is_start_of (ev : progress_event) (e : effect) : bool :=
  match e with
  | EProgress ev' (PStart _) => progress_event_eqb ev ev'
  | _ => false
  end.

(** The first exception met when the results of [fs] are read in order. *)
Fixpoint first_raise (fs : list future) : option exn :=
  match fs with
  | [] => None
  | f :: fs' =>
      match fut_outcome f with
      | Finished _ => first_raise fs'
      | Failed e => Some e
      | Cancelled => Some CancelledError
      end
  end.

(** The [claims_insert] calls of [batches], then the return of the wait. *)
Definition insert_log (ty : txo_types) (u : bool) (bs : list height_range)
  : list effect :=
  match bs with
  | [] => []
  | _ :: _ =>
      map (fun b => ERun (claims_insert ty b u)) bs
        ++ [EWaitReturned (map (fun b => claims_insert ty b u) bs) []]
  end.

(** What step 6 of [advance] logs once it is reached, that is, when
    [sync_txios], [sync_claims] and [sync_supports] have all returned: the
    channel statistics run when [sync_claims] returned a pair. *)
Definition channel_stats_log (w : World) (blocks : option height_range)
  : list effect :=
  match result_of (sync_claims w blocks) with
  | inr (Some (initial_sync, n)) =>
      log_of (sync_channel_stats w blocks initial_sync n)
  | _ => []
  end.

(** [m] sets the stop event of the database only on a path that raises. *)
Definition quiet {A} (m : M A) : Prop :=
  forall a, result_of m = inr a -> ~ In EStopEventSet (log_of m).

(** The loop task is over. *)
Definition ended (s : loop_state) : Prop :=
  pc s = Returned \/ pc s = CancelledOut.

(** [never f m]: no effect of the class [f] occurs in the log of [m]. *)
Definition never {A} (f : effect -> bool) (m : M A) : Prop :=
  Forall (fun e => f e = false) (log_of m).

(** A task that completes with a value, so that awaiting it does not raise. *)
Definition completes (w : World) (c : db_call) : Prop :=
  exists v, snd (db_task w c) = Finished v.

(** A task that does not complete with an exception of its own. *)
Definition task_fails (w : World) (c : db_call) : bool :=
  match snd (db_task w c) with
  | Failed _ => true
  | _ => false
  end.

(** The future [self.db.run] returns for [c]. *)
Definition future_of (w : World) (c : db_call) : future :=
  mkFuture c (fst (db_task w c)) (snd (db_task w c)).

(** ** Concrete worlds *)

(** Every task completes at instant 1; [sync_block_file] yields [tip]. *)
Definition all_finish (tip : Z) (c : db_call) : nat * outcome :=
  match c with
  | sync_block_file _ _ _ _ => (1%nat, Finished tip)
  | _ => (1%nat, Finished 0)
  end.

(** A fresh index in front of a chain of ten blocks held in one file, with
    two channel claims, three content claims and one support. *)
Definition cold_start : World :=
  mkWorld false
    (inr 9)
    (fun _ _ => inr [mkBlockFile 0 9 12 10])
    (fun _ _ => inr 5) (fun _ _ => inr 1) (fun _ _ => inr 0)
    (inr false) (inr false)
    (fun _ => inr (-1))
    (fun _ _ _ _ _ => inr 0)
    (fun t _ _ _ _ =>
       match t with
       | TXO_TYPES_channel => inr (2, [(Some 0, 9)])
       | CONTENT_TYPE_CODES => inr (3, [(Some 0, 4); (Some 5, 9)])
       | TXO_TYPES_support => inr (1, [(Some 0, 9)])
       end)
    (inr 0) (inr 0) (fun _ => inr 0) (fun _ => inr 0)
    (all_finish 9).

(** A chain without block files in front of a fresh index. *)
Definition empty_chain : World :=
  mkWorld false
    (inr (-1))
    (fun _ _ => inr [])
    (fun _ _ => inr 0) (fun _ _ => inr 0) (fun _ _ => inr 0)
    (inr false) (inr false)
    (fun _ => inr (-1))
    (fun _ _ _ _ _ => inr 0)
    (fun _ _ _ _ _ => inr (0, []))
    (inr 0) (inr 0) (fun _ => inr 0) (fun _ => inr 0)
    (all_finish 0).

(** An index that holds heights 0 to 9 while the chain's only file now ends
    at height 14: five blocks to add, one content claim, one claim with a
    changed support total, one channel with changed content. *)
Definition incremental : World :=
  mkWorld false
    (inr 14)
    (fun _ start =>
       match start with
       | None => inr [mkBlockFile 0 14 20 15]
       | Some _ => inr [mkBlockFile 0 14 8 5]
       end)
    (fun _ _ => inr 1) (fun _ _ => inr 1) (fun _ _ => inr 0)
    (inr true) (inr true)
    (fun _ => inr 9)
    (fun t _ _ _ _ =>
       match t with
       | TXO_TYPES_channel => inr 0
       | CONTENT_TYPE_CODES => inr 1
       | TXO_TYPES_support => inr 1
       end)
    (fun _ _ _ _ _ => inr (0, []))
    (inr 0) (inr 0) (fun _ => inr 1) (fun _ => inr 1)
    (all_finish 14).

(** The incremental index of [incremental], where the insertion of the new
    content claim fails. *)
Definition incremental_insert_fails : World :=
  mkWorld false
    (inr 14)
    (chain_get_block_files incremental)
    (fun _ _ => inr 1) (fun _ _ => inr 1) (fun _ _ => inr 0)
    (inr true) (inr true)
    (fun _ => inr 9)
    (db_count_unspent_txos incremental)
    (fun _ _ _ _ _ => inr (0, []))
    (inr 0) (inr 0) (fun _ => inr 1) (fun _ => inr 1)
    (fun c =>
       match c with
       | claims_insert _ _ _ => (1%nat, Failed (Raised 1))
       | _ => all_finish 14 c
       end).

(** [cold_start] where the TXIO task fails after the blocks went in. *)
Definition cold_start_txio_fails : World :=
  mkWorld false
    (inr 9)
    (chain_get_block_files cold_start)
    (fun _ _ => inr 5) (fun _ _ => inr 1) (fun _ _ => inr 0)
    (inr false) (inr false)
    (fun _ => inr (-1))
    (fun _ _ _ _ _ => inr 0)
    (db_distribute_unspent_txos cold_start)
    (inr 0) (inr 0) (fun _ => inr 0) (fun _ => inr 0)
    (fun c =>
       match c with
       | sync_txoi _ => (1%nat, Failed (Raised 2))
       | _ => all_finish 9 c
       end).

(** An index that already holds every block of the chain's only file. *)
Definition up_to_date : World :=
  mkWorld false
    (inr 9)
    (fun _ _ => inr [mkBlockFile 0 9 12 10])
    (fun _ _ => inr 0) (fun _ _ => inr 0) (fun _ _ => inr 0)
    (inr true) (inr true)
    (fun _ => inr 9)
    (fun _ _ _ _ _ => inr 0)
    (fun _ _ _ _ _ => inr (0, []))
    (inr 0) (inr 0) (fun _ => inr 0) (fun _ => inr 0)
    (all_finish 9).

(** A fresh index in front of three block files of ten blocks each, saved
    out of order: the tasks of files 0, 1 and 2 end at heights 9, 29 and
    19. *)
Definition three_block_files : World :=
  mkWorld false
    (inr 29)
    (fun _ _ => inr [mkBlockFile 0 9 12 10; mkBlockFile 1 29 12 10;
                     mkBlockFile 2 19 12 10])
    (fun _ _ => inr 5) (fun _ _ => inr 1) (fun _ _ => inr 0)
    (inr false) (inr false)
    (fun _ => inr (-1))
    (fun _ _ _ _ _ => inr 0)
    (db_distribute_unspent_txos cold_start)
    (inr 0) (inr 0) (fun _ => inr 0) (fun _ => inr 0)
    (fun c =>
       match c with
       | sync_block_file 0 _ _ _ => (1%nat, Finished 9)
       | sync_block_file 1 _ _ _ => (3%nat, Finished 29)
       | sync_block_file _ _ _ _ => (2%nat, Finished 19)
       | _ => all_finish 29 c
       end).

(** [three_block_files] where the task of file 0 is cancelled, the task of
    file 1 fails next, and the task of file 2 is still running then.  Read in
    the order of the list, the first result [run_tasks] meets is the
    cancellation. *)
Definition cancelled_block_file : World :=
  mkWorld false
    (inr 29)
    (chain_get_block_files three_block_files)
    (fun _ _ => inr 5) (fun _ _ => inr 1) (fun _ _ => inr 0)
    (inr false) (inr false)
    (fun _ => inr (-1))
    (fun _ _ _ _ _ => inr 0)
    (db_distribute_unspent_txos cold_start)
    (inr 0) (inr 0) (fun _ => inr 0) (fun _ => inr 0)
    (fun c =>
       match c with
       | sync_block_file 0 _ _ _ => (1%nat, Cancelled)
       | sync_block_file 1 _ _ _ => (2%nat, Failed (Raised 1))
       | sync_block_file _ _ _ _ => (3%nat, Finished 19)
       | _ => all_finish 29 c
       end).

(** What in a log is about the block file [n]: the query for its indexed
    height, a refetch of its record, a [sync_block_file] task on it. *)
Definition concerns_file (n : Z) (e : effect) : bool :=
  match e with
  | ERun (get_best_block_height_for_file_q fnum) => fnum =? n
  | EChain (get_block_files (Some fnum) _) => fnum =? n
  | ERun (sync_block_file fnum _ _ _) => fnum =? n
  | _ => false
  end.

(** What the answers of [w] make one iteration of the loop over the block
    files log. *)
Definition file_plan (w : World) (cf : block_file) : list effect :=
  ERun (get_best_block_height_for_file_q (file_number cf)) ::
  match db_best_block_height_for_file w (file_number cf) with
  | inl _ => []
  | inr ours =>
      if ours =? best_height cf then []
      else if (-1 <? ours) && (ours <? best_height cf) then
        EChain (get_block_files (Some (file_number cf)) (Some (ours + 1))) ::
        match chain_get_block_files w (Some (file_number cf))
                (Some (ours + 1)) with
        | inr (r :: _) =>
            [ERun (sync_block_file (file_number r) (ours + 1) (txs r)
                     TX_FLUSH_SIZE)]
        | _ => []
        end
      else
        [ERun (sync_block_file (file_number cf) (ours + 1) (txs cf)
                 TX_FLUSH_SIZE)]
  end.

(** The blocks and transactions of a file that are still to be ingested, as
    the specification has them: none when the index already holds the
    file's tip, those of the record restricted to the heights above the
    indexed one when the file is indexed in part, and those of the whole
    record otherwise. *)
Definition to_ingest (w : World) (cf : block_file) : Z * Z :=
  match db_best_block_height_for_file w (file_number cf) with
  | inl _ => (0, 0)
  | inr ours =>
      if ours =? best_height cf then (0, 0)
      else if (-1 <? ours) && (ours <? best_height cf) then
        match chain_get_block_files w (Some (file_number cf))
                (Some (ours + 1)) with
        | inr (r :: _) => (blocks r, txs r)
        | _ => (0, 0)
        end
      else (blocks cf, txs cf)
  end.

Definition sum_Z (l : list Z) : Z := fold_right Z.add 0 l.

(** Three block files: file 0 is indexed up to its tip 300; file 1, with tip
    1000, is indexed up to 600, and the record restricted to the heights
    from 601 on has 400 blocks; file 2 is not indexed at all. *)
Definition mid_file_resume : World :=
  mkWorld false
    (inr 1200)
    (fun file start =>
       match file, start with
       | Some 1, Some 601 => inr [mkBlockFile 1 1000 1300 400]
       | Some _, _ => inr []
       | None, _ =>
           inr [mkBlockFile 0 300 700 301; mkBlockFile 1 1000 2100 699;
                mkBlockFile 2 1200 500 200]
       end)
    (fun _ _ => inr 0) (fun _ _ => inr 0) (fun _ _ => inr 0)
    (inr true) (inr true)
    (fun file_number =>
       match file_number with
       | 0 => inr 300
       | 1 => inr 600
       | _ => inr (-1)
       end)
    (fun _ _ _ _ _ => inr 0)
    (fun _ _ _ _ _ => inr (0, []))
    (inr 0) (inr 0) (fun _ => inr 0) (fun _ => inr 0)
    (fun c =>
       match c with
       | sync_block_file 1 _ _ _ => (1%nat, Finished 1000)
       | sync_block_file _ _ _ _ => (2%nat, Finished 1200)
       | _ => all_finish 1200 c
       end).

(** The task that recomputes the channel statistics. *)
Definition is_update_channel_stats (c : db_call) : bool :=
  match c with
  | update_channel_stats _ _ _ => true
  | _ => false
  end.

Definition runs_update_channel_stats (e : effect) : bool :=
  match e with
  | ERun c => is_update_channel_stats c
  | _ => false
  end.

(** [incremental] with one abandoned support whose deletion fails. *)
Definition incremental_support_delete_fails : World :=
  mkWorld false
    (inr 14)
    (chain_get_block_files incremental)
    (fun _ _ => inr 1) (fun _ _ => inr 1) (fun _ _ => inr 0)
    (inr true) (inr true)
    (fun _ => inr 9)
    (db_count_unspent_txos incremental)
    (fun _ _ _ _ _ => inr (0, []))
    (inr 1) (inr 0) (fun _ => inr 1) (fun _ => inr 1)
    (fun c =>
       match c with
       | supports_delete _ => (1%nat, Failed (Raised 4))
       | _ => all_finish 14 c
       end).


(** The loop task suspended inside a cycle, right after its [clear()]. *)
Definition in_cycle (n : nat) (l : list effect) : loop_state :=
  mkLoop false (Some true) false false Running n l.

(** ** Further readings of a log and further worlds *)

(** The start height a [sync_block_file] call is given. *)
Definition start_height_of (c : db_call) : option Z :=
  match c with
  | sync_block_file _ start _ _ => Some start
  | _ => None
  end.

(** The transaction count a [sync_block_file] call is given. *)
Definition txs_of (c : db_call) : Z :=
  match c with
  | sync_block_file _ _ n _ => n
  | _ => 0
  end.

(** [sync_block_file] calls that flush every [TX_FLUSH_SIZE] transactions. *)
Definition is_block_file_task (c : db_call) : bool :=
  match c with
  | sync_block_file _ _ _ flush => flush =? TX_FLUSH_SIZE
  | _ => false
  end.

(** The least start height among the calls, [None] when there is none. *)
Fixpoint min_start (cs : list db_call) : option Z :=
  match cs with
  | [] => None
  | c :: cs' =>
      match start_height_of c, min_start cs' with
      | Some h, Some m => Some (Z.min h m)
      | Some h, None => Some h
      | None, r => r
      end
  end.

Definition sum_txs (cs : list db_call) : Z :=
  fold_right (fun c acc => txs_of c + acc) 0 cs.

(** The notifications among the inputs. *)
Fixpoint count_on_block (ins : list input) : nat :=
  match ins with
  | [] => 0%nat
  | OnBlock :: ins' => S (count_on_block ins')
  | _ :: ins' => count_on_block ins'
  end.

(** Cycles begun, plus one when the event is set and so owes a cycle. *)
Definition cycles_owed (s : loop_state) : nat :=
  (cycles s + if advance_loop_event s then 1 else 0)%nat.

(** [cold_start] with [spv_address_filters] switched on. *)
Definition cold_start_with_filters : World :=
  mkWorld true
    (inr 9)
    (chain_get_block_files cold_start)
    (fun _ _ => inr 5) (fun _ _ => inr 1) (fun _ _ => inr 0)
    (inr false) (inr false)
    (fun _ => inr (-1))
    (fun _ _ _ _ _ => inr 0)
    (db_distribute_unspent_txos cold_start)
    (inr 0) (inr 0) (fun _ => inr 0) (fun _ => inr 0)
    (all_finish 9).

(** Two block files: file 0 is not indexed at all; file 1 is indexed up to
    height 14 of 19, and the chain answers the restricted query with an empty
    list. *)
Definition empty_refetch : World :=
  mkWorld false
    (inr 19)
    (fun _ start =>
       match start with
       | None => inr [mkBlockFile 0 9 12 10; mkBlockFile 1 19 30 10]
       | Some _ => inr []
       end)
    (fun _ _ => inr 0) (fun _ _ => inr 0) (fun _ _ => inr 0)
    (inr true) (inr true)
    (fun file_number => if file_number =? 0 then inr (-1) else inr 14)
    (fun _ _ _ _ _ => inr 0)
    (fun _ _ _ _ _ => inr (0, []))
    (inr 0) (inr 0) (fun _ => inr 0) (fun _ => inr 0)
    (all_finish 9).

(** [incremental] where the insertion of the new support fails and one
    support was abandoned. *)
Definition incremental_support_insert_fails : World :=
  mkWorld false
    (inr 14)
    (chain_get_block_files incremental)
    (fun _ _ => inr 1) (fun _ _ => inr 1) (fun _ _ => inr 0)
    (inr true) (inr true)
    (fun _ => inr 9)
    (db_count_unspent_txos incremental)
    (fun _ _ _ _ _ => inr (0, []))
    (inr 1) (inr 0) (fun _ => inr 1) (fun _ => inr 1)
    (fun c =>
       match c with
       | supports_insert _ _ => (1%nat, Failed (Raised 3))
       | _ => all_finish 14 c
       end).

(** What [run_tasks] adds to a log: the return of the wait, the stop event,
    cancellations. *)
Definition is_wait_or_cancel (e : effect) : bool :=
  match e with
  | EWaitReturned _ _ | EStopEventSet | ECancelFuture _ => true
  | _ => false
  end.

(** The [sync_block_file] calls among the calls. *)
Definition block_file_runs (l : list effect) : list db_call :=
  filter (fun c => match c with sync_block_file _ _ _ _ => true | _ => false end)
         (runs_of l).

(** A fresh index on which the first of two channel batches fails to insert
    while the second is still running. *)
Definition cold_start_channel_insert_fails : World :=
  mkWorld false
    (inr 9)
    (chain_get_block_files cold_start)
    (fun _ _ => inr 5) (fun _ _ => inr 1) (fun _ _ => inr 0)
    (inr false) (inr false)
    (fun _ => inr (-1))
    (fun _ _ _ _ _ => inr 0)
    (fun t _ _ _ _ =>
       match t with
       | TXO_TYPES_channel => inr (2, [(Some 0, 4); (Some 5, 9)])
       | CONTENT_TYPE_CODES => inr (3, [(Some 0, 9)])
       | TXO_TYPES_support => inr (1, [(Some 0, 9)])
       end)
    (inr 0) (inr 0) (fun _ => inr 0) (fun _ => inr 0)
    (fun c =>
       match c with
       | claims_insert TXO_TYPES_channel (Some 0, _) _ =>
           (1%nat, Failed (Raised 5))
       | claims_insert _ _ _ => (2%nat, Finished 0)
       | _ => all_finish 9 c
       end).

(** The [claims_insert] calls among the calls. *)
Definition is_claims_insert_of (ty : txo_types) (c : db_call) : bool :=
  match c, ty with
  | claims_insert TXO_TYPES_channel _ _, TXO_TYPES_channel
  | claims_insert CONTENT_TYPE_CODES _ _, CONTENT_TYPE_CODES
  | claims_insert TXO_TYPES_support _ _, TXO_TYPES_support => true
  | _, _ => false
  end.

(** * [ManagedEncryptedFileDownloader]

    The downloader of [lbrynet/lbryfilemanager/EncryptedFileDownloader.py].
    Its methods are Twisted [inlineCallbacks] generators: each [yield] waits
    for a collaborator, whose deferred fires with a value or fails, and an
    exception leaves the generator as the failure of the method's own
    deferred.  What the collaborators and the base classes answer is not in
    this file; it is a parameter.  A method is read on its own: between two
    of its [yield]s nothing else touches the object. *)
Module ManagedEncryptedFileDownloader.

Inductive error : Type :=
| Exception (args : list string)     (* [raise Exception(...)] *)
| UnboundLocalError (name : string)  (* a local read before it is bound *)
| Failure (n : nat).                 (* what a collaborator fails with *)

(** The values the methods return. *)
Inductive pyval : Type :=
| PyNone
| PyBool (b : bool)
| PyStr (s : string).

Definition STATUS_RUNNING : string := "running".
Definition STATUS_STOPPED : string := "stopped".
Definition STATUS_FINISHED : string := "finished".

(** The attributes of the object the methods read or write. *)
Record downloader : Type := mkDownloader {
  stream_hash : string;
  file_name : string;
  completed : bool;
  stopped : bool;
  sd_hash : option string;
  txid : option string;
  nout : option Z;
  uri : option string;
  claim_id : option string;
  _saving_status : bool
}.

Definition set_sd_hash (v : option string) (d : downloader) : downloader :=
  mkDownloader (stream_hash d) (file_name d) (completed d) (stopped d)
    v (txid d) (nout d) (uri d) (claim_id d) (_saving_status d).

(** [self.uri, self.txid, self.nout = ...]. *)
Definition set_claim (u t : string) (n : Z) (d : downloader) : downloader :=
  mkDownloader (stream_hash d) (file_name d) (completed d) (stopped d)
    (sd_hash d) (Some t) (Some n) (Some u) (claim_id d) (_saving_status d).

Definition set_claim_id (v : option string) (d : downloader) : downloader :=
  mkDownloader (stream_hash d) (file_name d) (completed d) (stopped d)
    (sd_hash d) (txid d) (nout d) (uri d) v (_saving_status d).

Definition set_completed (v : bool) (d : downloader) : downloader :=
  mkDownloader (stream_hash d) (file_name d) v (stopped d)
    (sd_hash d) (txid d) (nout d) (uri d) (claim_id d) (_saving_status d).

Definition set_saving_status (v : bool) (d : downloader) : downloader :=
  mkDownloader (stream_hash d) (file_name d) (completed d) (stopped d)
    (sd_hash d) (txid d) (nout d) (uri d) (claim_id d) v.

(** The [saving_status] property, lines 44-46. *)
Definition saving_status (d : downloader) : bool := _saving_status d.

(** The calls that leave the object, in the order they are made. *)
Inductive call : Type :=
| call__get_sd_blob_hashes_for_stream (stream : string)
| call_get_sd_blob_hashes_for_stream (stream : string)
| call_get_claim_metadata_for_sd_hash (sd : string)
| call_get_claimid (u t : string) (n : Z)
| call_get_lbry_file_status
| call_change_lbry_file_status (status : string)
| call_get_blobs_for_stream (stream : string)
| call_completed_blobs (hashes : list string)
| call_start
| call_EncryptedFileDownloader_stop (err : option error)
| call_EncryptedFileSaver__start.

(** The answers of the collaborators ([stream_info_manager], [wallet],
    [lbry_file_manager], [blob_manager]) and of the inherited methods, which
    may change the object whether they succeed or fail. *)
Record collaborators : Type := mkCollaborators {
  _get_sd_blob_hashes_for_stream : string -> error + list string;
  get_sd_blob_hashes_for_stream : string -> error + list string;
  get_claim_metadata_for_sd_hash :
    string -> error + option (string * string * Z);
  get_claimid : string -> string -> Z -> error + string;
  get_lbry_file_status : downloader -> error + string;
  change_lbry_file_status : downloader -> string -> error + pyval;
  get_blobs_for_stream : string -> error + list (option string * Z);
  completed_blobs : list string -> error + list string;
  start : downloader -> (error + unit) * downloader;
  EncryptedFileDownloader_stop :
    option error -> downloader -> (error + unit) * downloader;
  EncryptedFileSaver__start : downloader -> (error + unit) * downloader
}.

(** A method: from the object to a value or a failure, the object as it is
    left, and the calls made. *)
Definition D (A : Type) : Type :=
  downloader -> (error + A) * downloader * list call.

Definition outcome_of {A} (x : (error + A) * downloader * list call)
  : error + A := fst (fst x).
Definition object_of {A} (x : (error + A) * downloader * list call)
  : downloader := snd (fst x).
Definition calls_of {A} (x : (error + A) * downloader * list call)
  : list call := snd x.

Definition dret {A} (a : A) : D A := fun d => (inr a, d, []).

Definition draise {A} (e : error) : D A := fun d => (inl e, d, []).

Definition dbind {A B} (m : D A) (k : A -> D B) : D B :=
  fun d =>
    match m d with
    | (inl e, d', l) => (inl e, d', l)
    | (inr a, d', l) =>
        match k a d' with
        | (r, d'', l') => (r, d'', l ++ l')
        end
    end.

(** Reading and writing [self]. *)
Definition self : D downloader := fun d => (inr d, d, []).

Definition assign (f : downloader -> downloader) : D unit :=
  fun d => (inr tt, f d, []).

(** [yield] on a collaborator's deferred. *)
Definition yield {A} (c : call) (answer : error + A) : D A :=
  fun d => (answer, d, [c]).

(** [yield] on an inherited method, which works on [self]. *)
Definition yield_self {A} (c : call)
    (method : downloader -> (error + A) * downloader) : D A :=
  fun d => (fst (method d), snd (method d), [c]).

Declare Scope dl_scope.
Delimit Scope dl_scope with dl.
Notation "x <- m ;; k" := (dbind m (fun x => k))
  (at level 61, m at next level, right associativity) : dl_scope.
Notation "m ;;; k" := (dbind m (fun _ => k))
  (at level 61, right associativity) : dl_scope.
Local Open Scope dl_scope.

(** The status [_save_status] sends, lines 121-126. *)
Definition status_to_save (d : downloader) : string :=
  if completed d then STATUS_FINISHED
  else if stopped d then STATUS_STOPPED
  else STATUS_RUNNING.

(** [_save_status], lines 118-129. *)
Definition _save_status (c : collaborators) : D pyval :=
  assign (set_saving_status true) ;;;
  d <- self ;;
  let status := status_to_save d in
  status <- yield (call_change_lbry_file_status status)
                  (change_lbry_file_status c d status) ;;
  assign (set_saving_status false) ;;;
  dret status.

(** [restore], lines 48-69.  The [raise] of each [else] is written where the
    branch is taken; a generator that reaches its end returns [None]. *)
Definition restore (c : collaborators) : D pyval :=
  d <- self ;;
  sd_hash <- yield (call__get_sd_blob_hashes_for_stream (stream_hash d))
                   (_get_sd_blob_hashes_for_stream c (stream_hash d)) ;;
  match sd_hash with
  | [] =>
      draise (Exception ["No sd hash for stream hash %s"%string;
                         stream_hash d])
  | h :: _ =>
      assign (set_sd_hash (Some h)) ;;;
      claim_metadata <- yield (call_get_claim_metadata_for_sd_hash h)
                              (get_claim_metadata_for_sd_hash c h) ;;
      match claim_metadata with
      | None =>
          draise (Exception [("A claim doesn't exist for sd " ++ h)%string])
      | Some (u, t, n) =>
          assign (set_claim u t n) ;;;
          cid <- yield (call_get_claimid u t n) (get_claimid c u t n) ;;
          assign (set_claim_id (Some cid)) ;;;
          d <- self ;;
          status <- yield call_get_lbry_file_status
                          (get_lbry_file_status c d) ;;
          if String.eqb status STATUS_RUNNING then
            yield_self call_start (start c) ;;;
            dret PyNone
          else if String.eqb status STATUS_STOPPED then
            dret (PyBool false)
          else if String.eqb status STATUS_FINISHED then
            assign (set_completed true) ;;;
            dret (PyBool true)
          else
            draise (Exception ["Unknown status for stream %s: %s"%string;
                               stream_hash d; status])
      end
  end.

(** [stop], lines 71-78.  The local [status] is bound only under
    [change_status is True]; reading it unbound raises. *)
Definition stop (c : collaborators) (err : option error)
    (change_status : bool) : D pyval :=
  yield_self (call_EncryptedFileDownloader_stop err)
             (EncryptedFileDownloader_stop c err) ;;;
  status <- (if change_status
             then s <- _save_status c ;; dret (Some s)
             else dret None) ;;
  match status with
  | Some s => dret s
  | None => draise (UnboundLocalError "status")
  end.

(** [EncryptedFileStatusReport(name, num_completed, num_known, status)]. *)
Record EncryptedFileStatusReport : Type := mkReport {
  name : string;
  num_completed : nat;
  num_known : nat;
  running_status : string
}.

(** [b[0] for b in blobs if b[0] is not None]. *)
Fixpoint known_hashes (blobs : list (option string * Z)) : list string :=
  match blobs with
  | [] => []
  | (Some h, _) :: bs => h :: known_hashes bs
  | (None, _) :: bs => known_hashes bs
  end.

(** [status], lines 80-95. *)
Definition status (c : collaborators) : D EncryptedFileStatusReport :=
  d <- self ;;
  blobs <- yield (call_get_blobs_for_stream (stream_hash d))
                 (get_blobs_for_stream c (stream_hash d)) ;;
  let blob_hashes := known_hashes blobs in
  done <- yield (call_completed_blobs blob_hashes)
                (completed_blobs c blob_hashes) ;;
  let num_blobs_completed := length done in
  let num_blobs_known := length blob_hashes in
  d <- self ;;
  let status :=
    if completed d then "completed"%string
    else if stopped d then "stopped"%string
    else "running"%string in
  dret (mkReport (file_name d) num_blobs_completed num_blobs_known status).

(** [_start], lines 97-110. *)
Definition _start (c : collaborators) : D pyval :=
  yield_self call_EncryptedFileSaver__start (EncryptedFileSaver__start c) ;;;
  d <- self ;;
  sd_hash <- yield (call_get_sd_blob_hashes_for_stream (stream_hash d))
                   (get_sd_blob_hashes_for_stream c (stream_hash d)) ;;
  match sd_hash with
  | h :: _ =>
      assign (set_sd_hash (Some h)) ;;;
      maybe_metadata <- yield (call_get_claim_metadata_for_sd_hash h)
                              (get_claim_metadata_for_sd_hash c h) ;;
      match maybe_metadata with
      | Some (name, t, n) => assign (set_claim name t n)
      | None => dret tt
      end
  | [] => dret tt
  end ;;;
  status <- _save_status c ;;
  dret status.

(** [_get_finished_deferred_callback_value], lines 112-116. *)
Definition _get_finished_deferred_callback_value (d : downloader) : string :=
  if completed d then "Download successful" else "Download stopped".

(** Whether a saving of the status is among the calls. *)
Definition is_change_status (c : call) : bool :=
  match c with
  | call_change_lbry_file_status _ => true
  | _ => false
  end.

(** A downloader that has finished, and collaborators that answer. *)
Definition finished_download : downloader :=
  mkDownloader "stream" "file.bin" true true None None None None None false.

Definition running_download : downloader :=
  mkDownloader "stream" "file.bin" false false None None None None None false.

Definition answering (file_status : string) (change : error + pyval)
  : collaborators :=
  mkCollaborators
    (fun _ => inr ["sd0"%string; "sd1"%string])
    (fun _ => inr ["sd0"%string])
    (fun _ => inr (Some ("lbry://name"%string, "tx"%string, 1)))
    (fun _ _ _ => inr "claim"%string)
    (fun _ => inr file_status)
    (fun _ _ => change)
    (fun _ => inr [(Some "b0"%string, 0); (Some "b1"%string, 1); (None, 2)])
    (fun _ => inr ["b0"%string])
    (fun d => (inr tt, d))
    (fun _ d => (inr tt, d))
    (fun d => (inr tt, d)).

End ManagedEncryptedFileDownloader.

(** * Properties *)

(** ** The monad *)

Lemma result_bind {A B} (m : M A) (k : A -> M B) :
  result_of (bind m k) =
  match result_of m with
  | inr a => result_of (k a)
  | inl e => inl e
  end.
Proof.
  destruct m as [[e | a] l]; simpl; [reflexivity |].
  destruct (k a); reflexivity.
Qed.

Lemma log_bind {A B} (m : M A) (k : A -> M B) :
  log_of (bind m k) =
  log_of m ++ match result_of m with
              | inr a => log_of (k a)
              | inl _ => []
              end.
Proof.
  destruct m as [[e | a] l]; simpl.
  - now rewrite app_nil_r.
  - destruct (k a); reflexivity.
Qed.

Lemma bind_ok {A B} (m : M A) (k : A -> M B) a l :
  m = (inr a, l) ->
  bind m k = (result_of (k a), l ++ log_of (k a)).
Proof. intros ->. simpl. destruct (k a); reflexivity. Qed.

Lemma bind_raise {A B} (m : M A) (k : A -> M B) e l :
  m = (inl e, l) -> bind m k = (inl e, l).
Proof. intros ->. reflexivity. Qed.

Lemma M_eta {A} (m : M A) : m = (result_of m, log_of m).
Proof. destruct m; reflexivity. Qed.

Lemma with_progress_result {A} ev (m : M A) :
  result_of (with_progress ev m) = result_of m.
Proof. destruct m; reflexivity. Qed.

Lemma with_progress_log {A} ev (m : M A) :
  log_of (with_progress ev m) =
  EProgress ev PEnter :: log_of m ++ [EProgress ev PExit].
Proof. destruct m; reflexivity. Qed.

Lemma result_ret {A} (a : A) : result_of (ret a) = inr a.
Proof. reflexivity. Qed.

Lemma log_ret {A} (a : A) : log_of (ret a) = [].
Proof. reflexivity. Qed.

Lemma result_raise {A} e : result_of (@raise A e) = inl e.
Proof. reflexivity. Qed.

Lemma log_raise {A} e : log_of (@raise A e) = [].
Proof. reflexivity. Qed.

Lemma result_emit e : result_of (emit e) = inr tt.
Proof. reflexivity. Qed.

Lemma log_emit e : log_of (emit e) = [e].
Proof. reflexivity. Qed.

Lemma result_lift {A} (r : res A) : result_of (lift r) = r.
Proof. reflexivity. Qed.

Lemma log_lift {A} (r : res A) : log_of (lift r) = [].
Proof. reflexivity. Qed.

Lemma result_pair {A} (r : res A) l : result_of (r, l) = r.
Proof. reflexivity. Qed.

Lemma log_pair {A} (r : res A) l : log_of (r, l) = l.
Proof. reflexivity. Qed.

Create Rewrite HintDb co.

#[local] Hint Rewrite
  @result_bind @log_bind @with_progress_result @with_progress_log
  @result_ret @log_ret @result_raise @log_raise result_emit log_emit
  @result_lift @log_lift @result_pair @log_pair : co.

(** Evaluate a coroutine as far as the known answers of the collaborators
    allow. *)
Ltac co_eval := repeat (autorewrite with co; cbn beta iota).

Lemma result_create_task {A} t (m : M A) :
  result_of (create_task t m) = inr m.
Proof. reflexivity. Qed.

Lemma log_create_task {A} t (m : M A) :
  log_of (create_task t m) = [ECreateTask t].
Proof. reflexivity. Qed.

Lemma result_await_task {A} t (m : M A) :
  result_of (await_task t m) = result_of m.
Proof. destruct m as [[e | a] l]; reflexivity. Qed.

Lemma log_await_task {A} t (m : M A) :
  log_of (await_task t m) = [EAwaitTask t (log_of m)].
Proof. destruct m as [[e | a] l]; reflexivity. Qed.

#[local] Hint Rewrite
  @result_create_task @log_create_task @result_await_task @log_await_task
  : co.

(** ** Effects a coroutine never has *)

Section Never.
Variable f : effect -> bool.

Lemma never_ret {A} (a : A) : never f (ret a).
Proof. constructor. Qed.

Lemma never_raise {A} e : never f (@raise A e).
Proof. constructor. Qed.

Lemma never_lift {A} (r : res A) : never f (lift r).
Proof. constructor. Qed.

Lemma never_emit e : f e = false -> never f (emit e).
Proof. intros H. constructor; [exact H | constructor]. Qed.

Lemma never_bind {A B} (m : M A) (k : A -> M B) :
  never f m -> (forall a, never f (k a)) -> never f (bind m k).
Proof.
  unfold never. intros Hm Hk. rewrite log_bind.
  apply Forall_app. split; [exact Hm |].
  destruct (result_of m); [constructor | apply Hk].
Qed.

Lemma never_with_progress {A} ev (m : M A) :
  f (EProgress ev PEnter) = false ->
  f (EProgress ev PExit) = false ->
  never f m -> never f (with_progress ev m).
Proof.
  unfold never. intros H1 H2 Hm. rewrite with_progress_log.
  constructor; [exact H1 |].
  apply Forall_app. split; [exact Hm |].
  constructor; [exact H2 | constructor].
Qed.

Lemma never_for_each {A} (g : A -> M unit) xs :
  (forall x, never f (g x)) -> never f (for_each g xs).
Proof.
  intros Hg. induction xs as [| x xs IH]; simpl.
  - apply never_ret.
  - apply never_bind; [apply Hg | intros _; exact IH].
Qed.

Lemma never_map_m {A B} (g : A -> M B) xs :
  (forall x, never f (g x)) -> never f (map_m g xs).
Proof.
  intros Hg. induction xs as [| x xs IH]; simpl.
  - apply never_ret.
  - apply never_bind; [apply Hg | intros y].
    apply never_bind; [exact IH | intros ys; apply never_ret].
Qed.

Lemma never_fold_m {A S} (g : S -> A -> M S) xs s :
  (forall s x, never f (g s x)) -> never f (fold_m g xs s).
Proof.
  intros Hg. revert s. induction xs as [| x xs IH]; intros s; simpl.
  - apply never_ret.
  - apply never_bind; [apply Hg | intros s'; apply IH].
Qed.

End Never.

(** One step of a syntax-directed search for [never]. *)
Ltac never_step :=
  match goal with
  | |- never _ (ret _) => apply never_ret
  | |- never _ (raise _) => apply never_raise
  | |- never _ (lift _) => apply never_lift
  | |- never _ (emit _) => apply never_emit; reflexivity
  | |- never _ (bind _ _) => apply never_bind; [| intros]
  | |- never _ (with_progress _ _) =>
      apply never_with_progress; [reflexivity | reflexivity |]
  | |- never _ (for_each _ _) => apply never_for_each; intros
  | |- never _ (map_m _ _) => apply never_map_m; intros
  | |- never _ (fold_m _ _ _) => apply never_fold_m; intros
  | |- never _ (if ?b then _ else _) => destruct b
  | |- never _ (match ?x with _ => _ end) => destruct x
  end.

Ltac never_solve := repeat never_step.

Lemma never_future_result f fu : never f (future_result fu).
Proof. unfold future_result. never_solve. Qed.

Lemma never_block_events {A} (m : M A) :
  never is_block_event m -> block_events (log_of m) = [].
Proof.
  unfold never. induction 1 as [| e l He _ IH]; [reflexivity |].
  destruct e; simpl in *; try exact IH. discriminate.
Qed.

Lemma never_claim_phase_runs {A} (m : M A) :
  never is_claim_phase_run m -> claim_phase_runs (log_of m) = [].
Proof.
  unfold never. induction 1 as [| e l He _ IH]; [reflexivity |].
  destruct e; simpl in *; try exact IH. now rewrite He.
Qed.

Lemma never_progress_totals {A} ev (m : M A) :
  never (is_start_of ev) m -> progress_totals ev (log_of m) = [].
Proof.
  unfold never. induction 1 as [| e l He _ IH]; [reflexivity |].
  destruct e; simpl in *; try exact IH.
  destruct op; simpl in *; try exact IH. now rewrite He.
Qed.

Lemma block_events_app l1 l2 :
  block_events (l1 ++ l2) = block_events l1 ++ block_events l2.
Proof.
  induction l1 as [| e l1 IH]; [reflexivity |].
  destruct e; simpl; rewrite IH; reflexivity.
Qed.

Lemma claim_phase_runs_app l1 l2 :
  claim_phase_runs (l1 ++ l2) = claim_phase_runs l1 ++ claim_phase_runs l2.
Proof.
  induction l1 as [| e l1 IH]; [reflexivity |].
  destruct e; simpl; rewrite ?IH; try reflexivity.
  destruct (is_claim_phase c); reflexivity.
Qed.

Lemma progress_totals_app ev l1 l2 :
  progress_totals ev (l1 ++ l2) = progress_totals ev l1 ++ progress_totals ev l2.
Proof.
  induction l1 as [| e l1 IH]; [reflexivity |].
  destruct e; simpl; rewrite ?IH; try reflexivity.
  destruct op; simpl; rewrite ?IH; try reflexivity.
  destruct (progress_event_eqb ev ev0); reflexivity.
Qed.

(** ** [run_tasks] *)

Lemma never_run_tasks f w fs :
  f EStopEventSet = false ->
  (forall d p, f (EWaitReturned d p) = false) ->
  (forall c, f (ECancelFuture c) = false) ->
  never f (run_tasks w fs).
Proof.
  intros H1 H2 H3. unfold run_tasks.
  apply never_bind; [apply never_lift | intros [done pending]].
  apply never_bind; [apply never_emit, H2 | intros _].
  destruct (negb (is_empty pending)); [| apply never_ret].
  apply never_bind; [apply never_emit, H1 | intros _].
  apply never_bind.
  - apply never_for_each. intros x. apply never_emit, H3.
  - intros _. apply never_bind; [| intros; apply never_ret].
    apply never_for_each. intros x.
    apply never_bind; [apply never_future_result | intros; apply never_ret].
Qed.

Lemma never_db_run f w c : f (ERun c) = false -> never f (db_run w c).
Proof.
  intros H. unfold db_run.
  apply never_bind; [apply never_emit, H | intros; apply never_ret].
Qed.

Lemma never_await_db_run f w c : f (ERun c) = false -> never f (await_db_run w c).
Proof.
  intros H. unfold await_db_run.
  apply never_bind; [apply never_db_run, H | intros fu].
  apply never_bind; [apply never_future_result | intros; apply never_ret].
Qed.

Lemma db_run_eq w c : db_run w c = (inr (future_of w c), [ERun c]).
Proof. reflexivity. Qed.

Lemma map_m_db_run {A} w (g : A -> db_call) xs :
  map_m (fun x => db_run w (g x)) xs =
  (inr (map (fun x => future_of w (g x)) xs), map (fun x => ERun (g x)) xs).
Proof.
  induction xs as [| x xs IH]; [reflexivity |].
  simpl. rewrite IH. simpl. rewrite app_nil_r. reflexivity.
Qed.

Lemma first_exception_time_none fs :
  (forall f, In f fs -> has_exception f = false) ->
  first_exception_time fs = None.
Proof.
  induction fs as [| f fs IH]; intros H; [reflexivity |].
  simpl. rewrite IH by (intros g Hg; apply H; now right).
  rewrite (H f) by now left. reflexivity.
Qed.

(** A time [first_exception_time] reports is the completion time of a future
    of the list that raised. *)
Lemma first_exception_time_some fs t :
  first_exception_time fs = Some t ->
  exists f, In f fs /\ has_exception f = true /\ fut_when f = t.
Proof.
  revert t. induction fs as [| f fs IH]; intros t; simpl; [discriminate |].
  destruct (first_exception_time fs) as [t' |] eqn:E.
  - destruct (IH t' eq_refl) as (g & Hin & Hex & Hw).
    destruct (has_exception f) eqn:Ef; intros [= <-].
    + destruct (Nat.min_spec (fut_when f) t') as [[_ ->] | [_ ->]].
      * exists f. auto.
      * exists g. auto.
    + exists g. auto.
  - destruct (has_exception f) eqn:Ef; intros [= <-].
    exists f. auto.
Qed.

Lemma filter_all {A} (p q : A -> bool) xs :
  (forall x, q x = negb (p x)) -> filter q xs = [] -> filter p xs = xs.
Proof.
  intros Hpq. induction xs as [| x xs IH]; [reflexivity |].
  simpl. rewrite (Hpq x). destruct (p x); simpl; [| discriminate].
  intros H. now rewrite IH.
Qed.

(** [asyncio.wait] hands back every future it was given. *)
Lemma asyncio_wait_partition fs done pending :
  asyncio_wait_first_exception fs = inr (done, pending) ->
  fs <> [] /\ (pending = [] -> done = fs).
Proof.
  unfold asyncio_wait_first_exception.
  destruct fs as [| f fs]; [discriminate |].
  intros H. split; [discriminate |].
  remember (f :: fs) as l eqn:El. clear El.
  destruct (first_exception_time l) as [t |].
  - injection H as <- <-. intros Hp.
    eapply filter_all; [| exact Hp].
    intros x. apply Nat.ltb_antisym.
  - injection H as <- _. reflexivity.
Qed.

(** With nobody raising, [run_tasks] returns all its futures. *)
Lemma run_tasks_no_failure w fs :
  fs <> [] ->
  (forall f, In f fs -> has_exception f = false) ->
  run_tasks w fs = (inr (Some fs), [EWaitReturned (map fut_call fs) []]).
Proof.
  intros Hne Hok. unfold run_tasks, asyncio_wait_first_exception.
  destruct fs as [| f fs]; [contradiction |].
  rewrite (first_exception_time_none _ Hok). reflexivity.
Qed.

(** A lone future is never pending: whatever its outcome, [run_tasks] hands
    it back without reading its result. *)
Lemma run_tasks_single w f :
  run_tasks w [f] = (inr (Some [f]), [EWaitReturned [fut_call f] []]).
Proof.
  unfold run_tasks, asyncio_wait_first_exception. simpl.
  destruct (has_exception f); [| reflexivity].
  simpl. rewrite Nat.leb_refl, Nat.ltb_irrefl. reflexivity.
Qed.

Lemma run_tasks_empty w :
  run_tasks w [] =
  (inl (ValueError "Set of coroutines/Futures is empty."%string), []).
Proof. reflexivity. Qed.

Lemma for_each_results fs :
  for_each (fun f => _ <- future_result f ;; ret tt) fs =
  (match first_raise fs with Some e => inl e | None => inr tt end, []).
Proof.
  induction fs as [| f fs IH]; [reflexivity |].
  cbn [for_each first_raise]. rewrite IH. unfold future_result.
  destruct (fut_outcome f); [| reflexivity | reflexivity].
  destruct (first_raise fs); reflexivity.
Qed.

Lemma for_each_cancel fs :
  for_each (fun f => emit (ECancelFuture (fut_call f))) fs =
  (inr tt, map (fun f => ECancelFuture (fut_call f)) fs).
Proof.
  induction fs as [| f fs IH]; [reflexivity |].
  simpl. rewrite IH. reflexivity.
Qed.

Lemma first_raise_in fs f :
  In f fs -> has_exception f = true -> exists e, first_raise fs = Some e.
Proof.
  induction fs as [| g fs IH]; [contradiction |].
  intros [-> | Hin] Hex; simpl.
  - unfold has_exception in Hex.
    destruct (fut_outcome f); try discriminate. eauto.
  - destruct (fut_outcome g); eauto.
Qed.

(** What [run_tasks] does once [asyncio.wait] leaves futures pending. *)
Lemma run_tasks_pending w fs done pending :
  asyncio_wait_first_exception fs = inr (done, pending) ->
  pending <> [] ->
  exists e,
    first_raise done = Some e /\
    run_tasks w fs =
    (inl e,
     EWaitReturned (map fut_call done) (map fut_call pending)
       :: EStopEventSet
       :: map (fun f => ECancelFuture (fut_call f)) pending).
Proof.
  intros Hw Hp.
  assert (Hd : exists e, first_raise done = Some e).
  { unfold asyncio_wait_first_exception in Hw.
    destruct fs as [| f0 fs0]; [discriminate |].
    remember (f0 :: fs0) as l eqn:El. clear El.
    destruct (first_exception_time l) as [t |] eqn:Et.
    - injection Hw as <- <-.
      destruct (first_exception_time_some _ _ Et) as (f & Hin & Hex & Hwhen).
      apply (first_raise_in _ f); [| exact Hex].
      apply filter_In. split; [exact Hin |].
      rewrite Hwhen. apply Nat.leb_refl.
    - injection Hw as _ <-. contradiction. }
  destruct Hd as [e He]. exists e. split; [exact He |].
  unfold run_tasks. rewrite Hw. simpl.
  destruct pending as [| p ps]; [contradiction |].
  cbn [is_empty negb].
  rewrite for_each_cancel, for_each_results, He.
  simpl. rewrite app_nil_r. reflexivity.
Qed.

(** When [run_tasks] returns, it returns all the futures it was given, and
    did nothing but wait for them. *)
Lemma run_tasks_returns w fs r :
  result_of (run_tasks w fs) = inr r ->
  fs <> [] /\
  run_tasks w fs = (inr (Some fs), [EWaitReturned (map fut_call fs) []]).
Proof.
  intros Hr.
  destruct (asyncio_wait_first_exception fs) as [e | [done pending]] eqn:Hw.
  - unfold run_tasks in Hr. rewrite Hw in Hr. discriminate.
  - destruct (asyncio_wait_partition _ _ _ Hw) as [Hne Hall].
    split; [exact Hne |].
    destruct pending as [| p ps].
    + rewrite (Hall eq_refl) in Hw. unfold run_tasks. rewrite Hw. reflexivity.
    + destruct (run_tasks_pending w _ _ _ Hw) as (e & _ & Heq); [discriminate |].
      rewrite Heq in Hr. discriminate.
Qed.

(** ** C1 *)

(** C1 (code defect).  The specification has every exception of a task
    re-raised, also when the failing task is the last to complete.  The code
    reads the results only under [if pending:].  A task list whose only task
    fails leaves nothing pending, so [run_tasks] returns the completed set:
    it neither raises the exception nor sets the stop event.  The same
    happens with two tasks when the failing one completes last. *)
Theorem run_tasks_returns_when_last_task_fails :
  forall (w : World) (c c' : db_call) (e : exn),
    run_tasks w [mkFuture c 1 (Failed e)] =
      (inr (Some [mkFuture c 1 (Failed e)]), [EWaitReturned [c] []])
    /\ run_tasks w [mkFuture c 1 (Finished 0); mkFuture c' 2 (Failed e)] =
      (inr (Some [mkFuture c 1 (Finished 0); mkFuture c' 2 (Failed e)]),
       [EWaitReturned [c; c'] []]).
Proof.
  intros w c c' e. split.
  - apply run_tasks_single.
  - reflexivity.
Qed.

(** What the defect costs a caller that drops the value of [run_tasks]: in
    [incremental_insert_fails] the task [claims_insert] fails, and
    [sync_claims] goes on to [claims_update] and [update_stakes] and returns
    as if nothing had happened. *)
Example sync_claims_loses_insert_failure :
  result_of (sync_claims incremental_insert_fails (Some (Some 10, 14)))
    = inr (Some (false, 1))
  /\ claim_phase_runs
       (log_of (sync_claims incremental_insert_fails (Some (Some 10, 14))))
     = [claims_insert CONTENT_TYPE_CODES (Some 10, 14) true;
        claims_update CONTENT_TYPE_CODES (Some 10, 14);
        update_stakes (Some (Some 10, 14)) 1].
Proof. split; reflexivity. Qed.

(** Where futures do stay pending, [run_tasks] behaves as specified: it sets
    the stop event, cancels the pending futures and raises the first
    exception found among the completed ones. *)
Lemma run_tasks_raises_with_pending w fs done pending :
  asyncio_wait_first_exception fs = inr (done, pending) ->
  pending <> [] ->
  exists e,
    first_raise done = Some e /\
    result_of (run_tasks w fs) = inl e /\
    In EStopEventSet (log_of (run_tasks w fs)) /\
    (forall f, In f pending ->
               In (ECancelFuture (fut_call f)) (log_of (run_tasks w fs))).
Proof.
  intros Hw Hp.
  destruct (run_tasks_pending w _ _ _ Hw Hp) as (e & He & Heq).
  exists e. rewrite Heq. simpl. repeat split; auto.
  intros f Hf. right. right.
  apply in_map_iff. exists f. auto.
Qed.

(** ** C2 *)



(** [sync_blocks] has no way to return [None]: [run_tasks] either raises or
    hands back a set that is not empty. *)
Lemma sync_blocks_never_none w : result_of (sync_blocks w) <> inr None.
Proof.
  unfold sync_blocks. co_eval.
  destruct (result_of (sync_blocks_init w)) as [e | [s ending]];
    [discriminate |].
  unfold chain_db. co_eval.
  destruct (chain_get_claim_metadata_count w (starting_height s) ending);
    [discriminate |].
  co_eval.
  destruct (chain_get_support_metadata_count w (starting_height s) ending);
    [discriminate |].
  co_eval.
  destruct (result_of (run_tasks w (tasks s))) as [e | r] eqn:Er;
    [discriminate |].
  destruct (run_tasks_returns _ _ _ Er) as [Hne Heq].
  rewrite Heq in Er. injection Er as <-.
  destruct (tasks s) as [| f fs]; [contradiction |].
  co_eval.
  destruct (result_of (future_result f)); [discriminate |]. co_eval.
  destruct (result_of (map_m future_result fs)); discriminate.
Qed.

(** Were [advance] to go on without a range, it would submit nothing and
    emit no [BlockEvent] on an index that already holds claims and
    supports. *)
Lemma advance_from_none_submits_nothing w :
  db_has_claims w = inr true ->
  db_has_supports w = inr true ->
  runs_of (log_of (advance_from w None)) = []
  /\ block_events (log_of (advance_from w None)) = [].
Proof.
  intros Hc Hs.
  assert (E : log_of (advance_from w None) =
    [ECreateTask sync_filters_co; ECreateTask sync_trends_co;
     EDb has_claims;
     EProgress CLAIM_INIT_EVENT PEnter; EProgress CLAIM_INIT_EVENT PExit;
     EDb has_supports;
     EProgress SUPPORT_INIT_EVENT PEnter; EProgress SUPPORT_INIT_EVENT PExit;
     EAwaitTask sync_trends_co (log_of (sync_trends w));
     EAwaitTask sync_filters_co (log_of (sync_filters w))]).
  { unfold advance_from, sync_txios, sync_claims, sync_supports,
      sync_claims_init, sync_trends.
    co_eval. rewrite Hc. co_eval. cbn [negb]. co_eval.
    rewrite Hs. co_eval. cbn [negb]. co_eval.
    destruct (result_of (sync_filters w)); reflexivity. }
  rewrite E. split; reflexivity.
Qed.

(** On a fresh index it would not skip the claim and support phases: they
    take their initial-sync branch, whatever [blocks] is. *)
Example advance_from_none_on_fresh_index :
  runs_of (log_of (advance_from empty_chain None)) =
  [distribute_unspent_txos_q TXO_TYPES_channel None false false false;
   distribute_unspent_txos_q CONTENT_TYPE_CODES None false false false;
   distribute_unspent_txos_q TXO_TYPES_support None false false false].
Proof. reflexivity. Qed.

(** C2 (code defect).  The specification has [sync_blocks] return [None]
    without raising when no block file needs work.  On a chain without block
    files, and on one whose only file is fully indexed, the task list is
    empty and [run_tasks] passes it to [asyncio.wait], which raises
    [ValueError]; the exception leaves [sync_blocks] and [advance].  No later
    phase runs and no [BlockEvent] is emitted, but through the exception, not
    through a [None]. *)
Theorem sync_blocks_raises_on_empty_chain :
  result_of (sync_blocks empty_chain) =
    inl (ValueError "Set of coroutines/Futures is empty."%string)
  /\ result_of (sync_blocks up_to_date) =
       inl (ValueError "Set of coroutines/Futures is empty."%string)
  /\ result_of (advance empty_chain) =
       inl (ValueError "Set of coroutines/Futures is empty."%string)
  /\ log_of (advance empty_chain) = log_of (sync_blocks empty_chain)
  /\ runs_of (log_of (advance empty_chain)) = []
  /\ block_events (log_of (advance empty_chain)) = [].
Proof. repeat split. Qed.

(** ** C9 *)

Lemma await_db_run_log w c : log_of (await_db_run w c) = [ERun c].
Proof.
  unfold await_db_run. rewrite db_run_eq. co_eval.
  unfold future_result. cbn [fut_outcome future_of].
  destruct (snd (db_task w c)); reflexivity.
Qed.

Lemma await_db_run_result w c :
  result_of (await_db_run w c) =
  match snd (db_task w c) with
  | Finished _ => inr tt
  | Failed e => inl e
  | Cancelled => inl CancelledError
  end.
Proof.
  unfold await_db_run. rewrite db_run_eq. co_eval.
  unfold future_result. cbn [fut_outcome future_of].
  destruct (snd (db_task w c)); reflexivity.
Qed.

Lemma await_db_run_completes w c :
  completes w c -> await_db_run w c = (inr tt, [ERun c]).
Proof.
  intros [v Hv]. rewrite (M_eta (await_db_run w c)).
  rewrite await_db_run_log, await_db_run_result, Hv. reflexivity.
Qed.

(** C9.  [sync_txios] submits its one task, [sync_txoi], exactly when
    [blocks_added] is a range, and the flag it passes is true exactly when
    the range starts at height 0. *)
Theorem sync_txios_single_task :
  forall (w : World) (blocks_added : option height_range),
    runs_of (log_of (sync_txios w blocks_added)) =
      match blocks_added with
      | Some b => [sync_txoi (starts_at_zero b)]
      | None => []
      end
    /\ forall b : height_range, starts_at_zero b = true <-> fst b = Some 0.
Proof.
  intros w blocks_added. split.
  - destruct blocks_added as [b |]; [| reflexivity].
    unfold sync_txios. rewrite await_db_run_log. reflexivity.
  - intros [[h |] e]; unfold starts_at_zero; simpl.
    + rewrite Z.eqb_eq. split; congruence.
    + split; discriminate.
Qed.

(** ** The claim phase *)

Lemma never_sync_claims_insertions f w i ins :
  (forall c, f (ERun c) = false) ->
  f EStopEventSet = false ->
  (forall d p, f (EWaitReturned d p) = false) ->
  (forall c, f (ECancelFuture c) = false) ->
  never f (sync_claims_insertions w i ins).
Proof.
  intros H1 H2 H3 H4. unfold sync_claims_insertions. destruct ins as [ty bs].
  repeat first
    [ apply never_run_tasks; assumption
    | apply never_db_run; apply H1
    | never_step ].
Qed.

(** The one total [sync_claims_main] announces is the plan's. *)
Lemma sync_claims_main_totals w i blocks p :
  progress_totals CLAIM_MAIN_EVENT (log_of (sync_claims_main w i blocks p)) =
  [total p].
Proof.
  unfold sync_claims_main.
  rewrite with_progress_log, log_bind, log_emit.
  cbn [progress_totals app result_of emit fst progress_event_eqb].
  rewrite progress_totals_app. cbn [progress_totals app].
  rewrite app_nil_r.
  match goal with |- _ :: progress_totals _ (log_of ?m) = _ =>
    rewrite (never_progress_totals CLAIM_MAIN_EVENT m) end; [reflexivity |].
  repeat first
    [ apply never_sync_claims_insertions; [reflexivity .. | intros; reflexivity | intros; reflexivity ]
    | apply never_await_db_run; reflexivity
    | never_step ].
Qed.

(** The plan of an initial sync. *)
Lemma sync_claims_init_initial w blocks channels cb content ctb :
  db_distribute_unspent_txos w TXO_TYPES_channel None false false false
    = inr (channels, cb) ->
  db_distribute_unspent_txos w CONTENT_TYPE_CODES None false false false
    = inr (content, ctb) ->
  sync_claims_init w true blocks =
  (inr (Some (mkPlan (0 + (channels + channels) + content) cb ctb 0 0 0 channels)),
   [EProgress CLAIM_INIT_EVENT PEnter;
    EProgress CLAIM_INIT_EVENT (PStart 2);
    ERun (distribute_unspent_txos_q TXO_TYPES_channel None false false false);
    EProgress CLAIM_INIT_EVENT PStep;
    ERun (distribute_unspent_txos_q CONTENT_TYPE_CODES None false false false);
    EProgress CLAIM_INIT_EVENT PStep;
    EProgress CLAIM_INIT_EVENT PExit]).
Proof.
  intros Hch Hct. rewrite (M_eta (sync_claims_init w true blocks)).
  unfold sync_claims_init, distribute_unspent_txos.
  co_eval. rewrite Hch. co_eval. rewrite Hct. co_eval. reflexivity.
Qed.

Lemma sync_claims_unfold w blocks has :
  db_has_claims w = inr has ->
  sync_claims w blocks =
  bind (bind (inr tt, [EDb has_claims]) (fun _ => ret (negb has)))
       (fun initial_sync =>
          plan <- sync_claims_init w initial_sync blocks ;;
          match plan with
          | Some p => sync_claims_main w initial_sync blocks p
          | None => ret None
          end).
Proof. intros H. unfold sync_claims. rewrite H. reflexivity. Qed.

(** C10.  In an initial claim sync the total announced on
    [CLAIM_MAIN_EVENT] is twice the number of channels plus the number of
    content claims: the channels enter the sum once as insertions and once as
    channels with changed content. *)
Theorem initial_claims_total_counts_channels_twice :
  forall (w : World) (blocks : option height_range)
         (channels content : Z) (channel_batches content_batches : list height_range),
    db_has_claims w = inr false ->
    db_distribute_unspent_txos w TXO_TYPES_channel None false false false
      = inr (channels, channel_batches) ->
    db_distribute_unspent_txos w CONTENT_TYPE_CODES None false false false
      = inr (content, content_batches) ->
    progress_totals CLAIM_MAIN_EVENT (log_of (sync_claims w blocks))
      = [2 * channels + content].
Proof.
  intros w blocks channels content cb ctb Hhas Hch Hct.
  rewrite (sync_claims_unfold _ _ _ Hhas).
  cbn [bind ret negb app].
  rewrite (bind_ok _ _ _ _ (sync_claims_init_initial w blocks _ _ _ _ Hch Hct)).
  cbn [log_of snd].
  cbn [progress_totals app progress_event_eqb].
  rewrite sync_claims_main_totals. cbn [total].
  f_equal. lia.
Qed.

Lemma initial_claims_total_witness :
  db_has_claims cold_start = inr false
  /\ progress_totals CLAIM_MAIN_EVENT
       (log_of (sync_claims cold_start (Some (Some 0, 9)))) = [2 * 2 + 3].
Proof.
  split; [reflexivity |].
  apply (initial_claims_total_counts_channels_twice
           cold_start (Some (Some 0, 9)) 2 3
           [(Some 0, 9)] [(Some 0, 4); (Some 5, 9)]); reflexivity.
Defined.

(** ** C3 *)

(** The log of one pass of [run_tasks] over the insertions of [batches]. *)
Lemma sync_claims_insertions_initial w ty bs :
  (forall b, task_fails w (claims_insert ty b false) = false) ->
  sync_claims_insertions w true (ty, bs) =
  (inr tt,
   match bs with
   | [] => []
   | _ :: _ =>
       map (fun b => ERun (claims_insert ty b false)) bs
         ++ [EWaitReturned (map (fun b => claims_insert ty b false) bs) []]
   end).
Proof.
  intros Hok. unfold sync_claims_insertions.
  destruct bs as [| b bs]; [reflexivity |].
  cbn [is_empty negb]. rewrite map_m_db_run.
  rewrite (bind_ok _ _ _ _ eq_refl).
  rewrite run_tasks_no_failure.
  - rewrite map_map. reflexivity.
  - discriminate.
  - intros f Hf. apply in_map_iff in Hf. destruct Hf as (b' & <- & _).
    apply Hok.
Qed.

Lemma claim_phase_runs_inserts ty u bs tail :
  claim_phase_runs
    (map (fun b => ERun (claims_insert ty b u)) bs ++ tail) =
  map (fun b => claims_insert ty b u) bs ++ claim_phase_runs tail.
Proof.
  induction bs as [| b bs IH]; [reflexivity |].
  simpl. now rewrite IH.
Qed.

Lemma claim_phase_runs_insert_log ty u bs :
  claim_phase_runs (insert_log ty u bs) = map (fun b => claims_insert ty b u) bs.
Proof.
  destruct bs as [| b bs]; [reflexivity |].
  unfold insert_log. rewrite claim_phase_runs_inserts.
  cbn [claim_phase_runs]. apply app_nil_r.
Qed.

Lemma sync_claims_main_initial w blocks t cb ctb channels :
  (forall ty b, task_fails w (claims_insert ty b false) = false) ->
  sync_claims_main w true blocks (mkPlan t cb ctb 0 0 0 channels) =
  (inr (if truthy channels then Some (true, channels) else None),
   EProgress CLAIM_MAIN_EVENT PEnter
     :: EProgress CLAIM_MAIN_EVENT (PStart t)
     :: insert_log TXO_TYPES_channel false cb
     ++ insert_log CONTENT_TYPE_CODES false ctb
     ++ [EProgress CLAIM_MAIN_EVENT PExit]).
Proof.
  intros Hok.
  rewrite (M_eta (sync_claims_main _ _ _ _)). unfold sync_claims_main.
  cbn [total channel_batches content_batches delete_claims takeovers
       claims_with_changed_supports channels_with_changed_content for_each].
  change (truthy 0) with false. cbn iota.
  rewrite !sync_claims_insertions_initial by (intro; apply Hok).
  fold (insert_log TXO_TYPES_channel false cb).
  fold (insert_log CONTENT_TYPE_CODES false ctb).
  destruct (truthy channels); co_eval;
    rewrite ?app_nil_r, <- ?app_assoc; reflexivity.
Qed.

Lemma never_sync_filters f w :
  (forall op, f (EProgress FILTER_MAIN_EVENT op) = false) ->
  f EStopEventSet = false ->
  (forall d p, f (EWaitReturned d p) = false) ->
  (forall c, f (ECancelFuture c) = false) ->
  never f (sync_filters w).
Proof.
  intros H1 H2 H3 H4. unfold sync_filters.
  destruct (negb (conf_spv_address_filters w)); [apply never_ret |].
  apply never_with_progress; [apply H1 | apply H1 |].
  apply never_bind; [apply never_emit, H1 | intros _].
  apply never_bind; [now apply never_run_tasks | intros; apply never_ret].
Qed.

Lemma never_sync_txios f w b :
  (forall g, f (ERun (sync_txoi g)) = false) -> never f (sync_txios w b).
Proof.
  intros H. unfold sync_txios. destruct b; [| apply never_ret].
  apply never_await_db_run, H.
Qed.

Lemma never_sync_supports f w b :
  f (EDb has_supports) = false ->
  (forall ev op, f (EProgress ev op) = false) ->
  (forall c, is_claim_phase c = false -> f (ERun c) = false) ->
  f EStopEventSet = false ->
  (forall d p, f (EWaitReturned d p) = false) ->
  (forall c, f (ECancelFuture c) = false) ->
  never f (sync_supports w b).
Proof.
  intros H0 H1 H2 H3 H4 H5.
  unfold sync_supports, distribute_unspent_txos, count_unspent_txos,
    count_abandoned_supports.
  repeat first
    [ apply never_run_tasks; assumption
    | apply never_db_run; apply H2; reflexivity
    | apply never_await_db_run; apply H2; reflexivity
    | apply never_emit; first [exact H0 | apply H1 | apply H2; reflexivity]
    | apply never_with_progress; [apply H1 | apply H1 |]
    | never_step ].
Qed.

Lemma sync_channel_stats_log w blocks i n :
  log_of (sync_channel_stats w blocks i n) =
  if truthy n then [ERun (update_channel_stats blocks i n)] else [].
Proof.
  unfold sync_channel_stats. destruct (truthy n); [| reflexivity].
  apply await_db_run_log.
Qed.

Lemma truthy_positive n : 1 <= n -> truthy n = true.
Proof.
  intros H. unfold truthy. destruct (Z.eqb_spec n 0); [lia | reflexivity].
Qed.

(** C3.  On an initial sync ([has_claims] is false) that finds at least one
    channel and whose insertions do not fail, [sync_claims] returns
    [(True, channels)]; the only [claim_phase] tasks it submits are the
    [claims_insert] of each channel batch and of each content batch, all with
    [update_existing] false, so nothing is updated, deleted, taken over or
    restaked; and in [advance], once the TXIO and support phases have gone
    through, the next [claim_phase] task is
    [update_channel_stats(blocks, True, channels)]. *)
Theorem initial_claim_sync_inserts_and_flags_channels :
  forall (w : World) (blocks : option height_range)
         (channels content : Z) (cb ctb : list height_range),
    db_has_claims w = inr false ->
    db_distribute_unspent_txos w TXO_TYPES_channel None false false false
      = inr (channels, cb) ->
    1 <= channels ->
    db_distribute_unspent_txos w CONTENT_TYPE_CODES None false false false
      = inr (content, ctb) ->
    (forall ty b, task_fails w (claims_insert ty b false) = false) ->
    result_of (sync_claims w blocks) = inr (Some (true, channels))
    /\ claim_phase_runs (log_of (sync_claims w blocks)) =
         map (fun b => claims_insert TXO_TYPES_channel b false) cb
           ++ map (fun b => claims_insert CONTENT_TYPE_CODES b false) ctb
    /\ claim_phase_runs (log_of (advance_from w blocks)) =
         match result_of (sync_txios w blocks) with
         | inl _ => []
         | inr _ =>
             map (fun b => claims_insert TXO_TYPES_channel b false) cb
               ++ map (fun b => claims_insert CONTENT_TYPE_CODES b false) ctb
               ++ match result_of (sync_supports w blocks) with
                  | inl _ => []
                  | inr _ => [update_channel_stats blocks true channels]
                  end
         end.
Proof.
  intros w blocks channels content cb ctb Hhas Hch Hpos Hct Hok.
  assert (E : sync_claims w blocks =
    (inr (Some (true, channels)),
     EDb has_claims
       :: [EProgress CLAIM_INIT_EVENT PEnter;
           EProgress CLAIM_INIT_EVENT (PStart 2);
           ERun (distribute_unspent_txos_q TXO_TYPES_channel None false false false);
           EProgress CLAIM_INIT_EVENT PStep;
           ERun (distribute_unspent_txos_q CONTENT_TYPE_CODES None false false false);
           EProgress CLAIM_INIT_EVENT PStep;
           EProgress CLAIM_INIT_EVENT PExit]
       ++ EProgress CLAIM_MAIN_EVENT PEnter
       :: EProgress CLAIM_MAIN_EVENT (PStart (0 + (channels + channels) + content))
       :: insert_log TXO_TYPES_channel false cb
       ++ insert_log CONTENT_TYPE_CODES false ctb
       ++ [EProgress CLAIM_MAIN_EVENT PExit])).
  { rewrite (sync_claims_unfold _ _ _ Hhas). cbn [bind ret negb app].
    rewrite (bind_ok _ _ _ _ (sync_claims_init_initial w blocks _ _ _ _ Hch Hct)).
    rewrite (sync_claims_main_initial _ _ _ _ _ _ Hok).
    rewrite (truthy_positive _ Hpos). reflexivity. }
  assert (R : claim_phase_runs (log_of (sync_claims w blocks)) =
              map (fun b => claims_insert TXO_TYPES_channel b false) cb
                ++ map (fun b => claims_insert CONTENT_TYPE_CODES b false) ctb).
  { rewrite E. cbn [log_of snd app claim_phase_runs is_claim_phase].
    rewrite !claim_phase_runs_app, !claim_phase_runs_insert_log.
    cbn [claim_phase_runs]. now rewrite app_nil_r. }
  split; [now rewrite E |]. split; [exact R |].
  unfold advance_from. co_eval.
  cbn [claim_phase_runs app].
  rewrite !claim_phase_runs_app.
  rewrite (never_claim_phase_runs (sync_txios w blocks))
    by (apply never_sync_txios; reflexivity).
  cbn [app].
  destruct (result_of (sync_txios w blocks)) as [e | []]; [reflexivity |].
  rewrite !claim_phase_runs_app, R. rewrite E. co_eval.
  rewrite !claim_phase_runs_app.
  rewrite (never_claim_phase_runs (sync_supports w blocks))
    by (apply never_sync_supports; try reflexivity; intros c Hc; exact Hc).
  cbn [app].
  destruct (result_of (sync_supports w blocks)) as [e | []];
    [now rewrite <- app_assoc |].
  rewrite claim_phase_runs_app, sync_channel_stats_log.
  rewrite (truthy_positive _ Hpos). cbn [claim_phase_runs is_claim_phase app].
  rewrite <- app_assoc. do 3 f_equal.
  destruct (result_of (sync_channel_stats w blocks true channels));
    [reflexivity |].
  cbn [claim_phase_runs sync_trends result_of ret fst].
  destruct (result_of (sync_filters w)); [reflexivity |].
  destruct blocks; reflexivity.
Qed.


Lemma initial_claim_sync_witness :
  db_has_claims cold_start = inr false
  /\ 1 <= 2
  /\ result_of (sync_claims cold_start (Some (Some 0, 9))) = inr (Some (true, 2))
  /\ claim_phase_runs (log_of (advance_from cold_start (Some (Some 0, 9)))) =
       [claims_insert TXO_TYPES_channel (Some 0, 9) false;
        claims_insert CONTENT_TYPE_CODES (Some 0, 4) false;
        claims_insert CONTENT_TYPE_CODES (Some 5, 9) false;
        update_channel_stats (Some (Some 0, 9)) true 2].
Proof.
  destruct (initial_claim_sync_inserts_and_flags_channels
              cold_start (Some (Some 0, 9)) 2 3
              [(Some 0, 9)] [(Some 0, 4); (Some 5, 9)])
    as (H1 & _ & H3);
    [reflexivity | reflexivity | lia | reflexivity | intros; reflexivity |].
  split; [reflexivity |]. split; [lia |].
  split; [exact H1 | exact H3].
Defined.

(** ** C8 *)

(** The plan of an incremental sync over the range [b]. *)
Lemma sync_claims_init_incremental w b channels content delete cws cwcc tk :
  db_count_unspent_txos w TXO_TYPES_channel (Some b) false false true
    = inr channels ->
  db_count_unspent_txos w CONTENT_TYPE_CODES (Some b) false false true
    = inr content ->
  db_count_abandoned_claims w = inr delete ->
  db_count_claims_with_changed_supports w (Some b) = inr cws ->
  db_count_channels_with_changed_content w (Some b) = inr cwcc ->
  chain_get_takeover_count w (fst b) (snd b) = inr tk ->
  result_of (sync_claims_init w false (Some b)) =
    inr (Some (mkPlan (0 + channels + content + delete + cws + cwcc + tk)
                 (if truthy channels then [b] else [])
                 (if truthy content then [b] else [])
                 delete tk cws cwcc))
  /\ never is_claim_phase_run (sync_claims_init w false (Some b)).
Proof.
  intros H1 H2 H3 H4 H5 H6. split.
  - unfold sync_claims_init, count_unspent_txos, count_abandoned_claims,
      count_claims_with_changed_supports, count_channels_with_changed_content,
      count_takeovers, chain_db.
    co_eval. rewrite H1. co_eval. rewrite H2. co_eval. rewrite H3. co_eval.
    rewrite H4. co_eval. rewrite H5. co_eval. rewrite H6. co_eval.
    reflexivity.
  - unfold sync_claims_init, count_unspent_txos, count_abandoned_claims,
      count_claims_with_changed_supports, count_channels_with_changed_content,
      count_takeovers, chain_db.
    never_solve.
Qed.

(** One pass over an incremental batch: the insertion is submitted and
    waited for, with nothing left pending, before the update is submitted. *)
Lemma sync_claims_insertions_incremental w ty b :
  sync_claims_insertions w false (ty, [b]) =
  (inr tt,
   [ERun (claims_insert ty b true);
    EWaitReturned [claims_insert ty b true] [];
    ERun (claims_update ty b);
    EWaitReturned [claims_update ty b] []]).
Proof.
  unfold sync_claims_insertions. cbn [is_empty negb map_m].
  rewrite !db_run_eq.
  cbn [bind ret app]. rewrite !run_tasks_single. reflexivity.
Qed.

Lemma guarded_await w n c :
  (truthy n = true -> completes w c) ->
  (if truthy n then await_db_run w c else ret tt) =
  (inr tt, if truthy n then [ERun c] else []).
Proof.
  intros H. destruct (truthy n); [| reflexivity].
  now apply await_db_run_completes, H.
Qed.

Lemma sync_claims_main_incremental w b t channels content delete tk cws cwcc :
  (truthy delete = true -> completes w (claims_delete delete)) ->
  (truthy tk = true -> completes w (update_takeovers (Some b) tk)) ->
  (truthy cws = true -> completes w (update_stakes (Some b) cws)) ->
  sync_claims_main w false (Some b)
    (mkPlan t (if truthy channels then [b] else [])
            (if truthy content then [b] else []) delete tk cws cwcc) =
  (inr (if truthy cwcc then Some (false, cwcc) else None),
   EProgress CLAIM_MAIN_EVENT PEnter
     :: EProgress CLAIM_MAIN_EVENT (PStart t)
     :: (if truthy channels
         then [ERun (claims_insert TXO_TYPES_channel b true);
               EWaitReturned [claims_insert TXO_TYPES_channel b true] [];
               ERun (claims_update TXO_TYPES_channel b);
               EWaitReturned [claims_update TXO_TYPES_channel b] []]
         else [])
     ++ (if truthy content
         then [ERun (claims_insert CONTENT_TYPE_CODES b true);
               EWaitReturned [claims_insert CONTENT_TYPE_CODES b true] [];
               ERun (claims_update CONTENT_TYPE_CODES b);
               EWaitReturned [claims_update CONTENT_TYPE_CODES b] []]
         else [])
     ++ (if truthy delete then [ERun (claims_delete delete)] else [])
     ++ (if truthy tk then [ERun (update_takeovers (Some b) tk)] else [])
     ++ (if truthy cws then [ERun (update_stakes (Some b) cws)] else [])
     ++ [EProgress CLAIM_MAIN_EVENT PExit]).
Proof.
  intros Hd Ht Hs.
  rewrite (M_eta (sync_claims_main _ _ _ _)). unfold sync_claims_main.
  cbn [total channel_batches content_batches delete_claims takeovers
       claims_with_changed_supports channels_with_changed_content for_each].
  rewrite (guarded_await _ _ _ Hd), (guarded_await _ _ _ Ht),
    (guarded_await _ _ _ Hs).
  assert (E : forall ty n,
    sync_claims_insertions w false (ty, if truthy n then [b] else []) =
    (inr tt,
     if truthy n
     then [ERun (claims_insert ty b true);
           EWaitReturned [claims_insert ty b true] [];
           ERun (claims_update ty b);
           EWaitReturned [claims_update ty b] []]
     else [])).
  { intros ty n. destruct (truthy n);
      [apply sync_claims_insertions_incremental | reflexivity]. }
  rewrite !E.
  destruct (truthy cwcc); co_eval;
    rewrite ?app_nil_r, <- ?app_assoc; reflexivity.
Qed.

Lemma claim_phase_runs_if (b : bool) l :
  claim_phase_runs (if b then l else []) =
  if b then claim_phase_runs l else [].
Proof. destruct b; reflexivity. Qed.

(** C8.  In an incremental claim sync over the range [b] (claims are already
    indexed), the [claim_phase] tasks are submitted in this order: for the
    channel batch and then for the content batch, [claims_insert] with
    [update_existing] true and then [claims_update], the insertion having
    been waited for with nothing left pending before the update is
    submitted; then [claims_delete] exactly when the count of abandoned
    claims is nonzero; then [update_takeovers] exactly when the takeover
    count is nonzero; then [update_stakes] exactly when the count of claims
    with changed supports is nonzero. *)
Theorem incremental_claim_sync_order :
  forall (w : World) (b : height_range)
         (channels content delete cws cwcc tk : Z),
    db_has_claims w = inr true ->
    db_count_unspent_txos w TXO_TYPES_channel (Some b) false false true
      = inr channels ->
    db_count_unspent_txos w CONTENT_TYPE_CODES (Some b) false false true
      = inr content ->
    db_count_abandoned_claims w = inr delete ->
    db_count_claims_with_changed_supports w (Some b) = inr cws ->
    db_count_channels_with_changed_content w (Some b) = inr cwcc ->
    chain_get_takeover_count w (fst b) (snd b) = inr tk ->
    (truthy delete = true -> completes w (claims_delete delete)) ->
    (truthy tk = true -> completes w (update_takeovers (Some b) tk)) ->
    (truthy cws = true -> completes w (update_stakes (Some b) cws)) ->
    claim_phase_runs (log_of (sync_claims w (Some b))) =
      (if truthy channels
       then [claims_insert TXO_TYPES_channel b true;
             claims_update TXO_TYPES_channel b]
       else [])
      ++ (if truthy content
          then [claims_insert CONTENT_TYPE_CODES b true;
                claims_update CONTENT_TYPE_CODES b]
          else [])
      ++ (if truthy delete then [claims_delete delete] else [])
      ++ (if truthy tk then [update_takeovers (Some b) tk] else [])
      ++ (if truthy cws then [update_stakes (Some b) cws] else [])
    /\ (forall ty,
          sync_claims_insertions w false (ty, [b]) =
          (inr tt,
           [ERun (claims_insert ty b true);
            EWaitReturned [claims_insert ty b true] [];
            ERun (claims_update ty b);
            EWaitReturned [claims_update ty b] []])).
Proof.
  intros w b channels content delete cws cwcc tk
         Hhas H1 H2 H3 H4 H5 H6 Hd Ht Hs.
  split; [| intros ty; apply sync_claims_insertions_incremental].
  destruct (sync_claims_init_incremental w b _ _ _ _ _ _ H1 H2 H3 H4 H5 H6)
    as [Hplan Hnever].
  rewrite (sync_claims_unfold _ _ _ Hhas). co_eval. cbn [negb].
  rewrite Hplan. co_eval.
  rewrite (sync_claims_main_incremental _ _ _ _ _ _ _ _ _ Hd Ht Hs).
  co_eval.
  rewrite !claim_phase_runs_app.
  rewrite (never_claim_phase_runs _ Hnever).
  cbn [app claim_phase_runs].
  rewrite !claim_phase_runs_app, !claim_phase_runs_if.
  cbn [claim_phase_runs is_claim_phase]. rewrite app_nil_r.
  reflexivity.
Qed.

Lemma incremental_claim_sync_witness :
  db_has_claims incremental = inr true
  /\ claim_phase_runs (log_of (sync_claims incremental (Some (Some 10, 14)))) =
       [claims_insert CONTENT_TYPE_CODES (Some 10, 14) true;
        claims_update CONTENT_TYPE_CODES (Some 10, 14);
        update_stakes (Some (Some 10, 14)) 1].
Proof.
  split; [reflexivity |].
  apply (incremental_claim_sync_order incremental (Some 10, 14) 0 1 0 1 1 0);
    try reflexivity.
  - discriminate.
  - discriminate.
  - intros _. exists 0. reflexivity.
Defined.

(** ** The loop over the block files *)

(** One iteration of the loop over the block files, for a file whose
    indexed best height is [ours]: when [ours] equals the file's tip, the
    loop body only asks for that height and leaves the locals as they are;
    when [-1 < ours < tip], it asks the chain for the file again from height
    [ours + 1] on and plans [sync_block_file] on the record that comes
    back. *)
Lemma sync_blocks_file_cases :
  forall (w : World) (s : sync_blocks_locals) (chain_file : block_file)
         (ours : Z),
    db_best_block_height_for_file w (file_number chain_file) = inr ours ->
    (ours = best_height chain_file ->
     sync_blocks_file w s chain_file =
     (inr s, [ERun (get_best_block_height_for_file_q (file_number chain_file))]))
    /\ (-1 < ours < best_height chain_file ->
        forall (refetched : block_file) (rest : list block_file),
          chain_get_block_files w (Some (file_number chain_file))
                                  (Some (ours + 1))
            = inr (refetched :: rest) ->
          sync_blocks_file w s chain_file =
          (inr (mkLocals
                  (tasks s ++
                   [future_of w
                      (sync_block_file (file_number refetched) (ours + 1)
                         (txs refetched) TX_FLUSH_SIZE)])
                  (Some (Z.min match starting_height s with
                               | None => ours + 1
                               | Some h => h
                               end (ours + 1)))
                  (tx_count s + txs refetched)
                  (block_count s + blocks refetched)),
           [ERun (get_best_block_height_for_file_q (file_number chain_file));
            EChain (get_block_files (Some (file_number chain_file))
                                    (Some (ours + 1)));
            ERun (sync_block_file (file_number refetched) (ours + 1)
                    (txs refetched) TX_FLUSH_SIZE)])).
Proof.
  intros w s cf ours Hq. split.
  - intros ->. rewrite (M_eta (sync_blocks_file w s cf)).
    unfold sync_blocks_file, get_best_block_height_for_file.
    co_eval. rewrite Hq. co_eval. rewrite Z.eqb_refl. co_eval. reflexivity.
  - intros [Hlo Hhi] r rest Hre.
    rewrite (M_eta (sync_blocks_file w s cf)).
    unfold sync_blocks_file, get_best_block_height_for_file, chain_db.
    co_eval. rewrite Hq. co_eval.
    replace (ours =? best_height cf) with false
      by (symmetry; apply Z.eqb_neq; lia).
    replace (-1 <? ours) with true by (symmetry; apply Z.ltb_lt; lia).
    replace (ours <? best_height cf) with true
      by (symmetry; apply Z.ltb_lt; lia).
    cbn [andb]. co_eval. rewrite Hre. co_eval.
    rewrite db_run_eq. co_eval. reflexivity.
Qed.

(** ** C5 *)

Lemma never_chain_db f w c {A} (r : res A) :
  f (EChain c) = false -> never f (chain_db w c r).
Proof.
  intros H. unfold chain_db.
  apply never_bind; [apply never_emit, H | intros; apply never_lift].
Qed.

(** [never is_block_event], by following the code of a phase. *)
Ltac no_block_event :=
  repeat first
    [ apply never_run_tasks; [reflexivity | intros; reflexivity | intros; reflexivity]
    | apply never_chain_db; reflexivity
    | apply never_db_run; reflexivity
    | apply never_await_db_run; reflexivity
    | apply never_future_result
    | never_step
    | match goal with |- never _ (let _ := _ in _) => cbv zeta end ].

Lemma no_block_event_sync_blocks w : never is_block_event (sync_blocks w).
Proof.
  unfold sync_blocks, sync_blocks_init.
  apply never_bind.
  - apply never_with_progress; [reflexivity | reflexivity |].
    apply never_bind; [no_block_event | intros].
    apply never_bind; [no_block_event | intros].
    apply never_bind; [no_block_event | intros].
    apply never_bind; [| intros; apply never_ret].
    apply never_fold_m. intros s cf.
    unfold sync_blocks_file, get_best_block_height_for_file.
    no_block_event.
  - intros [s ending]. no_block_event.
Qed.

Lemma no_block_event_sync_claims w b : never is_block_event (sync_claims w b).
Proof.
  unfold sync_claims, sync_claims_init, sync_claims_main,
    distribute_unspent_txos, count_unspent_txos, count_abandoned_claims,
    count_claims_with_changed_supports, count_channels_with_changed_content,
    count_takeovers, chain_db.
  repeat first
    [ apply never_sync_claims_insertions;
        [reflexivity .. | intros; reflexivity | intros; reflexivity]
    | apply never_for_each; intros
    | apply never_await_db_run; reflexivity
    | never_step ].
Qed.

Lemma no_block_event_sync_channel_stats w b i n :
  never is_block_event (sync_channel_stats w b i n).
Proof. unfold sync_channel_stats. no_block_event. Qed.

(** Without a range, the rest of [advance] emits no [BlockEvent]. *)
Lemma no_block_event_advance_from_none w :
  never is_block_event (advance_from w None).
Proof.
  unfold advance_from, await_task, create_task.
  repeat first
    [ apply never_sync_txios; intros; reflexivity
    | apply no_block_event_sync_claims
    | apply never_sync_supports;
        [reflexivity | intros; reflexivity | intros; reflexivity
        | reflexivity | intros; reflexivity | intros; reflexivity]
    | apply no_block_event_sync_channel_stats
    | never_step ].
Qed.

(** [list_max h hs] is Python's [max] over [h :: hs]: one of the elements,
    and no smaller than any of them. *)
Lemma list_max_spec h hs :
  In (list_max h hs) (h :: hs)
  /\ forall x, In x (h :: hs) -> x <= list_max h hs.
Proof.
  revert h. induction hs as [| y ys IH]; intros h; cbn [list_max].
  - split; [now left |]. intros x [<- | []]. lia.
  - destruct (IH (Z.max h y)) as [Hin Hle]. split.
    + destruct Hin as [Hm | Hin]; [| right; now right].
      rewrite <- Hm.
      destruct (Z.max_spec h y) as [[_ E] | [_ E]]; rewrite E.
      * right. now left.
      * now left.
    + intros x Hx.
      pose proof (Hle (Z.max h y) (or_introl eq_refl)) as Hm.
      destruct Hx as [Hx | [Hx | Hx]]; [lia | lia |].
      apply Hle. now right.
Qed.

Lemma future_result_ok f h :
  result_of (future_result f) = inr h -> fut_outcome f = Finished h.
Proof.
  unfold future_result. destruct (fut_outcome f); simpl; congruence.
Qed.

Lemma map_m_results fs hs :
  result_of (map_m future_result fs) = inr hs ->
  map fut_outcome fs = map Finished hs.
Proof.
  revert hs. induction fs as [| f fs IH]; intros hs; cbn [map_m].
  - intros [= <-]. reflexivity.
  - co_eval.
    destruct (result_of (future_result f)) as [e | h] eqn:Ef;
      [discriminate |].
    co_eval.
    destruct (result_of (map_m future_result fs)) as [e | hs'];
      [discriminate |].
    co_eval. intros [= <-]. cbn [map].
    rewrite (future_result_ok _ _ Ef). f_equal. now apply IH.
Qed.

Lemma outcomes_finished fs vs f :
  map fut_outcome fs = map Finished vs -> In f fs ->
  exists v, fut_outcome f = Finished v /\ In v vs.
Proof.
  revert vs. induction fs as [| g fs IH]; intros vs; [contradiction |].
  destruct vs as [| v vs]; [discriminate |]. cbn [map].
  intros [= Hg Hrest] [<- | Hin].
  - exists v. split; [exact Hg | now left].
  - destruct (IH _ Hrest Hin) as (v' & Hv & Hi). exists v'. split; [exact Hv | now right].
Qed.

Lemma finished_outcome fs vs v :
  map fut_outcome fs = map Finished vs -> In v vs ->
  exists f, In f fs /\ fut_outcome f = Finished v.
Proof.
  revert vs. induction fs as [| g fs IH]; intros vs;
    destruct vs as [| v' vs]; try discriminate; [contradiction |].
  cbn [map]. intros [= Hg Hrest] [<- | Hin].
  - exists g. split; [now left | exact Hg].
  - destruct (IH _ Hrest Hin) as (f & Hf & Hv). exists f. split; [now right | exact Hv].
Qed.

(** When [sync_blocks] returns a range, every planned task has completed
    with a height, and the range ends at the greatest of them. *)
Lemma sync_blocks_returns w b :
  result_of (sync_blocks w) = inr (Some b) ->
  exists s ending h hs,
    result_of (sync_blocks_init w) = inr (s, ending)
    /\ map fut_outcome (tasks s) = map Finished (h :: hs)
    /\ b = (starting_height s, list_max h hs).
Proof.
  unfold sync_blocks. co_eval.
  destruct (result_of (sync_blocks_init w)) as [e | [s ending]];
    [discriminate |].
  unfold chain_db. co_eval.
  destruct (chain_get_claim_metadata_count w (starting_height s) ending);
    [discriminate |].
  co_eval.
  destruct (chain_get_support_metadata_count w (starting_height s) ending);
    [discriminate |].
  co_eval.
  destruct (result_of (run_tasks w (tasks s))) as [e | r] eqn:Er;
    [discriminate |].
  destruct (run_tasks_returns _ _ _ Er) as [Hne Heq].
  rewrite Heq in Er. injection Er as <-.
  destruct (tasks s) as [| f fs] eqn:Et; [contradiction |].
  co_eval.
  destruct (result_of (future_result f)) as [e | h] eqn:Ef; [discriminate |].
  co_eval.
  destruct (result_of (map_m future_result fs)) as [e | hs] eqn:Ehs;
    [discriminate |].
  co_eval. intros [= <-].
  exists s, ending, h, hs. split; [reflexivity |]. split; [| reflexivity].
  rewrite Et. cbn [map]. rewrite (future_result_ok _ _ Ef). f_equal.
  now apply map_m_results.
Qed.

(** The log of the rest of [advance] when it runs to its end. *)
Lemma advance_from_complete w b :
  result_of (advance_from w (Some b)) = inr tt ->
  log_of (advance_from w (Some b)) =
    [ECreateTask sync_filters_co; ECreateTask sync_trends_co]
      ++ log_of (sync_txios w (Some b))
      ++ log_of (sync_claims w (Some b))
      ++ log_of (sync_supports w (Some b))
      ++ channel_stats_log w (Some b)
      ++ [EAwaitTask sync_trends_co (log_of (sync_trends w));
          EAwaitTask sync_filters_co (log_of (sync_filters w));
          EBlockEvent (snd b)].
Proof.
  unfold advance_from, channel_stats_log. co_eval.
  destruct (result_of (sync_txios w (Some b))) as [e | []];
    co_eval; [discriminate |].
  destruct (result_of (sync_claims w (Some b))) as [e | cs];
    co_eval; [discriminate |].
  destruct (result_of (sync_supports w (Some b))) as [e | []];
    co_eval; [discriminate |].
  cbn [sync_trends result_of log_of ret fst snd].
  destruct cs as [[i n] |]; co_eval.
  - destruct (result_of (sync_channel_stats w (Some b) i n)) as [e | []];
      co_eval; [discriminate |].
    destruct (result_of (sync_filters w)) as [e | []];
      co_eval; [discriminate |].
    intros _. reflexivity.
  - destruct (result_of (sync_filters w)) as [e | []];
      co_eval; [discriminate |].
    intros _. reflexivity.
Qed.

Lemma advance_log w :
  log_of (advance w) =
  log_of (sync_blocks w)
    ++ match result_of (sync_blocks w) with
       | inr blocks_added => log_of (advance_from w blocks_added)
       | inl _ => []
       end.
Proof. unfold advance. now rewrite log_bind. Qed.

Lemma advance_result w :
  result_of (advance w) =
  match result_of (sync_blocks w) with
  | inr blocks_added => result_of (advance_from w blocks_added)
  | inl e => inl e
  end.
Proof. unfold advance. now rewrite result_bind. Qed.

Lemma no_block_event_channel_stats_log w b :
  block_events (channel_stats_log w b) = [].
Proof.
  unfold channel_stats_log.
  destruct (result_of (sync_claims w b)) as [e | [[i n] |]]; try reflexivity.
  apply never_block_events, no_block_event_sync_channel_stats.
Qed.

(** A cycle that raises, in whatever phase, emits no [BlockEvent]. *)
Lemma no_block_event_when_advance_raises w e :
  result_of (advance w) = inl e -> block_events (log_of (advance w)) = [].
Proof.
  intros Hadv. rewrite advance_log, block_events_app.
  rewrite (never_block_events _ (no_block_event_sync_blocks w)).
  rewrite advance_result in Hadv.
  destruct (result_of (sync_blocks w)) as [e' | [b |]]; [reflexivity | |].
  - revert Hadv. unfold advance_from. co_eval.
    cbn [block_events app]. rewrite !block_events_app.
    rewrite (never_block_events (sync_txios w (Some b)))
      by (apply never_sync_txios; intros; reflexivity).
    cbn [app].
    destruct (result_of (sync_txios w (Some b))) as [e1 | []];
      co_eval; [reflexivity |].
    rewrite !block_events_app.
    rewrite (never_block_events _ (no_block_event_sync_claims w (Some b))).
    destruct (result_of (sync_claims w (Some b))) as [e2 | cs];
      co_eval; [reflexivity |].
    rewrite !block_events_app.
    rewrite (never_block_events (sync_supports w (Some b)))
      by (apply never_sync_supports; intros; reflexivity).
    destruct (result_of (sync_supports w (Some b))) as [e3 | []];
      co_eval; [reflexivity |].
    rewrite !block_events_app.
    assert (N : forall cs',
      block_events
        (log_of match cs' with
                | Some (i, n) => sync_channel_stats w (Some b) i n
                | None => ret tt
                end) = []).
    { intros [[i n] |]; [| reflexivity].
      apply never_block_events, no_block_event_sync_channel_stats. }
    rewrite N. cbn [app sync_trends result_of ret fst].
    destruct (result_of match cs with
                        | Some (i, n) => sync_channel_stats w (Some b) i n
                        | None => ret tt
                        end) as [e4 | []]; co_eval; [reflexivity |].
    destruct (result_of (sync_filters w)) as [e5 | []];
      [reflexivity | discriminate].
  - intros. apply never_block_events, no_block_event_advance_from_none.
Qed.

(** C5.  Take a cycle in which [sync_blocks] added the range [b] and which
    runs to its end.  Its log is that of the block phase, the creation of the
    filter and trend tasks, the TXIO, claim and support phases, the channel
    statistics, the two awaits on the detached tasks, and last of all one
    [BlockEvent], whose height is the end of [b]; no other [BlockEvent]
    occurs.  That height is the greatest height returned by the block file
    tasks: every task has returned a height, none greater, and one of them
    has returned it.  A cycle in which [sync_blocks] added no range emits no
    [BlockEvent], and neither does a cycle that raises, blocks added or
    not. *)
Theorem block_event_closes_the_cycle :
  forall w : World,
    (forall b : height_range,
       result_of (sync_blocks w) = inr (Some b) ->
       result_of (advance w) = inr tt ->
       log_of (advance w) =
         log_of (sync_blocks w)
           ++ [ECreateTask sync_filters_co; ECreateTask sync_trends_co]
           ++ log_of (sync_txios w (Some b))
           ++ log_of (sync_claims w (Some b))
           ++ log_of (sync_supports w (Some b))
           ++ match result_of (sync_claims w (Some b)) with
              | inr (Some (initial_sync, n)) =>
                  log_of (sync_channel_stats w (Some b) initial_sync n)
              | _ => []
              end
           ++ [EAwaitTask sync_trends_co (log_of (sync_trends w));
               EAwaitTask sync_filters_co (log_of (sync_filters w));
               EBlockEvent (snd b)]
       /\ block_events (log_of (advance w)) = [snd b]
       /\ exists s ending,
            result_of (sync_blocks_init w) = inr (s, ending)
            /\ tasks s <> []
            /\ (forall f, In f (tasks s) ->
                  exists v, fut_outcome f = Finished v /\ v <= snd b)
            /\ (exists f, In f (tasks s) /\ fut_outcome f = Finished (snd b)))
    /\ ((forall b : height_range, result_of (sync_blocks w) <> inr (Some b)) ->
        block_events (log_of (advance w)) = [])
    /\ (forall e : exn,
          result_of (advance w) = inl e ->
          block_events (log_of (advance w)) = []).
Proof.
  intros w. split; [| split].
  - intros b Hsb Hadv.
    rewrite advance_result, Hsb in Hadv.
    assert (L : log_of (advance w) =
                log_of (sync_blocks w) ++ log_of (advance_from w (Some b)))
      by (now rewrite advance_log, Hsb).
    rewrite (advance_from_complete _ _ Hadv) in L.
    split; [exact L |]. split.
    + rewrite L. rewrite !block_events_app.
      rewrite (never_block_events _ (no_block_event_sync_blocks w)).
      rewrite (never_block_events (sync_txios w (Some b)))
        by (apply never_sync_txios; intros; reflexivity).
      rewrite (never_block_events _ (no_block_event_sync_claims w (Some b))).
      rewrite (never_block_events (sync_supports w (Some b)))
        by (apply never_sync_supports; intros; reflexivity).
      rewrite no_block_event_channel_stats_log. reflexivity.
    + destruct (sync_blocks_returns _ _ Hsb)
        as (s & ending & h & hs & H1 & H2 & ->).
      destruct (list_max_spec h hs) as [Hin Hle].
      exists s, ending. split; [exact H1 |]. split.
      { intros E. rewrite E in H2. discriminate. }
      split.
      * intros f Hf.
        destruct (outcomes_finished _ _ _ H2 Hf) as (v & Hv & Hvin).
        exists v. split; [exact Hv | now apply Hle].
      * exact (finished_outcome _ _ _ H2 Hin).
  - intros Hno. rewrite advance_log, block_events_app.
    rewrite (never_block_events _ (no_block_event_sync_blocks w)).
    destruct (result_of (sync_blocks w)) as [e | [b |]]; [reflexivity | |].
    + now destruct (Hno b).
    + apply never_block_events, no_block_event_advance_from_none.
  - intros e. apply no_block_event_when_advance_raises.
Qed.

Lemma block_event_closes_the_cycle_witness :
  result_of (sync_blocks three_block_files) = inr (Some (Some 0, 29))
  /\ result_of (advance three_block_files) = inr tt
  /\ map fut_outcome
       [future_of three_block_files (sync_block_file 0 0 12 20000);
        future_of three_block_files (sync_block_file 1 0 12 20000);
        future_of three_block_files (sync_block_file 2 0 12 20000)]
     = [Finished 9; Finished 29; Finished 19]
  /\ block_events (log_of (advance three_block_files)) = [29]
  /\ block_events (log_of (advance empty_chain)) = []
  /\ block_events (log_of (advance cold_start_txio_fails)) = [].
Proof.
  split; [reflexivity |]. split; [reflexivity |]. split; [reflexivity |].
  split; [| split].
  - apply (proj1 (block_event_closes_the_cycle three_block_files)
             (Some 0, 29)); reflexivity.
  - apply (proj1 (proj2 (block_event_closes_the_cycle empty_chain))).
    intros b. discriminate.
  - apply (proj2 (proj2 (block_event_closes_the_cycle cold_start_txio_fails))
             (Raised 2)).
    reflexivity.
Defined.

(** ** The advance loop *)

Lemma runs_of_app l1 l2 : runs_of (l1 ++ l2) = runs_of l1 ++ runs_of l2.
Proof.
  induction l1 as [| e l1 IH]; [reflexivity |].
  destruct e; simpl; rewrite IH; reflexivity.
Qed.

(** Once the loop task is over, no input starts a cycle or submits a task. *)
Lemma ended_input s i :
  ended s ->
  pc (advance_loop_step s i) = pc s
  /\ cycles (advance_loop_step s i) = cycles s
  /\ runs_of (trace (advance_loop_step s i)) = runs_of (trace s).
Proof.
  intros H. unfold advance_loop_step.
  destruct s as [ev sub stp cr p n tr]. unfold ended in H. simpl in *.
  destruct H as [-> | ->]; destruct i; simpl; auto;
    try (destruct sub as [[|] |]; simpl; auto);
    rewrite runs_of_app; simpl; now rewrite app_nil_r.
Qed.

Lemma ended_run s ins :
  ended s ->
  pc (advance_loop s ins) = pc s
  /\ cycles (advance_loop s ins) = cycles s
  /\ runs_of (trace (advance_loop s ins)) = runs_of (trace s).
Proof.
  revert s. induction ins as [| i ins IH]; intros s H; [now auto |].
  simpl. destruct (ended_input s i H) as (Hp & Hc & Hr).
  assert (H' : ended (advance_loop_step s i)) by (unfold ended; now rewrite Hp).
  destruct (IH _ H') as (Hp' & Hc' & Hr').
  rewrite Hp', Hc', Hr'. auto.
Qed.

(** Notifications that arrive during a cycle only set the event. *)
Lemma on_blocks_during_cycle s k :
  pc s = Running ->
  on_block_subscription s = Some true ->
  advance_loop s (repeat OnBlock (S k)) = event_set s.
Proof.
  intros Hp Hs. revert s Hp Hs.
  induction k as [| k IH]; intros s Hp Hs.
  - simpl. unfold advance_loop_step. now rewrite Hp, Hs.
  - change (repeat OnBlock (S (S k))) with (OnBlock :: repeat OnBlock (S k)).
    cbn [advance_loop fold_left].
    assert (E : advance_loop_step s OnBlock = event_set s)
      by (unfold advance_loop_step; now rewrite Hp, Hs).
    rewrite E. fold (advance_loop (event_set s) (repeat OnBlock (S k))).
    rewrite IH by assumption. reflexivity.
Qed.

(** After [start], the first notification begins the first cycle of the
    loop. *)
Lemma start_then_notification w s :
  start w = inr s ->
  pc s = Waiting
  /\ pc (advance_loop_step s OnBlock) = Running
  /\ cycles (advance_loop_step s OnBlock) = 1%nat
  /\ trace (advance_loop_step s OnBlock) = log_of (advance w) ++ [EEventClear].
Proof.
  unfold start. destruct (result_of (advance w)); [discriminate |].
  intros [= <-]. repeat split.
Qed.

(** ** C4 *)

(** C4.  While a cycle is running with the listener in place, any number
    [K >= 1] of block notifications followed by the normal end of the cycle
    leads to one [clear()] and one further cycle: the loop is inside
    [advance()] again, the event is clear, and the cycle count has grown by
    one.  When that cycle ends normally with no new notification, the loop
    suspends in [wait()]: the count stays at one more, and the trace shows
    the single [clear()] between the two cycles. *)
Theorem notifications_during_cycle_coalesce :
  forall (K : nat) (s : loop_state) (w w' : World),
    (1 <= K)%nat ->
    pc s = Running ->
    on_block_subscription s = Some true ->
    cancel_requested s = false ->
    result_of (advance w) = inr tt ->
    result_of (advance w') = inr tt ->
    let s1 := advance_loop s (repeat OnBlock K ++ [AdvanceCompletes w]) in
    let s2 := advance_loop_step s1 (AdvanceCompletes w') in
    (pc s1 = Running
     /\ cycles s1 = S (cycles s)
     /\ advance_loop_event s1 = false
     /\ trace s1 = trace s ++ log_of (advance w) ++ [EEventClear])
    /\ (pc s2 = Waiting
        /\ cycles s2 = S (cycles s)
        /\ trace s2 =
             trace s ++ log_of (advance w) ++ [EEventClear]
               ++ log_of (advance w')).
Proof.
  intros K s w w' HK Hp Hs Hc Hw Hw' s1 s2.
  destruct K as [| k]; [lia |].
  assert (E1 : s1 =
    mkLoop false (Some true)
           (stop_event s || sets_stop_event (log_of (advance w)))
           false Running (S (cycles s))
           (trace s ++ log_of (advance w) ++ [EEventClear])).
  { unfold s1, advance_loop. rewrite fold_left_app.
    fold (advance_loop s (repeat OnBlock (S k))).
    rewrite on_blocks_during_cycle by assumption.
    destruct s as [ev sub stp cr p n tr]. simpl in *. subst.
    unfold advance_loop_step, after_advance. simpl. rewrite Hw. simpl.
    unfold loop_top. simpl. now rewrite <- app_assoc. }
  split.
  - rewrite E1. simpl. auto.
  - unfold s2. rewrite E1.
    unfold advance_loop_step, after_advance. simpl. rewrite Hw'. simpl.
    repeat split. now rewrite <- !app_assoc.
Qed.

Lemma notifications_during_cycle_witness :
  (1 <= 2)%nat
  /\ result_of (advance incremental) = inr tt
  /\ cycles (advance_loop (in_cycle 0 [])
               [OnBlock; OnBlock; AdvanceCompletes incremental]) = 1%nat
  /\ pc (advance_loop (in_cycle 0 [])
           [OnBlock; OnBlock; AdvanceCompletes incremental;
            AdvanceCompletes incremental]) = Waiting.
Proof.
  split; [lia |]. split; [reflexivity |].
  destruct (notifications_during_cycle_coalesce
              2 (in_cycle 0 []) incremental incremental)
    as [(_ & H1 & _) (H2 & _)]; try reflexivity; [lia |].
  split; [exact H1 | exact H2].
Defined.

(** ** C6 *)

Lemma sets_stop_event_In l :
  sets_stop_event l = true <-> In EStopEventSet l.
Proof.
  unfold sets_stop_event. rewrite existsb_exists. split.
  - intros (x & Hx & Hs). destruct x; try discriminate. exact Hx.
  - intros H. exists EStopEventSet. auto.
Qed.

(** C6.  Let the running [advance()] raise [e].  If [e] is a cancellation,
    the loop returns: nothing is logged after the cycle, [stop()] is not
    called, the listener stays as it is, and the stop event is set only if
    it was before or if [run_tasks] set it during the cycle.  Otherwise the
    exception is logged and [stop()] runs: it unsubscribes from the chain,
    cancels the listener if there is one, sets the stop event and cancels
    the loop task; back at the top of the loop that cancellation ends the
    task, in [wait()] when the event is clear, or at the first suspension
    point of an [advance()] entered because the event was set, which is the
    first chain call of [sync_blocks].  In both cases the loop task is over:
    whatever arrives later, no further cycle runs and no further task is
    submitted. *)
Theorem advance_loop_ends_on_exception :
  forall (s : loop_state) (w : World) (e : exn),
    pc s = Running ->
    result_of (advance w) = inl e ->
    let s' := advance_loop_step s (AdvanceCompletes w) in
    ended s'
    /\ (forall ins : list input,
          ended (advance_loop s' ins)
          /\ cycles (advance_loop s' ins) = cycles s
          /\ runs_of (trace (advance_loop s' ins)) =
             runs_of (trace s ++ log_of (advance w)))
    /\ (e = CancelledError ->
        pc s' = Returned
        /\ trace s' = trace s ++ log_of (advance w)
        /\ on_block_subscription s' = on_block_subscription s
        /\ (stop_event s' = true <->
            stop_event s = true \/ In EStopEventSet (log_of (advance w))))
    /\ (e <> CancelledError ->
        stop_event s' = true
        /\ on_block_subscription s' <> Some true
        /\ trace s' =
             trace s ++ log_of (advance w)
               ++ [ELogException e; EChainUnsubscribe]
               ++ (match on_block_subscription s with
                   | Some _ => [ESubscriptionCancel]
                   | None => []
                   end)
               ++ [EStopEventSet; ECancelLoopTask]
               ++ (if advance_loop_event s
                   then [EEventClear;
                         EProgress BLOCK_INIT_EVENT PEnter;
                         EChain get_best_height;
                         EProgress BLOCK_INIT_EVENT PExit]
                   else [])).
Proof.
  intros s w e Hp Hw s'.
  assert (Hs' : ended s'
                /\ cycles s' = cycles s
                /\ runs_of (trace s') = runs_of (trace s ++ log_of (advance w))).
  { unfold s', advance_loop_step. rewrite Hp. unfold after_advance. rewrite Hw.
    destruct s as [ev sub stp cr p n tr]. cbn [pc] in Hp. subst p.
    unfold ended.
    destruct e; cbn -[advance sets_stop_event];
      try (split; [now left | split; reflexivity]);
      destruct ev; cbn -[advance sets_stop_event];
      (split; [auto |]); (split; [reflexivity |]);
      rewrite !runs_of_app; cbn;
      destruct sub; cbn; now rewrite ?app_nil_r. }
  destruct Hs' as (He & Hc & Hr).
  split; [exact He |]. split.
  { intros ins. destruct (ended_run s' ins He) as (Hp' & Hc' & Hr').
    split; [unfold ended; now rewrite Hp' |].
    split; congruence. }
  split.
  - intros ->. unfold s', advance_loop_step. rewrite Hp.
    unfold after_advance. rewrite Hw.
    cbn -[advance sets_stop_event].
    split; [reflexivity |]. split; [reflexivity |]. split; [reflexivity |].
    rewrite orb_true_iff, sets_stop_event_In. reflexivity.
  - intros Hne. unfold s', advance_loop_step. rewrite Hp.
    unfold after_advance. rewrite Hw.
    destruct s as [ev sub stp cr p n tr]. cbn [pc] in Hp. subst p.
    destruct e; [now destruct Hne | | |];
      destruct ev; cbn -[advance sets_stop_event];
      (split; [reflexivity |]);
      (split; [destruct sub; discriminate |]);
      destruct sub; cbn [app]; rewrite <- ?app_assoc; reflexivity.
Qed.

Lemma advance_loop_ends_on_exception_witness :
  result_of (advance cold_start_txio_fails) = inl (Raised 2)
  /\ stop_event (advance_loop (in_cycle 1 [])
                   [OnBlock; AdvanceCompletes cold_start_txio_fails]) = true
  /\ pc (advance_loop (in_cycle 1 [])
           [OnBlock; AdvanceCompletes cold_start_txio_fails; OnBlock;
            AdvanceCompletes cold_start]) = Returned
  /\ cycles (advance_loop (in_cycle 1 [])
               [OnBlock; AdvanceCompletes cold_start_txio_fails; OnBlock;
                AdvanceCompletes cold_start]) = 1%nat
  /\ result_of (advance cancelled_block_file) = inl CancelledError
  /\ stop_event (in_cycle 1 []) = false
  /\ stop_event (advance_loop_step (in_cycle 1 [])
                   (AdvanceCompletes cancelled_block_file)) = true
  /\ trace (advance_loop_step (in_cycle 1 [])
              (AdvanceCompletes cancelled_block_file))
     = log_of (advance cancelled_block_file).
Proof.
  split; [reflexivity |].
  assert (Hp : pc (event_set (in_cycle 1 [])) = Running) by reflexivity.
  destruct (advance_loop_ends_on_exception
              (event_set (in_cycle 1 [])) cold_start_txio_fails (Raised 2)
              Hp eq_refl)
    as (He & Hall & _ & Hexc).
  destruct (Hexc ltac:(discriminate)) as (Hstop & _).
  destruct (Hall [OnBlock; AdvanceCompletes cold_start]) as (He' & Hc & _).
  split; [exact Hstop |]. split.
  { destruct He' as [H | H]; [exact H |].
    exfalso. revert H. vm_compute. discriminate. }
  split; [exact Hc |].
  split; [reflexivity |]. split; [reflexivity |].
  destruct (advance_loop_ends_on_exception
              (in_cycle 1 []) cancelled_block_file CancelledError
              eq_refl eq_refl)
    as (_ & _ & Hcan & _).
  destruct (Hcan eq_refl) as (_ & Ht & _ & Hse).
  split; [| exact Ht].
  apply Hse. right. vm_compute. auto 20.
Defined.

(** * Further properties *)

(** ** [run_tasks] *)

(** X1.  When [run_tasks] returns instead of raising, the list was not empty,
    the value is the whole list of futures (never [None]: the bare [return]
    under [if pending:] is not reached), and it has neither set the stop
    event nor cancelled anything. *)
Theorem run_tasks_returns_every_future :
  forall (w : World) (fs : list future) (r : option (list future)),
    result_of (run_tasks w fs) = inr r ->
    r = Some fs
    /\ fs <> []
    /\ log_of (run_tasks w fs) = [EWaitReturned (map fut_call fs) []].
Proof.
  intros w fs r Hr.
  destruct (run_tasks_returns _ _ _ Hr) as [Hne Heq].
  rewrite Heq in Hr |- *. cbn [result_of log_of fst snd] in *.
  injection Hr as <-. auto.
Qed.

Lemma run_tasks_returns_every_future_witness :
  result_of (run_tasks cold_start
               [future_of cold_start (claims_delete 1);
                future_of cold_start (claims_delete 2)])
    = inr (Some [future_of cold_start (claims_delete 1);
                 future_of cold_start (claims_delete 2)])
  /\ log_of (run_tasks cold_start
               [future_of cold_start (claims_delete 1);
                future_of cold_start (claims_delete 2)])
     = [EWaitReturned [claims_delete 1; claims_delete 2] []].
Proof.
  split; [reflexivity |].
  apply (run_tasks_returns_every_future cold_start
           [future_of cold_start (claims_delete 1);
            future_of cold_start (claims_delete 2)]
           (Some [future_of cold_start (claims_delete 1);
                  future_of cold_start (claims_delete 2)])).
  reflexivity.
Defined.

Lemma first_exception_time_le fs f :
  In f fs -> has_exception f = true ->
  exists t, first_exception_time fs = Some t /\ (t <= fut_when f)%nat.
Proof.
  induction fs as [| g fs IH]; [contradiction |].
  intros [-> | Hin] Hex; cbn [first_exception_time].
  - rewrite Hex. destruct (first_exception_time fs) as [t |].
    + eexists. split; [reflexivity |]. apply Nat.le_min_l.
    + eexists. split; [reflexivity |]. apply Nat.le_refl.
  - destruct (IH Hin Hex) as (t & -> & Hle).
    destruct (has_exception g).
    + eexists. split; [reflexivity |].
      etransitivity; [apply Nat.le_min_r | exact Hle].
    + eauto.
Qed.

Lemma run_tasks_raises_when_one_fails w fs f g :
  In f fs -> has_exception f = true ->
  In g fs -> (fut_when f < fut_when g)%nat ->
  exists e,
    result_of (run_tasks w fs) = inl e
    /\ In EStopEventSet (log_of (run_tasks w fs))
    /\ In (ECancelFuture (fut_call g)) (log_of (run_tasks w fs)).
Proof.
  intros Hf Hex Hg Hlt.
  destruct (first_exception_time_le _ _ Hf Hex) as (t & Ht & Hle).
  assert (Hw : asyncio_wait_first_exception fs =
               inr (filter (fun f => Nat.leb (fut_when f) t) fs,
                    filter (fun f => Nat.ltb t (fut_when f)) fs)).
  { unfold asyncio_wait_first_exception.
    destruct fs as [| x xs]; [contradiction |]. now rewrite Ht. }
  assert (Hpend : In g (filter (fun f => Nat.ltb t (fut_when f)) fs)).
  { apply filter_In. split; [exact Hg |]. apply Nat.ltb_lt. lia. }
  destruct (run_tasks_raises_with_pending w _ _ _ Hw) as (e & He & Hr & Hs & Hc).
  { intros E. rewrite E in Hpend. contradiction. }
  exists e. split; [exact Hr |]. split; [exact Hs |]. now apply Hc.
Qed.

Lemma first_raise_source fs e :
  first_raise fs = Some e ->
  exists h,
    In h fs
    /\ (fut_outcome h = Failed e
        \/ (fut_outcome h = Cancelled /\ e = CancelledError)).
Proof.
  induction fs as [| g fs IH]; [discriminate |]. cbn [first_raise].
  destruct (fut_outcome g) eqn:Eg.
  - intros H. destruct (IH H) as (h & Hin & Hh). exists h. split; auto.
    now right.
  - intros [= <-]. exists g. split; [now left | now left].
  - intros [= <-]. exists g. split; [now left | right; auto].
Qed.

(** X2.  When a task fails while another task is still running, [run_tasks]
    sets the stop event, cancels the task that is still running, and raises.
    The exception is that of a task that had completed by then, failed or
    cancelled.  Which one it is, when there are several, depends on the order
    in which the set of completed tasks is iterated; the statement holds for
    every order of the tasks. *)
Theorem run_tasks_cancels_and_raises :
  forall (w : World) (fs order : list future) (f g : future),
    Permutation fs order ->
    In f fs -> has_exception f = true ->
    In g fs -> (fut_when f < fut_when g)%nat ->
    exists (e : exn) (h : future),
      result_of (run_tasks w order) = inl e
      /\ In h fs
      /\ (fut_when h <= fut_when f)%nat
      /\ (fut_outcome h = Failed e
          \/ (fut_outcome h = Cancelled /\ e = CancelledError))
      /\ In EStopEventSet (log_of (run_tasks w order))
      /\ In (ECancelFuture (fut_call g)) (log_of (run_tasks w order)).
Proof.
  intros w fs order f g Hperm Hf0 Hex Hg0 Hlt.
  assert (Hf : In f order) by (eapply Permutation_in; eauto).
  assert (Hg : In g order) by (eapply Permutation_in; eauto).
  destruct (first_exception_time_le _ _ Hf Hex) as (t & Ht & Hle).
  assert (Hw : asyncio_wait_first_exception order =
               inr (filter (fun f => Nat.leb (fut_when f) t) order,
                    filter (fun f => Nat.ltb t (fut_when f)) order)).
  { unfold asyncio_wait_first_exception.
    destruct order as [| x xs]; [contradiction |]. now rewrite Ht. }
  assert (Hpend : In g (filter (fun f => Nat.ltb t (fut_when f)) order)).
  { apply filter_In. split; [exact Hg |]. apply Nat.ltb_lt. lia. }
  destruct (run_tasks_raises_with_pending w _ _ _ Hw) as (e & He & Hr & Hs & Hc).
  { intros E. rewrite E in Hpend. contradiction. }
  destruct (first_raise_source _ _ He) as (h & Hh & Ho).
  apply filter_In in Hh. destruct Hh as [Hin Hwhen].
  apply Nat.leb_le in Hwhen.
  exists e, h. split; [exact Hr |].
  split; [eapply Permutation_in; [apply Permutation_sym; eauto | exact Hin] |].
  split; [lia |]. split; [exact Ho |]. split; [exact Hs |].
  now apply Hc.
Qed.

Lemma run_tasks_cancels_and_raises_witness :
  result_of (run_tasks cold_start
               [mkFuture (claims_delete 1) 1 (Failed (Raised 7));
                mkFuture (claims_delete 2) 1 (Failed (Raised 8));
                mkFuture (claims_delete 3) 2 (Finished 0)])
    = inl (Raised 7)
  /\ result_of (run_tasks cold_start
                  [mkFuture (claims_delete 2) 1 (Failed (Raised 8));
                   mkFuture (claims_delete 1) 1 (Failed (Raised 7));
                   mkFuture (claims_delete 3) 2 (Finished 0)])
     = inl (Raised 8)
  /\ In (ECancelFuture (claims_delete 3))
        (log_of (run_tasks cold_start
                   [mkFuture (claims_delete 2) 1 (Failed (Raised 8));
                    mkFuture (claims_delete 1) 1 (Failed (Raised 7));
                    mkFuture (claims_delete 3) 2 (Finished 0)])).
Proof.
  split; [reflexivity |]. split; [reflexivity |].
  destruct (run_tasks_cancels_and_raises cold_start
              [mkFuture (claims_delete 1) 1 (Failed (Raised 7));
               mkFuture (claims_delete 2) 1 (Failed (Raised 8));
               mkFuture (claims_delete 3) 2 (Finished 0)]
              [mkFuture (claims_delete 2) 1 (Failed (Raised 8));
               mkFuture (claims_delete 1) 1 (Failed (Raised 7));
               mkFuture (claims_delete 3) 2 (Finished 0)]
              (mkFuture (claims_delete 1) 1 (Failed (Raised 7)))
              (mkFuture (claims_delete 3) 2 (Finished 0)))
    as (e & h & _ & _ & _ & _ & _ & Hc);
    [apply perm_swap | now left | reflexivity
    | right; right; now left | cbn; lia |].
  exact Hc.
Defined.

(** ** [sync_blocks] *)

(** X3.  When the indexed best height of a file is neither its tip nor
    strictly between -1 and its tip (so it is -1, or below -1, or above the
    tip), the loop body asks the chain nothing more: it plans
    [sync_block_file] on the record as listed, from [ours + 1] on and with
    the listed [txs].  An index that is ahead of the chain is not refused. *)
Theorem sync_blocks_file_takes_listed_record :
  forall (w : World) (s : sync_blocks_locals) (chain_file : block_file)
         (ours : Z),
    db_best_block_height_for_file w (file_number chain_file) = inr ours ->
    ours <> best_height chain_file ->
    ~ (-1 < ours < best_height chain_file) ->
    sync_blocks_file w s chain_file =
    (inr (mkLocals
            (tasks s ++
             [future_of w
                (sync_block_file (file_number chain_file) (ours + 1)
                   (txs chain_file) TX_FLUSH_SIZE)])
            (Some (Z.min match starting_height s with
                         | None => ours + 1
                         | Some h => h
                         end (ours + 1)))
            (tx_count s + txs chain_file)
            (block_count s + blocks chain_file)),
     [ERun (get_best_block_height_for_file_q (file_number chain_file));
      ERun (sync_block_file (file_number chain_file) (ours + 1)
              (txs chain_file) TX_FLUSH_SIZE)]).
Proof.
  intros w s cf ours Hq Hne Hout.
  rewrite (M_eta (sync_blocks_file w s cf)).
  unfold sync_blocks_file, get_best_block_height_for_file.
  co_eval. rewrite Hq. co_eval.
  replace (ours =? best_height cf) with false
    by (symmetry; now apply Z.eqb_neq).
  replace ((-1 <? ours) && (ours <? best_height cf)) with false.
  2:{ symmetry. apply andb_false_iff.
      destruct (Z.ltb_spec (-1) ours); [| now left].
      destruct (Z.ltb_spec ours (best_height cf)); [| now right]. lia. }
  co_eval. rewrite db_run_eq. co_eval. reflexivity.
Qed.

Lemma sync_blocks_file_takes_listed_record_witness :
  db_best_block_height_for_file cold_start 0 = inr (-1)
  /\ runs_of (log_of (sync_blocks_file cold_start (mkLocals [] None 0 0)
                        (mkBlockFile 0 9 12 10))) =
       [get_best_block_height_for_file_q 0; sync_block_file 0 0 12 20000].
Proof.
  split; [reflexivity |].
  rewrite (sync_blocks_file_takes_listed_record cold_start
             (mkLocals [] None 0 0) (mkBlockFile 0 9 12 10) (-1));
    [reflexivity | reflexivity | discriminate | cbn; lia].
Defined.

Lemma fold_m_app {A S} (f : S -> A -> M S) xs ys s :
  fold_m f (xs ++ ys) s = bind (fold_m f xs s) (fun s' => fold_m f ys s').
Proof.
  revert s. induction xs as [| x xs IH]; intros s; cbn [app fold_m].
  - unfold bind, ret. destruct (fold_m f ys s). reflexivity.
  - destruct (f s x) as [[e | s'] l] eqn:E.
    + reflexivity.
    + cbn [bind]. rewrite IH.
      destruct (fold_m f xs s') as [[e | s''] l']; cbn [bind].
      * reflexivity.
      * destruct (fold_m f ys s'') as [r l'']. now rewrite app_assoc.
Qed.

Lemma never_sync_blocks_file f w s cf :
  (forall c, f (ERun c) = false) ->
  (forall c, f (EChain c) = false) ->
  never f (sync_blocks_file w s cf).
Proof.
  intros H1 H2. unfold sync_blocks_file, get_best_block_height_for_file.
  repeat first
    [ apply never_chain_db; apply H2
    | apply never_db_run; apply H1
    | apply never_emit; apply H1
    | never_step
    | match goal with |- never _ (let _ := _ in _) => cbv zeta end ].
Qed.

Lemma never_sync_blocks_init f w :
  (forall c, f (ERun c) = false) ->
  (forall c, f (EChain c) = false) ->
  (forall op, f (EProgress BLOCK_INIT_EVENT op) = false) ->
  never f (sync_blocks_init w).
Proof.
  intros H1 H2 H3. unfold sync_blocks_init.
  apply never_with_progress; [apply H3 | apply H3 |].
  apply never_bind; [apply never_chain_db, H2 | intros].
  apply never_bind; [apply never_chain_db, H2 | intros].
  apply never_bind; [apply never_emit, H3 | intros].
  apply never_bind; [| intros; apply never_ret].
  apply never_fold_m. intros. now apply never_sync_blocks_file.
Qed.

Lemma runs_of_block_file_app l1 l2 :
  block_file_runs (l1 ++ l2) = block_file_runs l1 ++ block_file_runs l2.
Proof. unfold block_file_runs. now rewrite runs_of_app, filter_app. Qed.

(** What one iteration of the loop over the block files does when it does
    not raise: it leaves the locals alone, or it submits one
    [sync_block_file] task and accounts for it. *)
Lemma sync_blocks_file_step w s cf s' :
  result_of (sync_blocks_file w s cf) = inr s' ->
  (s' = s /\ block_file_runs (log_of (sync_blocks_file w s cf)) = [])
  \/ (exists fnum ours n,
        tasks s' =
          tasks s ++ [future_of w (sync_block_file fnum (ours + 1) n TX_FLUSH_SIZE)]
        /\ starting_height s' =
             Some (Z.min match starting_height s with
                         | None => ours + 1
                         | Some h => h
                         end (ours + 1))
        /\ tx_count s' = tx_count s + n
        /\ block_file_runs (log_of (sync_blocks_file w s cf)) =
             [sync_block_file fnum (ours + 1) n TX_FLUSH_SIZE]).
Proof.
  unfold sync_blocks_file, get_best_block_height_for_file, chain_db.
  co_eval.
  destruct (db_best_block_height_for_file w (file_number cf)) as [e | ours];
    co_eval; [discriminate |].
  destruct (ours =? best_height cf); co_eval.
  - intros [= <-]. left. split; reflexivity.
  - destruct ((-1 <? ours) && (ours <? best_height cf)); co_eval.
    + destruct (chain_get_block_files w (Some (file_number cf))
                  (Some (ours + 1))) as [e | [| r rest]];
        co_eval; try discriminate.
      rewrite db_run_eq. co_eval. intros [= <-]. right.
      exists (file_number r), ours, (txs r). repeat split.
    + rewrite db_run_eq. co_eval. intros [= <-]. right.
      exists (file_number cf), ours, (txs cf). repeat split.
Qed.

(** The loop over the block files submits exactly the tasks it adds to
    [tasks], in order. *)
Lemma fold_plans_tasks w files s0 s :
  result_of (fold_m (sync_blocks_file w) files s0) = inr s ->
  exists T,
    tasks s = tasks s0 ++ T
    /\ block_file_runs (log_of (fold_m (sync_blocks_file w) files s0)) =
       map fut_call T.
Proof.
  revert s0. induction files as [| cf files IH]; intros s0; cbn [fold_m].
  - intros [= <-]. exists []. now rewrite app_nil_r.
  - rewrite result_bind, log_bind.
    destruct (result_of (sync_blocks_file w s0 cf)) as [e | s1] eqn:E1;
      [discriminate |].
    intros H. destruct (IH _ H) as (T & HT & HR).
    rewrite runs_of_block_file_app, HR.
    destruct (sync_blocks_file_step _ _ _ _ E1)
      as [[-> Hl] | (fnum & ours & n & Ht & _ & _ & Hl)]; rewrite Hl.
    + exists T. auto.
    + eexists (_ :: T). rewrite HT, Ht, <- app_assoc. split; reflexivity.
Qed.

(** X4.  When the chain answers the restricted query for a half-indexed file
    with an empty list, [sync_blocks] raises [IndexError] out of its first
    [with] block.  The tasks already planned for earlier files have been
    submitted, and nothing waits for them or cancels them: the log of
    [sync_blocks] is that of its first block, with no wait, no stop event and
    no cancellation. *)
Theorem sync_blocks_raises_on_empty_refetch :
  forall (w : World) (ending ours : Z) (pre post : list block_file)
         (chain_file : block_file) (s : sync_blocks_locals),
    chain_get_best_height w = inr ending ->
    chain_get_block_files w None None = inr (pre ++ chain_file :: post) ->
    result_of (fold_m (sync_blocks_file w) pre (mkLocals [] None 0 0)) = inr s ->
    db_best_block_height_for_file w (file_number chain_file) = inr ours ->
    -1 < ours < best_height chain_file ->
    chain_get_block_files w (Some (file_number chain_file)) (Some (ours + 1))
      = inr [] ->
    result_of (sync_blocks w) = inl IndexError
    /\ log_of (sync_blocks w) = log_of (sync_blocks_init w)
    /\ never is_wait_or_cancel (sync_blocks w)
    /\ block_file_runs (log_of (sync_blocks w)) = map fut_call (tasks s).
Proof.
  intros w ending ours pre post cf s Hb Hf Hpre Hq Hin Hre.
  assert (Hbody : sync_blocks_file w s cf =
            (inl IndexError,
             [ERun (get_best_block_height_for_file_q (file_number cf));
              EChain (get_block_files (Some (file_number cf)) (Some (ours + 1)))])).
  { rewrite (M_eta (sync_blocks_file w s cf)).
    unfold sync_blocks_file, get_best_block_height_for_file, chain_db.
    co_eval. rewrite Hq. co_eval.
    replace (ours =? best_height cf) with false
      by (symmetry; apply Z.eqb_neq; lia).
    replace (-1 <? ours) with true by (symmetry; apply Z.ltb_lt; lia).
    replace (ours <? best_height cf) with true
      by (symmetry; apply Z.ltb_lt; lia).
    cbn [andb]. co_eval. rewrite Hre. co_eval. reflexivity. }
  assert (Hfold : fold_m (sync_blocks_file w) (pre ++ cf :: post)
                    (mkLocals [] None 0 0) =
            (inl IndexError,
             log_of (fold_m (sync_blocks_file w) pre (mkLocals [] None 0 0))
               ++ [ERun (get_best_block_height_for_file_q (file_number cf));
                   EChain (get_block_files (Some (file_number cf))
                             (Some (ours + 1)))])).
  { rewrite fold_m_app.
    rewrite (M_eta (fold_m (sync_blocks_file w) pre _)), Hpre.
    cbn [bind fold_m]. rewrite Hbody. reflexivity. }
  assert (Hinit : sync_blocks_init w =
            (inl IndexError,
             EProgress BLOCK_INIT_EVENT PEnter
               :: ([EChain get_best_height; EChain (get_block_files None None);
                    EProgress BLOCK_INIT_EVENT
                      (PIter (length (pre ++ cf :: post)))]
                   ++ log_of (fold_m (sync_blocks_file w) pre
                                (mkLocals [] None 0 0))
                   ++ [ERun (get_best_block_height_for_file_q (file_number cf));
                       EChain (get_block_files (Some (file_number cf))
                                 (Some (ours + 1)))])
               ++ [EProgress BLOCK_INIT_EVENT PExit])).
  { rewrite (M_eta (sync_blocks_init w)).
    unfold sync_blocks_init, chain_db. co_eval.
    rewrite Hb. co_eval. rewrite Hf. co_eval. rewrite Hfold. co_eval.
    cbn [app]. rewrite <- ?app_assoc. reflexivity. }
  assert (Hlog : log_of (sync_blocks w) = log_of (sync_blocks_init w)).
  { unfold sync_blocks. rewrite log_bind, Hinit.
    cbn [result_of log_of fst snd]. now rewrite app_nil_r. }
  split.
  { unfold sync_blocks. rewrite result_bind, Hinit. reflexivity. }
  split; [exact Hlog |]. split.
  { unfold never. rewrite Hlog.
    apply never_sync_blocks_init; intros; reflexivity. }
  rewrite Hlog, Hinit. cbn [log_of snd].
  unfold block_file_runs. cbn [app runs_of].
  rewrite !runs_of_app. cbn [runs_of app]. rewrite !filter_app.
  cbn [filter]. rewrite !app_nil_r.
  destruct (fold_plans_tasks w pre (mkLocals [] None 0 0) s Hpre) as (T & HT & HR).
  cbn [tasks app] in HT. rewrite HT. exact HR.
Qed.

Lemma sync_blocks_raises_on_empty_refetch_witness :
  -1 < 14 < 19
  /\ result_of (sync_blocks empty_refetch) = inl IndexError
  /\ block_file_runs (log_of (sync_blocks empty_refetch))
     = [sync_block_file 0 0 12 20000].
Proof.
  destruct (sync_blocks_raises_on_empty_refetch empty_refetch 19 14
              [mkBlockFile 0 9 12 10] [] (mkBlockFile 1 19 30 10)
              (mkLocals [future_of empty_refetch (sync_block_file 0 0 12 20000)]
                        (Some 0) 12 10))
    as (H1 & _ & _ & H4); try reflexivity; [cbn; lia |].
  split; [lia |]. split; [exact H1 | exact H4].
Defined.

Lemma min_start_snoc cs c st :
  start_height_of c = Some st ->
  min_start (cs ++ [c]) =
  Some match min_start cs with
       | None => st
       | Some m => Z.min m st
       end.
Proof.
  intros Hc. induction cs as [| d cs IH]; cbn [app min_start].
  - now rewrite Hc.
  - rewrite IH. destruct (start_height_of d) as [h |]; [| reflexivity].
    destruct (min_start cs) as [m |]; [| reflexivity].
    now rewrite Z.min_assoc.
Qed.

Lemma sum_txs_snoc cs c : sum_txs (cs ++ [c]) = sum_txs cs + txs_of c.
Proof.
  unfold sum_txs. induction cs as [| d cs IH]; cbn [app fold_right]; lia.
Qed.

Lemma min_start_none cs c :
  min_start cs = None -> In c cs -> start_height_of c = None.
Proof.
  induction cs as [| d cs IH]; [contradiction |]. cbn [min_start].
  destruct (start_height_of d) as [h |] eqn:Ed.
  - destruct (min_start cs); discriminate.
  - intros H [<- | Hin]; [exact Ed | now apply IH].
Qed.

(** [min_start] is the start of one of the calls and a lower bound of the
    starts of all. *)
Lemma min_start_spec cs lo :
  min_start cs = Some lo ->
  (exists c, In c cs /\ start_height_of c = Some lo)
  /\ forall c h, In c cs -> start_height_of c = Some h -> lo <= h.
Proof.
  revert lo. induction cs as [| d cs IH]; intros lo; cbn [min_start];
    [discriminate |].
  destruct (start_height_of d) as [h |] eqn:Ed.
  - destruct (min_start cs) as [m |] eqn:Em.
    + intros [= <-]. destruct (IH m eq_refl) as [(c & Hc & Hs) Hle]. split.
      * destruct (Z.min_spec h m) as [[_ E] | [_ E]]; rewrite E.
        -- exists d. split; [now left | exact Ed].
        -- exists c. split; [now right | exact Hs].
      * intros c' h' [<- | Hin] Hs'.
        -- rewrite Ed in Hs'. injection Hs' as <-. lia.
        -- specialize (Hle _ _ Hin Hs'). lia.
    + intros [= <-]. split.
      * exists d. split; [now left | exact Ed].
      * intros c' h' [<- | Hin] Hs'.
        -- rewrite Ed in Hs'. injection Hs' as <-. lia.
        -- rewrite (min_start_none _ _ Em Hin) in Hs'. discriminate.
  - intros H. destruct (IH lo H) as [(c & Hc & Hs) Hle]. split.
    + exists c. split; [now right | exact Hs].
    + intros c' h' [<- | Hin] Hs'; [congruence | eauto].
Qed.

(** What the loop over the block files keeps true of its locals. *)
Lemma fold_keeps_accounts w files s0 s :
  starting_height s0 = min_start (map fut_call (tasks s0)) ->
  tx_count s0 = sum_txs (map fut_call (tasks s0)) ->
  forallb is_block_file_task (map fut_call (tasks s0)) = true ->
  result_of (fold_m (sync_blocks_file w) files s0) = inr s ->
  starting_height s = min_start (map fut_call (tasks s))
  /\ tx_count s = sum_txs (map fut_call (tasks s))
  /\ forallb is_block_file_task (map fut_call (tasks s)) = true.
Proof.
  revert s0. induction files as [| cf files IH]; intros s0 H1 H2 H3;
    cbn [fold_m].
  - intros [= <-]. auto.
  - rewrite result_bind.
    destruct (result_of (sync_blocks_file w s0 cf)) as [e | s1] eqn:E1;
      [discriminate |].
    destruct (sync_blocks_file_step _ _ _ _ E1)
      as [[-> _] | (fnum & ours & n & Ht & Hs & Hx & _)].
    + now apply IH.
    + apply IH.
      * rewrite Hs, Ht, map_app. cbn [map future_of fut_call].
        rewrite (min_start_snoc _ _ (ours + 1)) by reflexivity.
        rewrite <- H1. destruct (starting_height s0); [reflexivity |].
        now rewrite Z.min_id.
      * rewrite Hx, Ht, map_app. cbn [map future_of fut_call].
        rewrite sum_txs_snoc, <- H2. reflexivity.
      * rewrite Ht, map_app, forallb_app, H3.
        cbn [map future_of fut_call forallb is_block_file_task andb].
        now rewrite Z.eqb_refl.
Qed.

Lemma sync_blocks_init_result w s ending :
  result_of (sync_blocks_init w) = inr (s, ending) ->
  chain_get_best_height w = inr ending
  /\ exists files,
       chain_get_block_files w None None = inr files
       /\ result_of (fold_m (sync_blocks_file w) files (mkLocals [] None 0 0))
          = inr s
       /\ block_file_runs (log_of (sync_blocks_init w)) =
          block_file_runs
            (log_of (fold_m (sync_blocks_file w) files (mkLocals [] None 0 0))).
Proof.
  unfold sync_blocks_init, chain_db. co_eval.
  destruct (chain_get_best_height w) as [e | h]; co_eval; [discriminate |].
  destruct (chain_get_block_files w None None) as [e | files]; co_eval;
    [discriminate |].
  destruct (result_of (fold_m (sync_blocks_file w) files
                         (mkLocals [] None 0 0))) as [e | s1] eqn:Ef;
    co_eval; [discriminate |].
  intros [= <- <-]. split; [reflexivity |].
  exists files. split; [reflexivity |]. split; [exact Ef |].
  cbn [app]. rewrite <- ?app_assoc.
  unfold block_file_runs. cbn [runs_of].
  rewrite !runs_of_app. cbn [runs_of]. now rewrite !app_nil_r.
Qed.

Lemma sync_blocks_init_accounts_for_tasks_aux w s ending :
  result_of (sync_blocks_init w) = inr (s, ending) ->
  starting_height s = min_start (map fut_call (tasks s))
  /\ (starting_height s = None <-> tasks s = []).
Proof.
  intros H.
  destruct (sync_blocks_init_result _ _ _ H) as (_ & files & _ & Hf & _).
  destruct (fold_keeps_accounts w files (mkLocals [] None 0 0) s
              eq_refl eq_refl eq_refl Hf)
    as (H1 & _ & H3).
  split; [exact H1 |]. rewrite H1. split.
  - intros Hn. destruct (tasks s) as [| f fs]; [reflexivity |].
    cbn [map forallb] in H3. apply andb_true_iff in H3. destruct H3 as [Hb _].
    assert (Hs : start_height_of (fut_call f) = None)
      by (apply (min_start_none _ _ Hn); now left).
    destruct (fut_call f); discriminate.
  - intros ->. reflexivity.
Qed.

(** X5.  When the first block of [sync_blocks] gets through, its locals add
    up: every planned task is a [sync_block_file] call that flushes every
    [TX_FLUSH_SIZE] transactions and was submitted once, in the order of
    [tasks]; [tx_count] is the sum of the transaction counts the tasks were
    given; and [starting_height] is the least start height among the tasks,
    [None] exactly when no task was planned. *)
Theorem sync_blocks_init_accounts_for_tasks :
  forall (w : World) (s : sync_blocks_locals) (ending : Z),
    result_of (sync_blocks_init w) = inr (s, ending) ->
    block_file_runs (log_of (sync_blocks_init w)) = map fut_call (tasks s)
    /\ forallb is_block_file_task (map fut_call (tasks s)) = true
    /\ tx_count s = sum_txs (map fut_call (tasks s))
    /\ starting_height s = min_start (map fut_call (tasks s))
    /\ (starting_height s = None <-> tasks s = []).
Proof.
  intros w s ending H.
  destruct (sync_blocks_init_result _ _ _ H) as (_ & files & _ & Hf & Hl).
  destruct (fold_plans_tasks _ _ _ _ Hf) as (T & HT & HR).
  cbn [tasks app] in HT.
  destruct (fold_keeps_accounts w files (mkLocals [] None 0 0) s
              eq_refl eq_refl eq_refl Hf)
    as (H1 & H2 & H3).
  split; [now rewrite Hl, HR, HT |]. split; [exact H3 |].
  split; [exact H2 |]. split; [exact H1 |].
  exact (proj2 (sync_blocks_init_accounts_for_tasks_aux _ _ _ H)).
Qed.

Lemma sync_blocks_init_accounts_for_tasks_witness :
  result_of (sync_blocks_init incremental)
    = inr (mkLocals [future_of incremental (sync_block_file 0 10 8 20000)]
                    (Some 10) 8 5, 14)
  /\ block_file_runs (log_of (sync_blocks_init incremental))
     = [sync_block_file 0 10 8 20000].
Proof.
  split; [reflexivity |].
  apply (sync_blocks_init_accounts_for_tasks incremental
           (mkLocals [future_of incremental (sync_block_file 0 10 8 20000)]
                     (Some 10) 8 5) 14).
  reflexivity.
Defined.

(** X6.  Whenever [sync_blocks] returns, it returns a range and not [None].
    The start of the range is a height (not [None]): the least start height
    among the planned tasks.  Every planned task has finished with a height,
    and the end of the range is the greatest of those heights.  So a block
    file task that fails, or is cancelled, always makes [sync_blocks] raise,
    also when it is the last to complete. *)
Theorem sync_blocks_returns_a_full_range :
  forall (w : World) (r : option height_range),
    result_of (sync_blocks w) = inr r ->
    exists (lo hi ending : Z) (s : sync_blocks_locals),
      r = Some (Some lo, hi)
      /\ result_of (sync_blocks_init w) = inr (s, ending)
      /\ min_start (map fut_call (tasks s)) = Some lo
      /\ (forall f, In f (tasks s) ->
            exists v, fut_outcome f = Finished v /\ v <= hi)
      /\ (exists f, In f (tasks s) /\ fut_outcome f = Finished hi).
Proof.
  intros w r Hr.
  destruct r as [b |]; [| now destruct (sync_blocks_never_none w)].
  destruct (sync_blocks_returns _ _ Hr) as (s & ending & h & hs & Hi & Ho & ->).
  destruct (sync_blocks_init_accounts_for_tasks_aux _ _ _ Hi) as (Hmin & Hnone).
  destruct (list_max_spec h hs) as [Hin Hle].
  destruct (starting_height s) as [lo |] eqn:Es.
  - exists lo, (list_max h hs), ending, s.
    split; [reflexivity |]. split; [exact Hi |]. split; [now rewrite <- Hmin |].
    split.
    + intros f Hf. destruct (outcomes_finished _ _ _ Ho Hf) as (v & Hv & Hvin).
      exists v. split; [exact Hv | now apply Hle].
    + exact (finished_outcome _ _ _ Ho Hin).
  - exfalso. rewrite (proj1 Hnone eq_refl) in Ho. discriminate.
Qed.

Lemma sync_blocks_returns_a_full_range_witness :
  result_of (sync_blocks cold_start) = inr (Some (Some 0, 9))
  /\ exists lo hi ending s,
       Some (Some 0, 9) = Some (Some lo, hi)
       /\ result_of (sync_blocks_init cold_start) = inr (s, ending)
       /\ min_start (map fut_call (tasks s)) = Some lo
       /\ (forall f, In f (tasks s) ->
             exists v, fut_outcome f = Finished v /\ v <= hi)
       /\ (exists f, In f (tasks s) /\ fut_outcome f = Finished hi).
Proof.
  split; [reflexivity |].
  apply (sync_blocks_returns_a_full_range cold_start (Some (Some 0, 9))).
  reflexivity.
Defined.

(** ** C7 *)

Lemma never_filter {A} f (m : M A) :
  never f m -> filter f (log_of m) = [].
Proof.
  unfold never. induction 1 as [| e l He _ IH]; [reflexivity |].
  cbn [filter]. now rewrite He.
Qed.

(** What one iteration logs does not depend on the locals. *)
Lemma sync_blocks_file_log w s cf :
  log_of (sync_blocks_file w s cf) = file_plan w cf.
Proof.
  unfold sync_blocks_file, file_plan, get_best_block_height_for_file,
    chain_db.
  co_eval.
  destruct (db_best_block_height_for_file w (file_number cf)) as [e | ours];
    co_eval; [reflexivity |].
  destruct (ours =? best_height cf); co_eval; [reflexivity |].
  destruct ((-1 <? ours) && (ours <? best_height cf)); co_eval.
  - destruct (chain_get_block_files w (Some (file_number cf))
                (Some (ours + 1))) as [e | [| r rest]];
      co_eval; try reflexivity;
      rewrite db_run_eq; co_eval; reflexivity.
  - try reflexivity; rewrite db_run_eq; co_eval; reflexivity.
Qed.

(** An iteration whose lookups are answered does not raise, and counts the
    blocks and transactions still to be ingested. *)
Lemma sync_blocks_file_counts w s cf :
  (exists ours,
     db_best_block_height_for_file w (file_number cf) = inr ours
     /\ (-1 < ours < best_height cf ->
         exists r rest,
           chain_get_block_files w (Some (file_number cf)) (Some (ours + 1))
             = inr (r :: rest))) ->
  exists s',
    result_of (sync_blocks_file w s cf) = inr s'
    /\ block_count s' = block_count s + fst (to_ingest w cf)
    /\ tx_count s' = tx_count s + snd (to_ingest w cf).
Proof.
  intros (ours & Hq & Hre).
  unfold sync_blocks_file, to_ingest, get_best_block_height_for_file,
    chain_db.
  co_eval. rewrite Hq. co_eval.
  destruct (ours =? best_height cf) eqn:E; co_eval.
  - exists s. cbn. split; [reflexivity |]. split; lia.
  - destruct ((-1 <? ours) && (ours <? best_height cf)) eqn:Eh; co_eval.
    + apply andb_true_iff in Eh. destruct Eh as [E1 E2].
      apply Z.ltb_lt in E1, E2.
      destruct (Hre (conj E1 E2)) as (r & rest & ->). co_eval.
      rewrite db_run_eq. co_eval. eexists. split; [reflexivity |].
      split; reflexivity.
    + rewrite db_run_eq. co_eval. eexists. split; [reflexivity |].
      split; reflexivity.
Qed.

Lemma fold_files_log w files s0 :
  (forall cf, In cf files ->
     exists ours,
       db_best_block_height_for_file w (file_number cf) = inr ours
       /\ (-1 < ours < best_height cf ->
           exists r rest,
             chain_get_block_files w (Some (file_number cf)) (Some (ours + 1))
               = inr (r :: rest))) ->
  exists s,
    result_of (fold_m (sync_blocks_file w) files s0) = inr s
    /\ log_of (fold_m (sync_blocks_file w) files s0)
       = flat_map (file_plan w) files
    /\ block_count s =
       block_count s0 + sum_Z (map (fun cf => fst (to_ingest w cf)) files)
    /\ tx_count s =
       tx_count s0 + sum_Z (map (fun cf => snd (to_ingest w cf)) files).
Proof.
  revert s0. induction files as [| cf files IH]; intros s0 H; cbn [fold_m].
  - exists s0. cbn. repeat split; lia.
  - destruct (sync_blocks_file_counts w s0 cf (H cf (or_introl eq_refl)))
      as (s1 & Hr & Hb & Ht).
    destruct (IH s1 (fun cf' Hin => H cf' (or_intror Hin)))
      as (s & Hr' & Hl & Hb' & Ht').
    exists s. rewrite result_bind, log_bind, Hr, Hr', Hl, sync_blocks_file_log.
    cbn [flat_map map sum_Z fold_right].
    fold (sum_Z (map (fun cf => fst (to_ingest w cf)) files)).
    fold (sum_Z (map (fun cf => snd (to_ingest w cf)) files)).
    repeat split; lia.
Qed.

(** What the loop logs for a file is about that file alone, when a refetch
    answers with a record of the file. *)
Lemma filter_file_plan w cf n :
  (forall ours r rest,
     db_best_block_height_for_file w (file_number cf) = inr ours ->
     -1 < ours < best_height cf ->
     chain_get_block_files w (Some (file_number cf)) (Some (ours + 1))
       = inr (r :: rest) ->
     file_number r = file_number cf) ->
  filter (concerns_file n) (file_plan w cf) =
  if file_number cf =? n then file_plan w cf else [].
Proof.
  intros Hsame. unfold file_plan.
  destruct (db_best_block_height_for_file w (file_number cf)) as [e | ours]
    eqn:Hq; cbn [filter concerns_file].
  - destruct (file_number cf =? n); reflexivity.
  - destruct (ours =? best_height cf); cbn [filter].
    + destruct (file_number cf =? n); reflexivity.
    + destruct ((-1 <? ours) && (ours <? best_height cf)) eqn:Eh.
      * apply andb_true_iff in Eh. destruct Eh as [E1 E2].
        apply Z.ltb_lt in E1, E2.
        destruct (chain_get_block_files w (Some (file_number cf))
                    (Some (ours + 1))) as [e | [| r rest]] eqn:Hre;
          cbn [filter concerns_file];
          try (destruct (file_number cf =? n); reflexivity).
        rewrite (Hsame ours r rest eq_refl (conj E1 E2) Hre).
        destruct (file_number cf =? n); reflexivity.
      * cbn [filter concerns_file].
        destruct (file_number cf =? n); reflexivity.
Qed.

Lemma filter_flat_map_file_plan w files cf :
  NoDup (map file_number files) ->
  (forall cf', In cf' files ->
     forall ours r rest,
       db_best_block_height_for_file w (file_number cf') = inr ours ->
       -1 < ours < best_height cf' ->
       chain_get_block_files w (Some (file_number cf')) (Some (ours + 1))
         = inr (r :: rest) ->
       file_number r = file_number cf') ->
  In cf files ->
  filter (concerns_file (file_number cf)) (flat_map (file_plan w) files)
  = file_plan w cf.
Proof.
  induction files as [| c files IH]; intros Hnd Hsame Hin; [contradiction |].
  cbn [map] in Hnd. apply NoDup_cons_iff in Hnd. destruct Hnd as [Hnot Hnd].
  cbn [flat_map]. rewrite filter_app.
  rewrite (filter_file_plan w c (file_number cf)
             (Hsame c (or_introl eq_refl))).
  assert (Hrest : forall n, ~ In n (map file_number files) ->
            filter (concerns_file n) (flat_map (file_plan w) files) = []).
  { intros n Hn. clear IH Hin Hnot Hnd.
    induction files as [| d files IHf]; [reflexivity |].
    cbn [flat_map]. rewrite filter_app.
    rewrite (filter_file_plan w d n
               (Hsame d (or_intror (or_introl eq_refl)))).
    replace (file_number d =? n) with false.
    - cbn [app]. apply IHf.
      + intros cf' H'. apply Hsame. destruct H' as [<- | H'].
        * now left.
        * right. now right.
      + intros H'. apply Hn. now right.
    - symmetry. apply Z.eqb_neq. intros E. apply Hn. left. exact E. }
  destruct Hin as [<- | Hin].
  - rewrite Z.eqb_refl, (Hrest _ Hnot). now rewrite app_nil_r.
  - replace (file_number c =? file_number cf) with false.
    + cbn [app]. apply IH; auto.
      intros cf' H'. apply Hsame. now right.
    + symmetry. apply Z.eqb_neq. intros E. apply Hnot. rewrite E.
      now apply in_map.
Qed.

(** The second [with] block of [sync_blocks] logs nothing about a file. *)
Lemma filter_sync_blocks w n ending files :
  chain_get_best_height w = inr ending ->
  chain_get_block_files w None None = inr files ->
  filter (concerns_file n) (log_of (sync_blocks w)) =
  filter (concerns_file n)
    (log_of (fold_m (sync_blocks_file w) files (mkLocals [] None 0 0))).
Proof.
  intros Hb Hf. unfold sync_blocks. rewrite log_bind, filter_app.
  match goal with
  | |- _ ++ filter _ ?X = _ =>
      assert (Hmain : filter (concerns_file n) X = [])
  end.
  { destruct (result_of (sync_blocks_init w)) as [e | [s e]];
      [reflexivity |].
    apply never_filter.
    repeat first
      [ apply never_run_tasks;
          [reflexivity | intros; reflexivity | intros; reflexivity]
      | apply never_chain_db; reflexivity
      | apply never_future_result
      | never_step ]. }
  rewrite Hmain, app_nil_r.
  unfold sync_blocks_init, chain_db.
  rewrite with_progress_log. co_eval. rewrite Hb. co_eval. rewrite Hf.
  co_eval. cbn [filter concerns_file app].
  rewrite !filter_app. cbn [filter concerns_file].
  destruct (result_of (fold_m (sync_blocks_file w) files
                         (mkLocals [] None 0 0)));
    cbn [log_of ret snd filter app]; now rewrite ?app_nil_r.
Qed.

(** C7.  Let the chain list each file once, and let every lookup be
    answered, a refetch with a record of the file asked for.  Then, for every
    listed file: when the indexed best height equals the file's tip,
    [sync_blocks] asks for that height and does nothing else about the file
    (no refetch, no task), and counts none of its blocks and transactions;
    when [-1 < indexed < tip], it refetches the record restricted to the
    heights from [indexed + 1] on and submits one [sync_block_file] task on
    the file, and no other, starting at [indexed + 1] with the transaction
    count of the refetched record, and it counts the blocks and
    transactions of the refetched record; in the cases that are left (the
    indexed height is below 0, or above the listed tip) it submits the task
    on the record as listed.  The block and transaction
    totals of the first [with] block are the sums of what is counted for
    the files. *)
Theorem sync_blocks_skips_or_resumes_each_file :
  forall (w : World) (ending : Z) (files : list block_file),
    chain_get_best_height w = inr ending ->
    chain_get_block_files w None None = inr files ->
    NoDup (map file_number files) ->
    (forall cf, In cf files ->
       exists ours,
         db_best_block_height_for_file w (file_number cf) = inr ours
         /\ (-1 < ours < best_height cf ->
             exists r rest,
               chain_get_block_files w (Some (file_number cf))
                 (Some (ours + 1)) = inr (r :: rest)
               /\ file_number r = file_number cf)) ->
    (exists s,
       result_of (sync_blocks_init w) = inr (s, ending)
       /\ block_count s = sum_Z (map (fun cf => fst (to_ingest w cf)) files)
       /\ tx_count s = sum_Z (map (fun cf => snd (to_ingest w cf)) files))
    /\ forall (chain_file : block_file) (ours : Z),
         In chain_file files ->
         db_best_block_height_for_file w (file_number chain_file)
           = inr ours ->
         (ours = best_height chain_file ->
          filter (concerns_file (file_number chain_file))
                 (log_of (sync_blocks w))
            = [ERun (get_best_block_height_for_file_q
                       (file_number chain_file))]
          /\ to_ingest w chain_file = (0, 0))
         /\ (-1 < ours < best_height chain_file ->
             forall (refetched : block_file) (rest : list block_file),
               chain_get_block_files w (Some (file_number chain_file))
                 (Some (ours + 1)) = inr (refetched :: rest) ->
               filter (concerns_file (file_number chain_file))
                      (log_of (sync_blocks w))
                 = [ERun (get_best_block_height_for_file_q
                            (file_number chain_file));
                    EChain (get_block_files
                              (Some (file_number chain_file))
                              (Some (ours + 1)));
                    ERun (sync_block_file (file_number chain_file)
                            (ours + 1) (txs refetched) TX_FLUSH_SIZE)]
               /\ to_ingest w chain_file
                  = (blocks refetched, txs refetched))
         /\ (ours <> best_height chain_file ->
             ours <= -1 \/ best_height chain_file < ours ->
             filter (concerns_file (file_number chain_file))
                    (log_of (sync_blocks w))
               = [ERun (get_best_block_height_for_file_q
                          (file_number chain_file));
                  ERun (sync_block_file (file_number chain_file)
                          (ours + 1) (txs chain_file) TX_FLUSH_SIZE)]
             /\ to_ingest w chain_file
                = (blocks chain_file, txs chain_file)).
Proof.
  intros w ending files Hb Hf Hnd Hans.
  assert (Hans' : forall cf, In cf files ->
            exists ours,
              db_best_block_height_for_file w (file_number cf) = inr ours
              /\ (-1 < ours < best_height cf ->
                  exists r rest,
                    chain_get_block_files w (Some (file_number cf))
                      (Some (ours + 1)) = inr (r :: rest))).
  { intros cf Hin. destruct (Hans cf Hin) as (o & Ho & Hre).
    exists o. split; [exact Ho |]. intros H.
    destruct (Hre H) as (r & rest & Hr & _). eauto. }
  assert (Hsame : forall cf', In cf' files ->
            forall ours r rest,
              db_best_block_height_for_file w (file_number cf') = inr ours ->
              -1 < ours < best_height cf' ->
              chain_get_block_files w (Some (file_number cf'))
                (Some (ours + 1)) = inr (r :: rest) ->
              file_number r = file_number cf').
  { intros cf Hin o r rest Ho Hh Hr.
    destruct (Hans cf Hin) as (o' & Ho' & Hre).
    rewrite Ho in Ho'. injection Ho' as <-.
    destruct (Hre Hh) as (r' & rest' & Hr' & Hn).
    rewrite Hr in Hr'. injection Hr' as <- <-. exact Hn. }
  destruct (fold_files_log w files (mkLocals [] None 0 0) Hans')
    as (s & Hr & Hl & Hbc & Htc).
  split.
  - exists s. split; [| split; [exact Hbc | exact Htc]].
    unfold sync_blocks_init, chain_db.
    rewrite with_progress_result. co_eval. rewrite Hb. co_eval.
    rewrite Hf. co_eval. rewrite Hr. reflexivity.
  - intros cf ours Hin Hq.
    rewrite (filter_sync_blocks w _ ending files Hb Hf), Hl.
    rewrite (filter_flat_map_file_plan w files cf Hnd Hsame Hin).
    unfold file_plan, to_ingest. rewrite Hq. split; [| split].
    + intros ->. rewrite Z.eqb_refl. split; reflexivity.
    + intros [H1 H2] r rest Hre.
      replace (ours =? best_height cf) with false
        by (symmetry; apply Z.eqb_neq; lia).
      replace (-1 <? ours) with true by (symmetry; apply Z.ltb_lt; lia).
      replace (ours <? best_height cf) with true
        by (symmetry; apply Z.ltb_lt; lia).
      cbn [andb]. rewrite Hre.
      rewrite (Hsame cf Hin ours r rest Hq (conj H1 H2) Hre).
      split; reflexivity.
    + intros Hne Hout.
      replace (ours =? best_height cf) with false
        by (symmetry; apply Z.eqb_neq; lia).
      replace ((-1 <? ours) && (ours <? best_height cf)) with false.
      * split; reflexivity.
      * symmetry. apply andb_false_iff.
        destruct Hout as [H | H];
          [left; apply Z.ltb_ge; lia | right; apply Z.ltb_ge; lia].
Qed.

Lemma sync_blocks_skips_or_resumes_each_file_witness :
  result_of (sync_blocks mid_file_resume) = inr (Some (Some 0, 1200))
  /\ filter (concerns_file 0) (log_of (sync_blocks mid_file_resume))
     = [ERun (get_best_block_height_for_file_q 0)]
  /\ filter (concerns_file 1) (log_of (sync_blocks mid_file_resume))
     = [ERun (get_best_block_height_for_file_q 1);
        EChain (get_block_files (Some 1) (Some 601));
        ERun (sync_block_file 1 601 1300 20000)]
  /\ to_ingest mid_file_resume (mkBlockFile 1 1000 2100 699) = (400, 1300)
  /\ filter (concerns_file 2) (log_of (sync_blocks mid_file_resume))
     = [ERun (get_best_block_height_for_file_q 2);
        ERun (sync_block_file 2 0 500 20000)]
  /\ In (EProgress BLOCK_MAIN_EVENT
           (PStartBlocks 600 1800 (Some 0) 1200 2 0 0))
        (log_of (sync_blocks mid_file_resume)).
Proof.
  assert (H : forall cf,
            In cf [mkBlockFile 0 300 700 301; mkBlockFile 1 1000 2100 699;
                   mkBlockFile 2 1200 500 200] ->
            exists ours,
              db_best_block_height_for_file mid_file_resume (file_number cf)
                = inr ours
              /\ (-1 < ours < best_height cf ->
                  exists r rest,
                    chain_get_block_files mid_file_resume
                      (Some (file_number cf)) (Some (ours + 1))
                      = inr (r :: rest)
                    /\ file_number r = file_number cf)).
  { intros cf [<- | [<- | [<- | []]]].
    - exists 300. split; [reflexivity |]. cbn. lia.
    - exists 600. split; [reflexivity |]. intros _.
      exists (mkBlockFile 1 1000 1300 400), []. split; reflexivity.
    - exists (-1). split; [reflexivity |]. cbn. lia. }
  assert (Hnd : NoDup (map file_number
                         [mkBlockFile 0 300 700 301;
                          mkBlockFile 1 1000 2100 699;
                          mkBlockFile 2 1200 500 200])).
  { cbn. repeat constructor; cbn; intuition discriminate. }
  destruct (sync_blocks_skips_or_resumes_each_file mid_file_resume 1200
              [mkBlockFile 0 300 700 301; mkBlockFile 1 1000 2100 699;
               mkBlockFile 2 1200 500 200] eq_refl eq_refl Hnd H)
    as [_ Hfile].
  split; [reflexivity |]. split.
  { apply (proj1 (Hfile (mkBlockFile 0 300 700 301) 300
                    (or_introl eq_refl) eq_refl)).
    reflexivity. }
  destruct (proj1 (proj2 (Hfile (mkBlockFile 1 1000 2100 699) 600
                            (or_intror (or_introl eq_refl)) eq_refl))
              ltac:(cbn; lia) (mkBlockFile 1 1000 1300 400) [] eq_refl)
    as [H1 H2].
  split; [exact H1 |]. split; [exact H2 |]. split.
  { apply (proj2 (proj2 (Hfile (mkBlockFile 2 1200 500 200) (-1)
                           (or_intror (or_intror (or_introl eq_refl)))
                           eq_refl))).
    - discriminate.
    - left. lia. }
  vm_compute. auto 20.
Defined.

(** ** [sync_filters] and [advance] *)

Lemma sync_filters_enabled w :
  conf_spv_address_filters w = true ->
  sync_filters w =
  (inl (ValueError "Set of coroutines/Futures is empty."%string),
   [EProgress FILTER_MAIN_EVENT PEnter;
    EProgress FILTER_MAIN_EVENT (PStart 0);
    EProgress FILTER_MAIN_EVENT PExit]).
Proof. intros H. unfold sync_filters. rewrite H. reflexivity. Qed.

Lemma advance_from_raises_with_filter_task w b e0 :
  result_of (sync_filters w) = inl e0 ->
  exists e, result_of (advance_from w b) = inl e.
Proof.
  intros Hf. unfold advance_from. co_eval.
  destruct (result_of (sync_txios w b)) as [e | []]; co_eval; [eauto |].
  destruct (result_of (sync_claims w b)) as [e | cs]; co_eval; [eauto |].
  destruct (result_of (sync_supports w b)) as [e | []]; co_eval; [eauto |].
  destruct (result_of match cs with
                      | Some (i, n) => sync_channel_stats w b i n
                      | None => ret tt
                      end) as [e | []]; co_eval; [eauto |].
  cbn [sync_trends result_of ret fst]. rewrite Hf. eauto.
Qed.

(** X7.  With [spv_address_filters] switched on, [sync_filters] opens its
    progress, announces 0 blocks and raises the [ValueError] of
    [asyncio.wait], because its task list is always empty.  [advance] awaits
    that task before it emits the [BlockEvent], so with the flag on no cycle
    runs to its end and no [BlockEvent] is ever emitted. *)
Theorem filters_enabled_advance_always_raises :
  forall w : World,
    conf_spv_address_filters w = true ->
    sync_filters w =
      (inl (ValueError "Set of coroutines/Futures is empty."%string),
       [EProgress FILTER_MAIN_EVENT PEnter;
        EProgress FILTER_MAIN_EVENT (PStart 0);
        EProgress FILTER_MAIN_EVENT PExit])
    /\ (exists e, result_of (advance w) = inl e)
    /\ block_events (log_of (advance w)) = [].
Proof.
  intros w Hc. split; [now apply sync_filters_enabled |].
  assert (He : exists e, result_of (advance w) = inl e).
  { rewrite advance_result.
    destruct (result_of (sync_blocks w)) as [e | b]; [eauto |].
    apply (advance_from_raises_with_filter_task w b
             (ValueError "Set of coroutines/Futures is empty."%string)).
    now rewrite sync_filters_enabled. }
  split; [exact He |]. destruct He as [e He].
  exact (no_block_event_when_advance_raises _ _ He).
Qed.

Lemma filters_enabled_advance_always_raises_witness :
  conf_spv_address_filters cold_start_with_filters = true
  /\ result_of (advance cold_start_with_filters) =
       inl (ValueError "Set of coroutines/Futures is empty."%string)
  /\ block_events (log_of (advance cold_start_with_filters)) = [].
Proof.
  split; [reflexivity |]. split; [reflexivity |].
  apply (filters_enabled_advance_always_raises cold_start_with_filters).
  reflexivity.
Defined.

(** X8.  When the [sync_txoi] task fails after [sync_blocks] has added a
    range, [advance] raises that exception right there: the claim, support
    and channel phases are not entered (not even [has_claims] is asked), the
    filter and trend tasks it created are never awaited, and no [BlockEvent]
    is emitted. *)
Theorem txio_failure_stops_advance :
  forall (w : World) (b : height_range) (e : exn),
    result_of (sync_blocks w) = inr (Some b) ->
    snd (db_task w (sync_txoi (starts_at_zero b))) = Failed e ->
    result_of (advance w) = inl e
    /\ log_of (advance w) =
         log_of (sync_blocks w)
           ++ [ECreateTask sync_filters_co; ECreateTask sync_trends_co;
               ERun (sync_txoi (starts_at_zero b))]
    /\ block_events (log_of (advance w)) = [].
Proof.
  intros w b e Hb Hf.
  assert (Hr : result_of (sync_txios w (Some b)) = inl e).
  { unfold sync_txios. now rewrite await_db_run_result, Hf. }
  assert (Hl : log_of (sync_txios w (Some b)) =
               [ERun (sync_txoi (starts_at_zero b))]).
  { unfold sync_txios. apply await_db_run_log. }
  assert (Ha : result_of (advance w) = inl e).
  { rewrite advance_result, Hb. unfold advance_from. co_eval.
    now rewrite Hr. }
  split; [exact Ha |]. split.
  - rewrite advance_log, Hb. unfold advance_from. co_eval.
    rewrite Hr, Hl. reflexivity.
  - exact (no_block_event_when_advance_raises _ _ Ha).
Qed.

Lemma txio_failure_stops_advance_witness :
  result_of (sync_blocks cold_start_txio_fails) = inr (Some (Some 0, 9))
  /\ result_of (advance cold_start_txio_fails) = inl (Raised 2)
  /\ runs_of (log_of (advance cold_start_txio_fails)) =
       [get_best_block_height_for_file_q 0; sync_block_file 0 0 12 20000;
        sync_txoi true].
Proof.
  split; [reflexivity |].
  destruct (txio_failure_stops_advance cold_start_txio_fails (Some 0, 9)
              (Raised 2) eq_refl eq_refl) as (H1 & H2 & _).
  split; [exact H1 |]. rewrite H2. reflexivity.
Defined.

(** ** [sync_claims] *)

Lemma never_sync_claims_init f w i blocks :
  (forall c, f (ERun c) = false) ->
  (forall c, f (EChain c) = false) ->
  (forall op, f (EProgress CLAIM_INIT_EVENT op) = false) ->
  never f (sync_claims_init w i blocks).
Proof.
  intros H1 H2 H3.
  unfold sync_claims_init, distribute_unspent_txos, count_unspent_txos,
    count_abandoned_claims, count_claims_with_changed_supports,
    count_channels_with_changed_content, count_takeovers.
  repeat first
    [ apply never_chain_db; apply H2
    | apply never_emit; first [apply H1 | apply H3]
    | apply never_with_progress; [apply H3 | apply H3 |]
    | never_step ].
Qed.

(** X9.  In an incremental claim sync the planning block announces 6 steps,
    and the total announced on [CLAIM_MAIN_EVENT] is the sum of the six
    counts: channels and content claims missing or stale, abandoned claims,
    claims with changed supports, channels with changed content, and
    takeovers. *)
Theorem incremental_claims_total_is_sum_of_counts :
  forall (w : World) (b : height_range)
         (channels content delete cws cwcc tk : Z),
    db_has_claims w = inr true ->
    db_count_unspent_txos w TXO_TYPES_channel (Some b) false false true
      = inr channels ->
    db_count_unspent_txos w CONTENT_TYPE_CODES (Some b) false false true
      = inr content ->
    db_count_abandoned_claims w = inr delete ->
    db_count_claims_with_changed_supports w (Some b) = inr cws ->
    db_count_channels_with_changed_content w (Some b) = inr cwcc ->
    chain_get_takeover_count w (fst b) (snd b) = inr tk ->
    progress_totals CLAIM_MAIN_EVENT (log_of (sync_claims w (Some b)))
      = [channels + content + delete + cws + cwcc + tk]
    /\ progress_totals CLAIM_INIT_EVENT (log_of (sync_claims w (Some b)))
       = [6].
Proof.
  intros w b channels content delete cws cwcc tk Hhas H1 H2 H3 H4 H5 H6.
  destruct (sync_claims_init_incremental w b _ _ _ _ _ _ H1 H2 H3 H4 H5 H6)
    as [Hplan _].
  rewrite (sync_claims_unfold _ _ _ Hhas). co_eval. cbn [negb].
  rewrite Hplan. co_eval. split.
  - cbn [progress_totals app]. rewrite !progress_totals_app.
    rewrite (never_progress_totals CLAIM_MAIN_EVENT
               (sync_claims_init w false (Some b)))
      by (apply never_sync_claims_init; intros; try reflexivity;
          match goal with op : progress_op |- _ => destruct op end;
          reflexivity).
    rewrite sync_claims_main_totals. reflexivity.
  - cbn [progress_totals app]. rewrite !progress_totals_app.
    assert (Hmain : forall p,
      progress_totals CLAIM_INIT_EVENT
        (log_of (sync_claims_main w false (Some b) p)) = []).
    { intros p. apply never_progress_totals. unfold sync_claims_main.
      repeat first
        [ apply never_sync_claims_insertions;
            [reflexivity .. | intros; reflexivity | intros; reflexivity]
        | apply never_await_db_run; reflexivity
        | never_step ]. }
    rewrite Hmain, app_nil_r.
    unfold sync_claims_init, count_unspent_txos, count_abandoned_claims,
      count_claims_with_changed_supports, count_channels_with_changed_content,
      count_takeovers, chain_db.
    co_eval. rewrite H1. co_eval. rewrite H2. co_eval. rewrite H3. co_eval.
    rewrite H4. co_eval. rewrite H5. co_eval. rewrite H6. co_eval.
    reflexivity.
Qed.

Lemma incremental_claims_total_is_sum_of_counts_witness :
  db_has_claims incremental = inr true
  /\ progress_totals CLAIM_MAIN_EVENT
       (log_of (sync_claims incremental (Some (Some 10, 14))))
     = [0 + 1 + 0 + 1 + 1 + 0].
Proof.
  split; [reflexivity |].
  apply (incremental_claims_total_is_sum_of_counts incremental (Some 10, 14)
           0 1 0 1 1 0); reflexivity.
Defined.

Lemma filter_runs_of f l :
  filter f (runs_of l) =
  runs_of (filter (fun e => match e with ERun c => f c | _ => false end) l).
Proof.
  induction l as [| e l IH]; [reflexivity |].
  destruct e; cbn [runs_of filter]; try exact IH.
  destruct (f c); cbn [runs_of]; now rewrite IH.
Qed.

Lemma never_update_channel_stats_sync_blocks w :
  never runs_update_channel_stats (sync_blocks w).
Proof.
  unfold sync_blocks, sync_blocks_init.
  apply never_bind.
  - apply never_with_progress; [reflexivity | reflexivity |].
    apply never_bind; [apply never_chain_db; reflexivity | intros].
    apply never_bind; [apply never_chain_db; reflexivity | intros].
    apply never_bind; [apply never_emit; reflexivity | intros].
    apply never_bind; [| intros; apply never_ret].
    apply never_fold_m. intros s cf.
    unfold sync_blocks_file, get_best_block_height_for_file.
    repeat first
      [ apply never_chain_db; reflexivity
      | apply never_db_run; reflexivity
      | never_step
      | match goal with |- never _ (let _ := _ in _) => cbv zeta end ].
  - intros [s ending].
    repeat first
      [ apply never_run_tasks;
          [reflexivity | intros; reflexivity | intros; reflexivity]
      | apply never_chain_db; reflexivity
      | apply never_future_result
      | never_step ].
Qed.

Lemma never_update_channel_stats_insertions w i ins :
  never runs_update_channel_stats (sync_claims_insertions w i ins).
Proof.
  unfold sync_claims_insertions. destruct ins as [ty bs].
  repeat first
    [ apply never_run_tasks;
        [reflexivity | intros; reflexivity | intros; reflexivity]
    | apply never_db_run; reflexivity
    | never_step ].
Qed.

Lemma never_update_channel_stats_sync_claims w b :
  never runs_update_channel_stats (sync_claims w b).
Proof.
  unfold sync_claims, sync_claims_init, sync_claims_main,
    distribute_unspent_txos, count_unspent_txos, count_abandoned_claims,
    count_claims_with_changed_supports, count_channels_with_changed_content,
    count_takeovers, chain_db.
  repeat first
    [ apply never_update_channel_stats_insertions
    | apply never_for_each; intros
    | apply never_await_db_run; reflexivity
    | never_step ].
Qed.

(** The channel statistics are recomputed in [advance] when, and only when,
    the three phases before that step return and [sync_claims] returned a
    pair. *)
Lemma update_channel_stats_in_advance_from w b :
  filter runs_update_channel_stats (log_of (advance_from w (Some b))) =
  match result_of (sync_txios w (Some b)),
        result_of (sync_claims w (Some b)),
        result_of (sync_supports w (Some b)) with
  | inr _, inr (Some (i, n)), inr _ =>
      if truthy n then [ERun (update_channel_stats (Some b) i n)] else []
  | _, _, _ => []
  end.
Proof.
  unfold advance_from. co_eval. cbn [filter runs_update_channel_stats app].
  rewrite !filter_app.
  rewrite (never_filter _ (sync_txios w (Some b)))
    by (apply never_sync_txios; intros; reflexivity).
  cbn [app].
  destruct (result_of (sync_txios w (Some b))) as [e1 | []];
    co_eval; [reflexivity |].
  rewrite !filter_app.
  rewrite (never_filter _ _ (never_update_channel_stats_sync_claims w (Some b))).
  cbn [app].
  destruct (result_of (sync_claims w (Some b))) as [e2 | cs];
    co_eval; [reflexivity |].
  rewrite !filter_app.
  rewrite (never_filter _ (sync_supports w (Some b)))
    by (apply never_sync_supports; try reflexivity; try (intros; reflexivity);
        intros c Hc; destruct c; try reflexivity; discriminate).
  cbn [app].
  destruct (result_of (sync_supports w (Some b))) as [e3 | []]; co_eval.
  { destruct cs as [[i n] |]; reflexivity. }
  rewrite !filter_app.
  destruct cs as [[i n] |].
  - rewrite sync_channel_stats_log.
    destruct (truthy n) eqn:T.
    + cbn [filter runs_update_channel_stats is_update_channel_stats app].
      f_equal.
      destruct (result_of (sync_channel_stats w (Some b) i n)) as [e4 | []];
        co_eval; [reflexivity |].
      cbn [sync_trends result_of log_of ret fst snd].
      destruct (result_of (sync_filters w)) as [e5 | []]; reflexivity.
    + cbn [filter app].
      destruct (result_of (sync_channel_stats w (Some b) i n)) as [e4 | []];
        co_eval; [reflexivity |].
      cbn [sync_trends result_of log_of ret fst snd].
      destruct (result_of (sync_filters w)) as [e5 | []]; reflexivity.
  - cbn [log_of ret snd filter app sync_trends result_of fst].
    destruct (result_of (sync_filters w)) as [e5 | []]; reflexivity.
Qed.

(** X10.  In an incremental claim sync whose directly awaited tasks
    complete, [sync_claims] returns [(False, n)] when the number [n] of
    channels with changed content is nonzero and [None] otherwise, and this
    whatever becomes of the [claims_insert] and [claims_update] tasks: each
    runs alone in its [run_tasks], so its failure is never raised.  In the
    [advance] that added the range, the channel statistics are then
    recomputed, once and with the initial-sync flag off, exactly when [n] is
    nonzero, provided [sync_txios] and [sync_supports] return; when
    [sync_supports] raises, they are not recomputed at all. *)
Theorem incremental_claim_sync_flags_changed_channels :
  forall (w : World) (b : height_range)
         (channels content delete cws cwcc tk : Z),
    db_has_claims w = inr true ->
    db_count_unspent_txos w TXO_TYPES_channel (Some b) false false true
      = inr channels ->
    db_count_unspent_txos w CONTENT_TYPE_CODES (Some b) false false true
      = inr content ->
    db_count_abandoned_claims w = inr delete ->
    db_count_claims_with_changed_supports w (Some b) = inr cws ->
    db_count_channels_with_changed_content w (Some b) = inr cwcc ->
    chain_get_takeover_count w (fst b) (snd b) = inr tk ->
    (truthy delete = true -> completes w (claims_delete delete)) ->
    (truthy tk = true -> completes w (update_takeovers (Some b) tk)) ->
    (truthy cws = true -> completes w (update_stakes (Some b) cws)) ->
    result_of (sync_claims w (Some b)) =
      inr (if truthy cwcc then Some (false, cwcc) else None)
    /\ (result_of (sync_blocks w) = inr (Some b) ->
        result_of (sync_txios w (Some b)) = inr tt ->
        result_of (sync_supports w (Some b)) = inr tt ->
        filter is_update_channel_stats (runs_of (log_of (advance w))) =
          if truthy cwcc
          then [update_channel_stats (Some b) false cwcc]
          else [])
    /\ (result_of (sync_blocks w) = inr (Some b) ->
        (exists e, result_of (sync_supports w (Some b)) = inl e) ->
        filter is_update_channel_stats (runs_of (log_of (advance w))) = []).
Proof.
  intros w b channels content delete cws cwcc tk
         Hhas H1 H2 H3 H4 H5 H6 Hd Ht Hs.
  destruct (sync_claims_init_incremental w b _ _ _ _ _ _ H1 H2 H3 H4 H5 H6)
    as [Hplan _].
  assert (Hr : result_of (sync_claims w (Some b)) =
               inr (if truthy cwcc then Some (false, cwcc) else None)).
  { rewrite (sync_claims_unfold _ _ _ Hhas). co_eval. cbn [negb].
    rewrite Hplan. co_eval.
    now rewrite (sync_claims_main_incremental _ _ _ _ _ _ _ _ _ Hd Ht Hs). }
  assert (Hadv : result_of (sync_blocks w) = inr (Some b) ->
            filter is_update_channel_stats (runs_of (log_of (advance w))) =
            runs_of (filter runs_update_channel_stats
                       (log_of (advance_from w (Some b))))).
  { intros Hb. rewrite filter_runs_of, advance_log, Hb, filter_app.
    fold runs_update_channel_stats.
    now rewrite (never_filter _ _ (never_update_channel_stats_sync_blocks w)). }
  split; [exact Hr |]. split.
  - intros Hb Hx Hsup. rewrite (Hadv Hb).
    rewrite update_channel_stats_in_advance_from, Hx, Hr, Hsup.
    destruct (truthy cwcc) eqn:T; [rewrite T |]; reflexivity.
  - intros Hb [e Hsup]. rewrite (Hadv Hb).
    rewrite update_channel_stats_in_advance_from, Hsup.
    destruct (result_of (sync_txios w (Some b))) as [? | ?];
      [reflexivity |].
    destruct (result_of (sync_claims w (Some b))) as [? | [[? ?] |]];
      reflexivity.
Qed.

Lemma incremental_claim_sync_flags_changed_channels_witness :
  db_has_claims incremental_insert_fails = inr true
  /\ task_fails incremental_insert_fails
       (claims_insert CONTENT_TYPE_CODES (Some 10, 14) true) = true
  /\ result_of (sync_claims incremental_insert_fails (Some (Some 10, 14)))
     = inr (Some (false, 1))
  /\ filter is_update_channel_stats
       (runs_of (log_of (advance incremental_insert_fails)))
     = [update_channel_stats (Some (Some 10, 14)) false 1]
  /\ result_of (sync_supports incremental_support_delete_fails
                  (Some (Some 10, 14))) = inl (Raised 4)
  /\ filter is_update_channel_stats
       (runs_of (log_of (advance incremental_support_delete_fails))) = [].
Proof.
  split; [reflexivity |]. split; [reflexivity |].
  destruct (incremental_claim_sync_flags_changed_channels
              incremental_insert_fails (Some 10, 14) 0 1 0 1 1 0)
    as (Hr & Hok & _); try reflexivity; try discriminate.
  { intros _. exists 0. reflexivity. }
  split; [exact Hr |].
  split; [exact (Hok eq_refl eq_refl eq_refl) |].
  split; [reflexivity |].
  refine (proj2 (proj2 (incremental_claim_sync_flags_changed_channels
                          incremental_support_delete_fails (Some 10, 14)
                          0 1 0 1 1 0 eq_refl eq_refl eq_refl eq_refl
                          eq_refl eq_refl eq_refl _ _ _))
            eq_refl (ex_intro _ (Raised 4) eq_refl)).
  - discriminate.
  - discriminate.
  - intros _. exists 0. reflexivity.
Defined.

(** X11.  On an index that already holds claims and supports, a cycle
    without a range leaves both phases at once: [sync_claims] asks
    [has_claims], opens and closes its planning progress and returns [None];
    [sync_supports] does the same with [has_supports].  Neither runs a query
    or a task, and neither opens its main progress. *)
Theorem populated_index_without_range_does_nothing :
  forall w : World,
    db_has_claims w = inr true ->
    db_has_supports w = inr true ->
    sync_claims w None =
      (inr None,
       [EDb has_claims;
        EProgress CLAIM_INIT_EVENT PEnter; EProgress CLAIM_INIT_EVENT PExit])
    /\ sync_supports w None =
         (inr tt,
          [EDb has_supports;
           EProgress SUPPORT_INIT_EVENT PEnter;
           EProgress SUPPORT_INIT_EVENT PExit]).
Proof.
  intros w Hc Hs. split.
  - unfold sync_claims. rewrite Hc. reflexivity.
  - unfold sync_supports. rewrite Hs. reflexivity.
Qed.

Lemma populated_index_without_range_does_nothing_witness :
  db_has_claims up_to_date = inr true
  /\ runs_of (log_of (sync_claims up_to_date None)) = []
  /\ runs_of (log_of (sync_supports up_to_date None)) = [].
Proof.
  destruct (populated_index_without_range_does_nothing up_to_date
              eq_refl eq_refl) as [H1 H2].
  split; [reflexivity |]. rewrite H1, H2. split; reflexivity.
Defined.

(** ** [sync_supports] *)

(** X12.  On an initial support sync ([has_supports] is false) whose
    insertions do not fail, [sync_supports] distributes the unspent support
    TXOs, announces their number on [SUPPORT_MAIN_EVENT], and inserts each
    batch with [update_existing] false, whatever [blocks] is.  It never calls
    [p.start] on [SUPPORT_INIT_EVENT], and it deletes nothing. *)
Theorem initial_support_sync_only_inserts :
  forall (w : World) (blocks : option height_range)
         (total : Z) (batches : list height_range),
    db_has_supports w = inr false ->
    db_distribute_unspent_txos w TXO_TYPES_support None false false false
      = inr (total, batches) ->
    (forall b, task_fails w (supports_insert b false) = false) ->
    sync_supports w blocks =
    (inr tt,
     [EDb has_supports;
      EProgress SUPPORT_INIT_EVENT PEnter;
      ERun (distribute_unspent_txos_q TXO_TYPES_support None false false false);
      EProgress SUPPORT_INIT_EVENT PExit;
      EProgress SUPPORT_MAIN_EVENT PEnter;
      EProgress SUPPORT_MAIN_EVENT (PStart total)]
       ++ match batches with
          | [] => []
          | _ :: _ =>
              map (fun b => ERun (supports_insert b false)) batches
                ++ [EWaitReturned
                      (map (fun b => supports_insert b false) batches) []]
          end
       ++ [EProgress SUPPORT_MAIN_EVENT PExit]).
Proof.
  intros w blocks total batches Hhas Hd Hok.
  assert (Hins :
    (if negb (is_empty batches)
     then inserts <- map_m (fun batch =>
                       db_run w (supports_insert batch false))
                     batches ;;
          _ <- run_tasks w inserts ;; ret tt
     else ret tt) =
    (inr tt,
     match batches with
     | [] => []
     | _ :: _ =>
         map (fun b => ERun (supports_insert b false)) batches
           ++ [EWaitReturned
                 (map (fun b => supports_insert b false) batches) []]
     end)).
  { destruct batches as [| b bs]; [reflexivity |].
    cbn [is_empty negb]. rewrite map_m_db_run.
    rewrite (bind_ok _ _ _ _ eq_refl).
    rewrite run_tasks_no_failure.
    - rewrite map_map. reflexivity.
    - discriminate.
    - intros f Hf. apply in_map_iff in Hf. destruct Hf as (b' & <- & _).
      apply Hok. }
  rewrite (M_eta (sync_supports w blocks)).
  unfold sync_supports, distribute_unspent_txos.
  co_eval. rewrite Hhas. co_eval. cbn [negb]. co_eval.
  rewrite Hd. co_eval.
  cbn [supports_total support_batches delete_supports].
  change (truthy 0) with false. cbn iota.
  rewrite Hins. co_eval. cbn [app]. rewrite <- ?app_assoc. reflexivity.
Qed.

Lemma initial_support_sync_only_inserts_witness :
  db_has_supports cold_start = inr false
  /\ runs_of (log_of (sync_supports cold_start (Some (Some 0, 9)))) =
       [distribute_unspent_txos_q TXO_TYPES_support None false false false;
        supports_insert (Some 0, 9) false].
Proof.
  split; [reflexivity |].
  rewrite (initial_support_sync_only_inserts cold_start (Some (Some 0, 9))
             1 [(Some 0, 9)]);
    [reflexivity | reflexivity | reflexivity | intros; reflexivity].
Defined.

(** X13.  In an incremental support sync over the range [b], the total
    announced is the number of supports missing in the range plus the number
    of abandoned supports; the range is inserted, with [update_existing]
    true, exactly when the first number is nonzero, and [supports_delete]
    runs after it exactly when the second is nonzero.  A failure of the
    insertion is never raised, the task being alone in its [run_tasks]; a
    failure of the deletion is. *)
Theorem incremental_support_sync :
  forall (w : World) (b : height_range) (missing abandoned : Z),
    db_has_supports w = inr true ->
    db_count_unspent_txos w TXO_TYPES_support (Some b) true false false
      = inr missing ->
    db_count_abandoned_supports w = inr abandoned ->
    log_of (sync_supports w (Some b)) =
      [EDb has_supports;
       EProgress SUPPORT_INIT_EVENT PEnter;
       EProgress SUPPORT_INIT_EVENT (PStart 2);
       ERun (count_unspent_txos_q TXO_TYPES_support (Some b) true false false);
       EProgress SUPPORT_INIT_EVENT PStep;
       ERun count_abandoned_supports_q;
       EProgress SUPPORT_INIT_EVENT PStep;
       EProgress SUPPORT_INIT_EVENT PExit;
       EProgress SUPPORT_MAIN_EVENT PEnter;
       EProgress SUPPORT_MAIN_EVENT (PStart (missing + abandoned))]
        ++ (if truthy missing
            then [ERun (supports_insert b true);
                  EWaitReturned [supports_insert b true] []]
            else [])
        ++ (if truthy abandoned
            then [ERun (supports_delete abandoned)]
            else [])
        ++ [EProgress SUPPORT_MAIN_EVENT PExit]
    /\ result_of (sync_supports w (Some b)) =
         if truthy abandoned
         then match snd (db_task w (supports_delete abandoned)) with
              | Finished _ => inr tt
              | Failed e => inl e
              | Cancelled => inl CancelledError
              end
         else inr tt.
Proof.
  intros w b missing abandoned Hhas Hm Ha.
  assert (Hins : forall n,
    (if negb (is_empty (if truthy n then [b] else []))
     then inserts <- map_m (fun batch =>
                       db_run w (supports_insert batch true))
                     (if truthy n then [b] else []) ;;
          _ <- run_tasks w inserts ;; ret tt
     else ret tt) =
    (inr tt,
     if truthy n
     then [ERun (supports_insert b true);
           EWaitReturned [supports_insert b true] []]
     else [])).
  { intros n. destruct (truthy n); [| reflexivity].
    cbn [is_empty negb map_m]. rewrite db_run_eq.
    cbn [bind ret app]. rewrite run_tasks_single. reflexivity. }
  unfold sync_supports, count_unspent_txos, count_abandoned_supports.
  split.
  - co_eval. rewrite Hhas. co_eval. cbn [negb]. co_eval.
    rewrite Hm. co_eval. rewrite Ha. co_eval.
    cbn [supports_total support_batches delete_supports].
    rewrite Hins. co_eval.
    destruct (truthy abandoned); [rewrite await_db_run_log |];
      co_eval; cbn [app]; rewrite <- ?app_assoc; reflexivity.
  - co_eval. rewrite Hhas. co_eval. cbn [negb]. co_eval.
    rewrite Hm. co_eval. rewrite Ha. co_eval.
    cbn [supports_total support_batches delete_supports].
    rewrite Hins. co_eval.
    destruct (truthy abandoned); [| reflexivity].
    apply await_db_run_result.
Qed.

Lemma incremental_support_sync_witness :
  db_has_supports incremental_support_insert_fails = inr true
  /\ task_fails incremental_support_insert_fails
       (supports_insert (Some 10, 14) true) = true
  /\ runs_of (log_of (sync_supports incremental_support_insert_fails
                        (Some (Some 10, 14)))) =
       [count_unspent_txos_q TXO_TYPES_support (Some (Some 10, 14))
          true false false;
        count_abandoned_supports_q;
        supports_insert (Some 10, 14) true;
        supports_delete 1]
  /\ result_of (sync_supports incremental_support_insert_fails
                  (Some (Some 10, 14))) = inr tt.
Proof.
  destruct (incremental_support_sync incremental_support_insert_fails
              (Some 10, 14) 1 1 eq_refl eq_refl eq_refl) as [Hl Hr].
  split; [reflexivity |]. split; [reflexivity |].
  split.
  - etransitivity; [apply f_equal; exact Hl | reflexivity].
  - etransitivity; [exact Hr | reflexivity].
Defined.

(** ** [start], [stop] and the loop *)



(** A cycle that runs to its end has added a range and emitted its one
    [BlockEvent]. *)
Lemma advance_complete_block_event w :
  result_of (advance w) = inr tt ->
  exists b,
    result_of (sync_blocks w) = inr (Some b)
    /\ block_events (log_of (advance w)) = [snd b].
Proof.
  intros Ha. pose proof Ha as Ha'. rewrite advance_result in Ha'.
  destruct (result_of (sync_blocks w)) as [e | [b |]] eqn:Hb;
    [discriminate | | now destruct (sync_blocks_never_none w)].
  exists b. split; [reflexivity |].
  rewrite advance_log, Hb, (advance_from_complete _ _ Ha').
  rewrite !block_events_app.
  rewrite (never_block_events _ (no_block_event_sync_blocks w)).
  rewrite (never_block_events (sync_txios w (Some b)))
    by (apply never_sync_txios; intros; reflexivity).
  rewrite (never_block_events _ (no_block_event_sync_claims w (Some b))).
  rewrite (never_block_events (sync_supports w (Some b)))
    by (apply never_sync_supports; intros; reflexivity).
  rewrite no_block_event_channel_stats_log. reflexivity.
Qed.

(** X15.  When [start] succeeds, its first [advance()] has added a range and
    emitted exactly one [BlockEvent], at the end of that range; the loop task
    is suspended in [wait()] on a clear event with the listener in place, the
    stop event is not set, and no cycle of the loop has begun. *)
Theorem start_leaves_loop_waiting :
  forall (w : World) (s : loop_state),
    start w = inr s ->
    (exists b, result_of (sync_blocks w) = inr (Some b)
               /\ block_events (trace s) = [snd b])
    /\ trace s = log_of (advance w)
    /\ pc s = Waiting
    /\ advance_loop_event s = false
    /\ on_block_subscription s = Some true
    /\ stop_event s = false
    /\ cycles s = 0%nat.
Proof.
  intros w s. unfold start.
  destruct (result_of (advance w)) as [e | []] eqn:Ha; [discriminate |].
  intros [= <-]. cbn [trace pc advance_loop_event on_block_subscription
                      stop_event cycles].
  split; [exact (advance_complete_block_event w Ha) |]. repeat split.
Qed.

Lemma start_leaves_loop_waiting_witness :
  start cold_start =
    inr (mkLoop false (Some true) false false Waiting 0
                (log_of (advance cold_start)))
  /\ block_events (log_of (advance cold_start)) = [9].
Proof.
  split; [reflexivity |].
  destruct (start_leaves_loop_waiting cold_start
              (mkLoop false (Some true) false false Waiting 0
                      (log_of (advance cold_start))) eq_refl)
    as ((b & Hb & He) & _).
  assert (E : b = (Some 0, 9)).
  { assert (H : result_of (sync_blocks cold_start) = inr (Some (Some 0, 9)))
      by reflexivity.
    rewrite H in Hb. now injection Hb as <-. }
  rewrite E in He. exact He.
Defined.

Lemma cycles_owed_step s i :
  (cycles_owed (advance_loop_step s i) <=
   cycles_owed s + match i with OnBlock => 1 | _ => 0 end)%nat.
Proof.
  unfold cycles_owed, advance_loop_step, after_advance.
  destruct s as [ev sub stp cr p n tr].
  destruct p, i; cbn -[advance];
    try (destruct sub as [[|] |]; cbn -[advance]);
    try (destruct (result_of (advance w)) as [[| | |] | []]; cbn -[advance]);
    destruct ev, cr; cbn -[advance]; lia.
Qed.

(** X16.  The loop never begins more cycles than it was notified of: after
    any sequence of inputs, the number of cycles begun is at most the number
    before, plus one if the event was already set, plus the number of block
    notifications among the inputs. *)
Theorem cycles_bounded_by_notifications :
  forall (s : loop_state) (ins : list input),
    (cycles (advance_loop s ins) <=
     cycles s + (if advance_loop_event s then 1 else 0)
       + count_on_block ins)%nat.
Proof.
  intros s ins.
  assert (H : (cycles_owed (advance_loop s ins) <=
               cycles_owed s + count_on_block ins)%nat).
  { revert s. induction ins as [| i ins IH]; intros s.
    - cbn. lia.
    - cbn [advance_loop fold_left].
      fold (advance_loop (advance_loop_step s i) ins).
      specialize (IH (advance_loop_step s i)).
      pose proof (cycles_owed_step s i) as Hs.
      destruct i; cbn [count_on_block]; lia. }
  unfold cycles_owed in H. lia.
Qed.






(** ** The stop event and the end of a cycle *)

Lemma never_stop_event_not_in {A} (m : M A) :
  never (fun e => match e with EStopEventSet => true | _ => false end) m ->
  ~ In EStopEventSet (log_of m).
Proof.
  unfold never. intros H Hin.
  rewrite Forall_forall in H. specialize (H _ Hin). discriminate.
Qed.

Lemma quiet_never {A} (m : M A) :
  never (fun e => match e with EStopEventSet => true | _ => false end) m ->
  quiet m.
Proof. intros H a _. now apply never_stop_event_not_in. Qed.

Lemma quiet_bind {A B} (m : M A) (k : A -> M B) :
  quiet m -> (forall a, quiet (k a)) -> quiet (bind m k).
Proof.
  intros Hm Hk b Hb. rewrite log_bind. rewrite result_bind in Hb.
  destruct (result_of m) as [e | a] eqn:E; [discriminate |].
  intros Hin. apply in_app_or in Hin. destruct Hin as [Hin | Hin].
  - exact (Hm a E Hin).
  - exact (Hk a b Hb Hin).
Qed.

Lemma quiet_with_progress {A} ev (m : M A) :
  quiet m -> quiet (with_progress ev m).
Proof.
  intros Hm a Ha. rewrite with_progress_result in Ha.
  rewrite with_progress_log. intros [Hin | Hin]; [discriminate |].
  apply in_app_or in Hin. destruct Hin as [Hin | [Hin | []]];
    [exact (Hm a Ha Hin) | discriminate].
Qed.

Lemma quiet_for_each {A} (g : A -> M unit) xs :
  (forall x, quiet (g x)) -> quiet (for_each g xs).
Proof.
  intros Hg. induction xs as [| x xs IH]; cbn [for_each].
  - apply quiet_never, never_ret.
  - apply quiet_bind; [apply Hg | intros _; exact IH].
Qed.

Lemma quiet_map_m {A B} (g : A -> M B) xs :
  (forall x, quiet (g x)) -> quiet (map_m g xs).
Proof.
  intros Hg. induction xs as [| x xs IH]; cbn [map_m].
  - apply quiet_never, never_ret.
  - apply quiet_bind; [apply Hg | intros y].
    apply quiet_bind; [exact IH | intros ys; apply quiet_never, never_ret].
Qed.

Lemma quiet_fold_m {A S} (g : S -> A -> M S) xs s :
  (forall s x, quiet (g s x)) -> quiet (fold_m g xs s).
Proof.
  intros Hg. revert s. induction xs as [| x xs IH]; intros s; cbn [fold_m].
  - apply quiet_never, never_ret.
  - apply quiet_bind; [apply Hg | intros s'; apply IH].
Qed.

(** [run_tasks] sets the stop event only on the path that raises. *)
Lemma quiet_run_tasks w fs : quiet (run_tasks w fs).
Proof.
  intros r Hr. destruct (run_tasks_returns _ _ _ Hr) as [_ Heq].
  rewrite Heq. intros [Hin | []]. discriminate.
Qed.

Ltac quiet_leaf :=
  apply quiet_never;
  first
    [ apply never_db_run; reflexivity
    | apply never_await_db_run; reflexivity
    | apply never_chain_db; reflexivity
    | apply never_future_result
    | solve [never_solve] ].

Ltac quiet_step :=
  match goal with
  | |- quiet (bind _ _) => apply quiet_bind; [| intros]
  | |- quiet (with_progress _ _) => apply quiet_with_progress
  | |- quiet (for_each _ _) => apply quiet_for_each; intros
  | |- quiet (map_m _ _) => apply quiet_map_m; intros
  | |- quiet (fold_m _ _ _) => apply quiet_fold_m; intros
  | |- quiet (run_tasks _ _) => apply quiet_run_tasks
  | |- quiet (if ?b then _ else _) => destruct b
  | |- quiet (match ?x with _ => _ end) => destruct x
  | |- quiet (let _ := _ in _) => cbv zeta
  | |- quiet _ => quiet_leaf
  end.

Lemma quiet_advance w : quiet (advance w).
Proof.
  unfold advance, advance_from, sync_blocks, sync_blocks_init,
    sync_blocks_file, get_best_block_height_for_file, sync_txios,
    sync_claims, sync_claims_init, sync_claims_main, sync_claims_insertions,
    sync_supports, sync_channel_stats, distribute_unspent_txos,
    count_unspent_txos, count_abandoned_claims, count_abandoned_supports,
    count_claims_with_changed_supports, count_channels_with_changed_content,
    count_takeovers, create_task, await_task, sync_trends.
  repeat quiet_step.
Qed.

(** X28.  A cycle that returns has not set the stop event of the database:
    [run_tasks] sets it only on the path on which it raises, and nothing in
    [advance] catches that exception.  So a cycle of the loop that ends
    normally leaves the stop event as it was, and after a successful [start]
    the stop event has not been set. *)
Theorem returning_cycle_leaves_stop_event :
  forall w : World,
    result_of (advance w) = inr tt ->
    ~ In EStopEventSet (log_of (advance w))
    /\ (forall s : loop_state,
          pc s = Running ->
          stop_event (advance_loop_step s (AdvanceCompletes w))
          = stop_event s)
    /\ (forall s : loop_state,
          start w = inr s ->
          stop_event s = false /\ ~ In EStopEventSet (trace s)).
Proof.
  intros w Hw.
  assert (Hq : ~ In EStopEventSet (log_of (advance w)))
    by exact (quiet_advance w tt Hw).
  assert (Hs : sets_stop_event (log_of (advance w)) = false).
  { destruct (sets_stop_event (log_of (advance w))) eqn:E; [| reflexivity].
    apply sets_stop_event_In in E. contradiction. }
  split; [exact Hq |]. split.
  - intros s Hp. unfold advance_loop_step, after_advance. rewrite Hp, Hw.
    unfold loop_top, add_cycle.
    cbn -[advance sets_stop_event]. rewrite Hs, orb_false_r.
    destruct (advance_loop_event s), (cancel_requested s); reflexivity.
  - intros s. unfold start. rewrite Hw. intros [= <-].
    split; [reflexivity | exact Hq].
Qed.

Lemma returning_cycle_leaves_stop_event_witness :
  result_of (advance cold_start) = inr tt
  /\ ~ In EStopEventSet (log_of (advance cold_start))
  /\ stop_event (advance_loop_step (in_cycle 1 [])
                   (AdvanceCompletes cold_start)) = false.
Proof.
  split; [reflexivity |].
  destruct (returning_cycle_leaves_stop_event cold_start eq_refl)
    as (H1 & H2 & _).
  split; [exact H1 |]. exact (H2 (in_cycle 1 []) eq_refl).
Defined.

(** ** Failures in the claim phase *)

Lemma never_runs_of {A} (m : M A) :
  never (fun e => match e with ERun _ => true | _ => false end) m ->
  runs_of (log_of m) = [].
Proof.
  unfold never. induction 1 as [| e l He _ IH]; [reflexivity |].
  destruct e; simpl in *; try exact IH. discriminate.
Qed.

(** X18.  In an initial claim sync, when the insertion of one channel batch
    fails while the insertion of another channel batch is still running,
    [sync_claims] sets the stop event, cancels the running insertion and
    raises; no content insertion is submitted, and the main progress is
    closed. *)
Theorem initial_claim_sync_fails_fast :
  forall (w : World) (blocks : option height_range)
         (channels content : Z) (cb ctb : list height_range)
         (failing running : height_range),
    db_has_claims w = inr false ->
    db_distribute_unspent_txos w TXO_TYPES_channel None false false false
      = inr (channels, cb) ->
    db_distribute_unspent_txos w CONTENT_TYPE_CODES None false false false
      = inr (content, ctb) ->
    In failing cb -> In running cb ->
    task_fails w (claims_insert TXO_TYPES_channel failing false) = true ->
    (fst (db_task w (claims_insert TXO_TYPES_channel failing false)) <
     fst (db_task w (claims_insert TXO_TYPES_channel running false)))%nat ->
    (exists e, result_of (sync_claims w blocks) = inl e)
    /\ In EStopEventSet (log_of (sync_claims w blocks))
    /\ In (ECancelFuture (claims_insert TXO_TYPES_channel running false))
          (log_of (sync_claims w blocks))
    /\ filter (is_claims_insert_of CONTENT_TYPE_CODES)
         (runs_of (log_of (sync_claims w blocks))) = []
    /\ In (EProgress CLAIM_MAIN_EVENT PExit) (log_of (sync_claims w blocks)).
Proof.
  intros w blocks channels content cb ctb failing running
         Hhas Hch Hct Hf Hr Hfail Hlt.
  set (ins := map (fun x => future_of w (claims_insert TXO_TYPES_channel x false)) cb).
  destruct (run_tasks_raises_when_one_fails w ins
              (future_of w (claims_insert TXO_TYPES_channel failing false))
              (future_of w (claims_insert TXO_TYPES_channel running false)))
    as (e & He & Hs & Hc).
  { apply in_map_iff. eauto. }
  { exact Hfail. }
  { apply in_map_iff. eauto. }
  { exact Hlt. }
  assert (Hne : cb <> []) by (intros ->; contradiction).
  assert (Hins : sync_claims_insertions w true (TXO_TYPES_channel, cb) =
                 (inl e,
                  map (fun b => ERun (claims_insert TXO_TYPES_channel b false)) cb
                    ++ log_of (run_tasks w ins))).
  { unfold sync_claims_insertions.
    destruct cb as [| b0 bs]; [contradiction |].
    cbn [is_empty negb]. rewrite map_m_db_run.
    rewrite (bind_ok _ _ _ _ eq_refl). fold ins.
    rewrite (M_eta (run_tasks w ins)), He. reflexivity. }
  assert (E : sync_claims w blocks =
    (inl e,
     EDb has_claims
       :: [EProgress CLAIM_INIT_EVENT PEnter;
           EProgress CLAIM_INIT_EVENT (PStart 2);
           ERun (distribute_unspent_txos_q TXO_TYPES_channel None false false false);
           EProgress CLAIM_INIT_EVENT PStep;
           ERun (distribute_unspent_txos_q CONTENT_TYPE_CODES None false false false);
           EProgress CLAIM_INIT_EVENT PStep;
           EProgress CLAIM_INIT_EVENT PExit]
       ++ EProgress CLAIM_MAIN_EVENT PEnter
       :: EProgress CLAIM_MAIN_EVENT (PStart (0 + (channels + channels) + content))
       :: (map (fun b => ERun (claims_insert TXO_TYPES_channel b false)) cb
             ++ log_of (run_tasks w ins))
       ++ [EProgress CLAIM_MAIN_EVENT PExit])).
  { rewrite (sync_claims_unfold _ _ _ Hhas). cbn [bind ret negb app].
    rewrite (bind_ok _ _ _ _ (sync_claims_init_initial w blocks _ _ _ _ Hch Hct)).
    rewrite (M_eta (sync_claims_main _ _ _ _)). unfold sync_claims_main.
    cbn [total channel_batches content_batches delete_claims takeovers
         claims_with_changed_supports channels_with_changed_content for_each].
    rewrite Hins. co_eval. cbn [app]. rewrite <- ?app_assoc. reflexivity. }
  rewrite E. cbn [result_of log_of fst snd].
  split; [eauto |]. split.
  { right. apply in_or_app. right. right. right.
    apply in_or_app. left. apply in_or_app. now right. }
  split.
  { right. apply in_or_app. right. right. right.
    apply in_or_app. left. apply in_or_app. now right. }
  split.
  { cbn [app runs_of filter is_claims_insert_of].
    rewrite !runs_of_app, !filter_app. cbn [runs_of filter app].
    rewrite app_nil_r.
    assert (H1 : filter (is_claims_insert_of CONTENT_TYPE_CODES)
                   (runs_of (map (fun b => ERun (claims_insert TXO_TYPES_channel b false)) cb))
                 = []).
    { clear. induction cb as [| b bs IH]; [reflexivity | exact IH]. }
    assert (H2 : runs_of (log_of (run_tasks w ins)) = [])
      by (apply never_runs_of, never_run_tasks; intros; reflexivity).
    now rewrite H1, H2. }
  right. apply in_or_app. right. right. right.
  apply in_or_app. right. now left.
Qed.

Lemma initial_claim_sync_fails_fast_witness :
  db_has_claims cold_start_channel_insert_fails = inr false
  /\ result_of (sync_claims cold_start_channel_insert_fails None)
     = inl (Raised 5)
  /\ In (ECancelFuture (claims_insert TXO_TYPES_channel (Some 5, 9) false))
        (log_of (sync_claims cold_start_channel_insert_fails None)).
Proof.
  split; [reflexivity |]. split; [reflexivity |].
  apply (initial_claim_sync_fails_fast cold_start_channel_insert_fails None
           2 3 [(Some 0, 4); (Some 5, 9)] [(Some 0, 9)] (Some 0, 4) (Some 5, 9));
    try reflexivity.
  - now left.
  - right. now left.
  - cbn. lia.
Defined.

(** ** What [sync_claims] hands to [sync_channel_stats] *)

Lemma result_bind_inr {A B} (m : M A) (k : A -> M B) b :
  result_of (bind m k) = inr b ->
  exists a, result_of m = inr a /\ result_of (k a) = inr b.
Proof.
  rewrite result_bind. destruct (result_of m) as [e | a]; [discriminate |].
  eauto.
Qed.

(** X19.  Whenever [sync_claims] returns a pair, its count is nonzero and
    its flag is the negation of what [has_claims] answered.  So the guard of
    [sync_channel_stats] (line 298) never skips when it is called with that
    pair, as [advance] does: [update_channel_stats] is always submitted. *)
Theorem sync_claims_stats_are_never_skipped :
  forall (w : World) (blocks : option height_range) (i : bool) (n : Z),
    result_of (sync_claims w blocks) = inr (Some (i, n)) ->
    n <> 0
    /\ db_has_claims w = inr (negb i)
    /\ log_of (sync_channel_stats w blocks i n)
       = [ERun (update_channel_stats blocks i n)].
Proof.
  intros w blocks i n H.
  assert (G : truthy n = true /\ db_has_claims w = inr (negb i)).
  { unfold sync_claims in H.
    apply result_bind_inr in H. destruct H as (has & Hhas & H).
    apply result_bind_inr in Hhas. destruct Hhas as (_ & _ & Hhas).
    apply result_bind_inr in H. destruct H as ([p |] & _ & H);
      [| discriminate].
    unfold sync_claims_main in H. rewrite with_progress_result in H.
    repeat (apply result_bind_inr in H; destruct H as (_ & _ & H)).
    destruct (truthy (channels_with_changed_content p)) eqn:T;
      [| discriminate].
    injection H as Hi Hn. subst n.
    split; [exact T |].
    unfold lift in Hhas. cbn in Hhas.
    destruct (db_has_claims w) as [e | h]; [discriminate |].
    injection Hhas as ->. rewrite <- Hi. now rewrite negb_involutive. }
  destruct G as (T & Hh).
  split.
  { intros ->. discriminate. }
  split; [exact Hh |].
  now rewrite sync_channel_stats_log, T.
Qed.

Lemma sync_claims_stats_are_never_skipped_witness :
  result_of (sync_claims cold_start None) = inr (Some (true, 2))
  /\ 2 <> 0
  /\ log_of (sync_channel_stats cold_start None true 2)
     = [ERun (update_channel_stats None true 2)].
Proof.
  split; [reflexivity |].
  destruct (sync_claims_stats_are_never_skipped cold_start None true 2
              eq_refl) as (H1 & _ & H3).
  split; [exact H1 | exact H3].
Defined.

(** * [ManagedEncryptedFileDownloader]

    From here on [stop], [start], [status] and the like are the methods of
    the downloader. *)
Import ManagedEncryptedFileDownloader.

Ltac dl_unfold :=
  unfold outcome_of, object_of, calls_of, dbind, yield, yield_self, assign,
    self, dret, draise in *.

Ltac dl_cases :=
  repeat match goal with
         | |- context [match ?x with _ => _ end] => destruct x eqn:?
         | H : context [match ?x with _ => _ end] |- _ => destruct x eqn:?
         end.

Lemma _save_status_run c d :
  _save_status c d =
  (change_lbry_file_status c (set_saving_status true d) (status_to_save d),
   set_saving_status
     (match change_lbry_file_status c (set_saving_status true d)
              (status_to_save d) with
      | inl _ => true
      | inr _ => false
      end) d,
   [call_change_lbry_file_status (status_to_save d)]).
Proof.
  unfold _save_status. dl_unfold. cbn.
  change (status_to_save (set_saving_status true d)) with (status_to_save d).
  destruct (change_lbry_file_status c (set_saving_status true d)
              (status_to_save d)); reflexivity.
Qed.

(** X20.  [stop] called with [change_status] other than [True] never
    succeeds: when the inherited [stop] fails, so does it; when the
    inherited [stop] succeeds, the unbound local [status] raises
    [UnboundLocalError].  The status is not saved either way. *)
Theorem stop_without_status_change_always_fails :
  forall (c : collaborators) (err : option error) (d : downloader),
    outcome_of (stop c err false d) =
      match fst (EncryptedFileDownloader_stop c err d) with
      | inl e => inl e
      | inr _ => inl (UnboundLocalError "status")
      end
    /\ object_of (stop c err false d)
       = snd (EncryptedFileDownloader_stop c err d)
    /\ calls_of (stop c err false d)
       = [call_EncryptedFileDownloader_stop err].
Proof.
  intros c err d. unfold stop. dl_unfold.
  destruct (EncryptedFileDownloader_stop c err d) as [[e | []] d'];
    cbn; repeat split; reflexivity.
Qed.

(** X21.  [_save_status] touches nothing of the object but the
    [_saving_status] flag, sends the manager one status, and leaves the flag
    raised exactly when the manager's call failed: the line that lowers it
    is not reached. *)
Theorem save_status_leaves_flag_up_on_failure :
  forall (c : collaborators) (d : downloader),
    (saving_status (object_of (_save_status c d)) = true
     <-> exists e, outcome_of (_save_status c d) = inl e)
    /\ set_saving_status false (object_of (_save_status c d))
       = set_saving_status false d
    /\ calls_of (_save_status c d)
       = [call_change_lbry_file_status (status_to_save d)].
Proof.
  intros c d. rewrite _save_status_run. unfold outcome_of, object_of, calls_of.
  cbn [fst snd].
  destruct (change_lbry_file_status c (set_saving_status true d)
              (status_to_save d)) as [e | v]; cbn.
  - repeat split; eauto.
  - repeat split; try discriminate. intros [e He]. discriminate.
Qed.

(** X22.  [stop] with [change_status=True]: the status saved describes the
    object as the inherited [stop] left it, and what [stop] returns is the
    manager's reply, not that status. *)
Theorem stop_saves_status_after_inherited_stop :
  forall (c : collaborators) (err : option error) (d d1 : downloader)
         (reply : pyval),
    EncryptedFileDownloader_stop c err d = (inr tt, d1) ->
    change_lbry_file_status c (set_saving_status true d1) (status_to_save d1)
      = inr reply ->
    stop c err true d =
      (inr reply, set_saving_status false d1,
       [call_EncryptedFileDownloader_stop err;
        call_change_lbry_file_status (status_to_save d1)]).
Proof.
  intros c err d d1 reply Hs Hm. unfold stop.
  unfold dbind at 1. unfold yield_self. rewrite Hs. cbn [fst snd].
  unfold dbind at 1. unfold dbind at 1.
  rewrite _save_status_run, Hm. reflexivity.
Qed.

Lemma stop_saves_status_after_inherited_stop_witness :
  stop (answering "running" (inr PyNone)) None true running_download =
    (inr PyNone, running_download,
     [call_EncryptedFileDownloader_stop None;
      call_change_lbry_file_status STATUS_RUNNING]).
Proof.
  apply (stop_saves_status_after_inherited_stop
           (answering "running" (inr PyNone)) None
           running_download running_download PyNone);
    reflexivity.
Defined.

Lemma known_hashes_length blobs :
  (length (known_hashes blobs) <= length blobs)%nat.
Proof.
  induction blobs as [| [[h |] p] bs IH]; cbn; lia.
Qed.

(** X23.  The report of [status] and the status [_save_status] sends name
    the same state differently once the download is complete: the report
    says "completed" where the saved status is "finished"; otherwise they
    agree.  The report counts as known at most the blobs of the stream, and
    [status] leaves the object as it was. *)
Theorem status_report_and_saved_status :
  forall (c : collaborators) (d : downloader)
         (r : EncryptedFileStatusReport),
    outcome_of (status c d) = inr r ->
    (running_status r = status_to_save d <-> completed d = false)
    /\ (completed d = true ->
        running_status r = "completed"%string
        /\ status_to_save d = STATUS_FINISHED)
    /\ name r = file_name d
    /\ (exists blobs,
          get_blobs_for_stream c (stream_hash d) = inr blobs
          /\ (num_known r <= length blobs)%nat)
    /\ object_of (status c d) = d.
Proof.
  intros c d r H. unfold status in *. dl_unfold. cbn in *.
  destruct (get_blobs_for_stream c (stream_hash d)) as [e | blobs];
    [discriminate |].
  cbn in *.
  destruct (completed_blobs c (known_hashes blobs)) as [e | done];
    [discriminate |].
  cbn in *. injection H as <-. cbn.
  unfold status_to_save.
  split.
  { destruct (completed d), (stopped d); cbn; split; intros;
      congruence || reflexivity || discriminate. }
  split.
  { intros ->. split; reflexivity. }
  split; [reflexivity |].
  split; [| reflexivity].
  exists blobs. split; [reflexivity | apply known_hashes_length].
Qed.

Lemma status_report_and_saved_status_witness :
  outcome_of (status (answering "finished" (inr PyNone)) finished_download)
    = inr (mkReport "file.bin" 1 2 "completed")
  /\ running_status (mkReport "file.bin" 1 2 "completed")
     = "completed"%string
  /\ status_to_save finished_download = STATUS_FINISHED.
Proof.
  split; [reflexivity |].
  apply (proj1 (proj2 (status_report_and_saved_status
                         (answering "finished" (inr PyNone))
                         finished_download
                         (mkReport "file.bin" 1 2 "completed") eq_refl))).
  reflexivity.
Defined.

(** The object once [restore] has looked up the claim. *)
Lemma restore_run c d h rest u t n cid st :
  _get_sd_blob_hashes_for_stream c (stream_hash d) = inr (h :: rest) ->
  get_claim_metadata_for_sd_hash c h = inr (Some (u, t, n)) ->
  get_claimid c u t n = inr cid ->
  get_lbry_file_status c
    (set_claim_id (Some cid) (set_claim u t n (set_sd_hash (Some h) d)))
    = inr st ->
  let d1 := set_claim_id (Some cid) (set_claim u t n (set_sd_hash (Some h) d)) in
  let l1 := [call__get_sd_blob_hashes_for_stream (stream_hash d);
             call_get_claim_metadata_for_sd_hash h;
             call_get_claimid u t n;
             call_get_lbry_file_status] in
  restore c d =
    if String.eqb st STATUS_RUNNING then
      (match fst (start c d1) with
       | inl e => inl e
       | inr _ => inr PyNone
       end, snd (start c d1), l1 ++ [call_start])
    else if String.eqb st STATUS_STOPPED then (inr (PyBool false), d1, l1)
    else if String.eqb st STATUS_FINISHED then
      (inr (PyBool true), set_completed true d1, l1)
    else
      (inl (Exception ["Unknown status for stream %s: %s"%string;
                       stream_hash d; st]), d1, l1).
Proof.
  intros H1 H2 H3 H4 d1 l1. unfold restore. dl_unfold.
  rewrite H1. cbv beta iota. rewrite H2. cbv beta iota.
  rewrite H3. cbv beta iota. rewrite H4. cbv beta iota. subst d1 l1.
  destruct (String.eqb st STATUS_RUNNING);
    [| destruct (String.eqb st STATUS_STOPPED);
       [| destruct (String.eqb st STATUS_FINISHED)]];
    cbv beta iota; try reflexivity.
  destruct (start c _) as [[e | []] d2]; reflexivity.
Qed.

(** X24.  [restore] succeeds only when the stream has an sd hash, the
    wallet knows its claim and the claim id, and the manager's status is one
    of the three known ones.  It returns [None] after a successful [start]
    on "running", [False] on "stopped" and [True], with [completed] set, on
    "finished"; it never returns anything else and makes no call of its own
    to change the status. *)
Theorem restore_succeeds_only_on_a_known_status :
  forall (c : collaborators) (d d' : downloader) (v : pyval) (l : list call),
    restore c d = (inr v, d', l) ->
    exists h rest u t n cid st,
      _get_sd_blob_hashes_for_stream c (stream_hash d) = inr (h :: rest)
      /\ get_claim_metadata_for_sd_hash c h = inr (Some (u, t, n))
      /\ get_claimid c u t n = inr cid
      /\ get_lbry_file_status c
           (set_claim_id (Some cid)
              (set_claim u t n (set_sd_hash (Some h) d))) = inr st
      /\ match v with
         | PyNone =>
             st = STATUS_RUNNING
             /\ start c (set_claim_id (Some cid)
                           (set_claim u t n (set_sd_hash (Some h) d)))
                = (inr tt, d')
             /\ In call_start l
         | PyBool b =>
             st = (if b then STATUS_FINISHED else STATUS_STOPPED)
             /\ d' = (if b then set_completed true else fun x => x)
                       (set_claim_id (Some cid)
                          (set_claim u t n (set_sd_hash (Some h) d)))
             /\ ~ In call_start l
         | PyStr _ => False
         end
      /\ filter is_change_status l = [].
Proof.
  intros c d d' v l H.
  destruct (_get_sd_blob_hashes_for_stream c (stream_hash d))
    as [e | [| h rest]] eqn:H1;
    [ unfold restore in H; dl_unfold; rewrite H1 in H; discriminate
    | unfold restore in H; dl_unfold; rewrite H1 in H; discriminate |].
  destruct (get_claim_metadata_for_sd_hash c h)
    as [e | [[[u t] n] |]] eqn:H2;
    [ unfold restore in H; dl_unfold; rewrite H1 in H; cbv beta iota in H;
      rewrite H2 in H; discriminate
    |
    | unfold restore in H; dl_unfold; rewrite H1 in H; cbv beta iota in H;
      rewrite H2 in H; discriminate ].
  destruct (get_claimid c u t n) as [e | cid] eqn:H3;
    [ unfold restore in H; dl_unfold; rewrite H1 in H; cbv beta iota in H;
      rewrite H2 in H; cbv beta iota in H; rewrite H3 in H; discriminate |].
  destruct (get_lbry_file_status c
              (set_claim_id (Some cid)
                 (set_claim u t n (set_sd_hash (Some h) d))))
    as [e | st] eqn:H4;
    [ unfold restore in H; dl_unfold; rewrite H1 in H; cbv beta iota in H;
      rewrite H2 in H; cbv beta iota in H; rewrite H3 in H;
      cbv beta iota in H; rewrite H4 in H; discriminate |].
  exists h, rest, u, t, n, cid, st.
  do 4 (split; [reflexivity || assumption |]).
  rewrite (restore_run c d h rest u t n cid st H1 H2 H3 H4) in H.
  cbv zeta in H.
  destruct (String.eqb st STATUS_RUNNING) eqn:E1.
  { apply String.eqb_eq in E1.
    destruct (start c _) as [[e | []] d2] eqn:Es; cbn [fst snd] in H;
      [discriminate |].
    injection H as <- <- <-. cbn. repeat split; auto 10. }
  destruct (String.eqb st STATUS_STOPPED) eqn:E2.
  { apply String.eqb_eq in E2. injection H as <- <- <-. cbn.
    repeat split; auto.
    intros [F | [F | [F | [F | []]]]]; discriminate. }
  destruct (String.eqb st STATUS_FINISHED) eqn:E3; [| discriminate].
  apply String.eqb_eq in E3. injection H as <- <- <-. cbn.
  repeat split; auto.
  intros [F | [F | [F | [F | []]]]]; discriminate.
Qed.

Lemma restore_succeeds_only_on_a_known_status_witness :
  restore (answering "finished" (inr PyNone)) running_download =
    (inr (PyBool true),
     mkDownloader "stream" "file.bin" true false (Some "sd0"%string)
       (Some "tx"%string) (Some 1) (Some "lbry://name"%string)
       (Some "claim"%string) false,
     [call__get_sd_blob_hashes_for_stream "stream";
      call_get_claim_metadata_for_sd_hash "sd0";
      call_get_claimid "lbry://name" "tx" 1;
      call_get_lbry_file_status])
  /\ exists st,
       get_lbry_file_status (answering "finished" (inr PyNone))
         running_download = inr st
       /\ st = STATUS_FINISHED.
Proof.
  split; [reflexivity |].
  destruct (restore_succeeds_only_on_a_known_status
              (answering "finished" (inr PyNone)) running_download _ _ _
              eq_refl)
    as (h & rest & u & t & n & cid & st & _ & _ & _ & H4 & (Hst & _) & _).
  exists st. split; [exact H4 | exact Hst].
Defined.

(** X25.  When the manager answers a status [restore] does not know, it
    raises with the unformatted message, the stream hash and the status as
    the arguments of the exception; what it looked up before stays written
    on the object, and [completed] is as it was. *)
Theorem restore_keeps_lookups_on_unknown_status :
  forall (c : collaborators) (d : downloader) (h : string)
         (rest : list string) (u t : string) (n : Z) (cid st : string),
    _get_sd_blob_hashes_for_stream c (stream_hash d) = inr (h :: rest) ->
    get_claim_metadata_for_sd_hash c h = inr (Some (u, t, n)) ->
    get_claimid c u t n = inr cid ->
    get_lbry_file_status c
      (set_claim_id (Some cid) (set_claim u t n (set_sd_hash (Some h) d)))
      = inr st ->
    st <> STATUS_RUNNING -> st <> STATUS_STOPPED -> st <> STATUS_FINISHED ->
    outcome_of (restore c d)
      = inl (Exception ["Unknown status for stream %s: %s"%string;
                        stream_hash d; st])
    /\ sd_hash (object_of (restore c d)) = Some h
    /\ uri (object_of (restore c d)) = Some u
    /\ txid (object_of (restore c d)) = Some t
    /\ nout (object_of (restore c d)) = Some n
    /\ claim_id (object_of (restore c d)) = Some cid
    /\ completed (object_of (restore c d)) = completed d
    /\ ~ In call_start (calls_of (restore c d)).
Proof.
  intros c d h rest u t n cid st H1 H2 H3 H4 N1 N2 N3.
  rewrite (restore_run c d h rest u t n cid st H1 H2 H3 H4). cbv zeta.
  apply String.eqb_neq in N1, N2, N3. rewrite N1, N2, N3.
  cbn. repeat split.
  intros [F | [F | [F | [F | []]]]]; discriminate.
Qed.

Lemma restore_keeps_lookups_on_unknown_status_witness :
  outcome_of (restore (answering "completed" (inr PyNone)) running_download)
    = inl (Exception ["Unknown status for stream %s: %s"%string;
                      "stream"%string; "completed"%string])
  /\ sd_hash (object_of (restore (answering "completed" (inr PyNone))
                                 running_download)) = Some "sd0"%string.
Proof.
  destruct (restore_keeps_lookups_on_unknown_status
              (answering "completed" (inr PyNone)) running_download
              "sd0" ["sd1"%string] "lbry://name" "tx" 1 "claim" "completed"
              eq_refl eq_refl eq_refl eq_refl)
    as (H1 & H2 & _); try discriminate.
  split; [exact H1 | exact H2].
Defined.

(** X26.  Without an sd hash for the stream, or without a claim for the sd
    hash, [restore] raises an [Exception]; the claim attributes, the claim
    id and [completed] stay as they were, and neither the manager's status
    is asked for nor [start] called. *)
Theorem restore_raises_without_sd_hash_or_claim :
  forall (c : collaborators) (d : downloader),
    (_get_sd_blob_hashes_for_stream c (stream_hash d) = inr []
     \/ exists h rest,
          _get_sd_blob_hashes_for_stream c (stream_hash d) = inr (h :: rest)
          /\ get_claim_metadata_for_sd_hash c h = inr None) ->
    (exists args, outcome_of (restore c d) = inl (Exception args))
    /\ set_sd_hash None (object_of (restore c d)) = set_sd_hash None d
    /\ ~ In call_get_lbry_file_status (calls_of (restore c d))
    /\ ~ In call_start (calls_of (restore c d)).
Proof.
  intros c d [H1 | (h & rest & H1 & H2)]; unfold restore; dl_unfold;
    rewrite H1; cbv beta iota; [| rewrite H2; cbv beta iota]; cbn.
  - repeat split; eauto; intros [F | []]; discriminate.
  - repeat split; eauto; intros [F | [F | []]]; discriminate.
Qed.

Lemma restore_raises_without_sd_hash_or_claim_witness :
  exists args,
    outcome_of
      (restore
         (mkCollaborators
            (fun _ => inr []) (fun _ => inr [])
            (fun _ => inr None) (fun _ _ _ => inr "claim"%string)
            (fun _ => inr STATUS_STOPPED) (fun _ _ => inr PyNone)
            (fun _ => inr []) (fun _ => inr [])
            (fun d => (inr tt, d)) (fun _ d => (inr tt, d))
            (fun d => (inr tt, d)))
         running_download)
    = inl (Exception args).
Proof.
  apply (restore_raises_without_sd_hash_or_claim
           (mkCollaborators
              (fun _ => inr []) (fun _ => inr [])
              (fun _ => inr None) (fun _ _ _ => inr "claim"%string)
              (fun _ => inr STATUS_STOPPED) (fun _ _ => inr PyNone)
              (fun _ => inr []) (fun _ => inr [])
              (fun d => (inr tt, d)) (fun _ d => (inr tt, d))
              (fun d => (inr tt, d)))
           running_download).
  left. reflexivity.
Defined.

(** X27.  When [_start] succeeds, the inherited [_start] succeeded, the
    status was saved once, as the last call, and it is the status of the
    object as [_start] leaves it: the lookups in between change neither
    [completed] nor [stopped].  What [_start] returns is the manager's
    reply, and the [_saving_status] flag is down. *)
Theorem downloader_start_saves_final_status :
  forall (c : collaborators) (d d' : downloader) (v : pyval) (l : list call),
    _start c d = (inr v, d', l) ->
    fst (EncryptedFileSaver__start c d) = inr tt
    /\ completed d' = completed (snd (EncryptedFileSaver__start c d))
    /\ stopped d' = stopped (snd (EncryptedFileSaver__start c d))
    /\ saving_status d' = false
    /\ change_lbry_file_status c (set_saving_status true d')
         (status_to_save d') = inr v
    /\ exists l0,
         l = l0 ++ [call_change_lbry_file_status (status_to_save d')]
         /\ filter is_change_status l0 = [].
Proof.
  intros c d d' v l H. unfold _start in H. dl_unfold.
  destruct (EncryptedFileSaver__start c d) as [[e | []] d0];
    cbn [fst snd] in *; [discriminate |].
  destruct (get_sd_blob_hashes_for_stream c (stream_hash d0))
    as [e | [| h rest]]; cbv beta iota in H; [discriminate | |].
  - rewrite _save_status_run in H.
    destruct (change_lbry_file_status c (set_saving_status true d0)
                (status_to_save d0)) as [e | reply] eqn:Hm;
      [discriminate |].
    injection H as <- <- <-.
    repeat split; try reflexivity; [exact Hm |].
    match goal with
    | |- exists l0, ?l = _ /\ _ => exists (removelast l)
    end.
    split; reflexivity.
  - destruct (get_claim_metadata_for_sd_hash c h)
      as [e | [[[u t] n] |]]; cbv beta iota in H; [discriminate | |];
      rewrite _save_status_run in H;
      match type of H with
      | context [change_lbry_file_status c ?x ?s] =>
          destruct (change_lbry_file_status c x s) as [e | reply] eqn:Hm
      end; try discriminate;
      injection H as <- <- <-;
      (repeat split; try reflexivity; [exact Hm |]);
      match goal with
      | |- exists l0, ?l = _ /\ _ => exists (removelast l)
      end;
      (split; reflexivity).
Qed.

Lemma downloader_start_saves_final_status_witness :
  _start (answering "running" (inr (PyStr "saved"))) running_download =
    (inr (PyStr "saved"),
     mkDownloader "stream" "file.bin" false false (Some "sd0"%string)
       (Some "tx"%string) (Some 1) (Some "lbry://name"%string) None false,
     [call_EncryptedFileSaver__start;
      call_get_sd_blob_hashes_for_stream "stream";
      call_get_claim_metadata_for_sd_hash "sd0";
      call_change_lbry_file_status STATUS_RUNNING])
  /\ change_lbry_file_status (answering "running" (inr (PyStr "saved")))
       (set_saving_status true running_download) STATUS_RUNNING
     = inr (PyStr "saved").
Proof.
  split; [reflexivity |].
  destruct (downloader_start_saves_final_status
              (answering "running" (inr (PyStr "saved"))) running_download
              _ _ _ eq_refl) as (_ & _ & _ & _ & H & _).
  exact H.
Defined.
